(** * MidiKeyboardComponent: geometry, viewport, pointer tracking, key mapping

    A shallow embedding of
    [modules/juce_audio_utils/gui/juce_MidiKeyboardComponent.cpp].

    Conventions of the embedding.
    - C++ [int] values are [Z]; [/] and [%] on [int] are [Z.quot] and
      [Z.rem] (truncation towards zero).
    - C++ [float] values are exact rationals [Q]: no rounding, no NaN, no
      infinities.  [(int) f] is truncation towards zero, [(float) i] is
      [inject_Z].  Comparisons of floats are comparisons of rationals.
    - [jassert] is a debug-build check that never alters control flow; it is
      left out, as in a release build.
    - The widget is a record; every member function is a function on that
      record.  Calls to collaborators (the shared note state, the change
      broadcaster, the repaint request of the component framework) are
      appended to the [sent] field, oldest first; a note message also runs
      the widget's own note callback, as the shared note state does. *)

From Stdlib Require Import ZArith QArith List Bool Lia Lqa.
Import ListNotations.

Open Scope Z_scope.

(** ** Numeric helpers (juce_core) *)

Definition Qltb (x y : Q) : bool := negb (Qle_bool y x).

(** [jlimit (lower, upper, value)] and [jmax] from juce_MathsFunctions.h:
    [value < lower ? lower : (upper < value ? upper : value)]. *)
Definition jlimit (lowerLimit upperLimit valueToConstrain : Z) : Z :=
  if valueToConstrain <? lowerLimit then lowerLimit
  else if upperLimit <? valueToConstrain then upperLimit
  else valueToConstrain.

Definition jlimitf (lowerLimit upperLimit valueToConstrain : Q) : Q :=
  if Qltb valueToConstrain lowerLimit then lowerLimit
  else if Qltb upperLimit valueToConstrain then upperLimit
  else valueToConstrain.

Definition jmaxf (a b : Q) : Q := if Qltb a b then b else a.

(** [(int) f]: conversion of a float to int truncates towards zero. *)
Definition truncToInt (f : Q) : Z := Z.quot (Qnum f) (Zpos (Qden f)).

(** ** [Range<float>] (juce_Range.h)

    The two-argument constructor never builds a range whose end lies
    before its start. *)
Record Range := { getStart : Q; getEnd : Q }.

Definition mkRange (startValue endValue : Q) : Range :=
  {| getStart := startValue; getEnd := jmaxf startValue endValue |}.

Definition getLength (r : Range) : Q := (getEnd r - getStart r)%Q.

Definition contains (r : Range) (position : Q) : bool :=
  Qle_bool (getStart r) position && Qltb position (getEnd r).

(** [Range::operator- (amount)]: both ends shifted down. *)
Definition shiftDown (r : Range) (amount : Q) : Range :=
  mkRange (getStart r - amount)%Q (getEnd r - amount)%Q.

Definition centre (r : Range) : Q := ((getStart r + getEnd r) / 2)%Q.

(** ** Data model *)

Inductive Orientation :=
| horizontalKeyboard
| verticalKeyboardFacingLeft
| verticalKeyboardFacingRight.

Definition Orientation_eqb (a b : Orientation) : bool :=
  match a, b with
  | horizontalKeyboard, horizontalKeyboard
  | verticalKeyboardFacingLeft, verticalKeyboardFacingLeft
  | verticalKeyboardFacingRight, verticalKeyboardFacingRight => true
  | _, _ => false
  end.

(** A pointer source is identified by its type and its index. *)
Inductive InputSourceType := mouse | touch | pen.

Definition InputSourceType_eqb (a b : InputSourceType) : bool :=
  match a, b with
  | mouse, mouse | touch, touch | pen, pen => true
  | _, _ => false
  end.

Record MouseInputSource := { getType : InputSourceType; getIndex : Z }.

(** [InputIndex (source, note)]: one tracked pointer source and the note it
    is over (or holds down). *)
Record InputIndex := { type : InputSourceType; index : Z; noteNumber : Z }.

Definition mkInputIndex (source : MouseInputSource) (note : Z) : InputIndex :=
  {| type := getType source; index := getIndex source; noteNumber := note |}.

(** [KeyPress (keyCode, modifiers, textCharacter)]. *)
Record KeyPress := { keyCode : Z; mods : Z; textCharacter : Z }.

(** What the widget asks of its collaborators: note messages for the shared
    note state, the change message for its listeners, and repaint requests
    for the component framework ([repaintKey n] asks for the rectangle of
    key [n]). *)
Inductive Request :=
| noteOn (midiChannel midiNoteNumber : Z) (velocity : Q)
| noteOff (midiChannel midiNoteNumber : Z) (velocity : Q)
| sendChangeMessage
| repaint
| repaintKey (midiNoteNumber : Z).

Record Keyboard := mkKeyboard {
  (* component bounds: getWidth(), getHeight() *)
  getWidth : Z;
  getHeight : Z;
  orientation : Orientation;
  blackNoteLengthRatio : Q;
  blackNoteWidthRatio : Q;
  (* the ratio captured by the function-local [static const notePos] table
     of getKeyPosition when it was initialised (on its first call) *)
  notePosRatio : Q;
  xOffset : Q;
  keyWidth : Q;
  midiChannel : Z;
  midiInChannelMask : Z;
  velocity : Q;
  mouseOverNotes : list InputIndex;
  mouseDownNotes : list InputIndex;
  keysPressed : Z;              (* BigInteger used as a bit set *)
  keysCurrentlyDrawnDown : Z;
  shouldCheckState : bool;
  rangeStart : Z;
  rangeEnd : Z;
  firstKey : Q;
  canScroll : bool;
  useMousePositionForVelocity : bool;
  shouldCheckMousePos : bool;
  scrollDownVisible : bool;
  scrollUpVisible : bool;
  keyPresses : list KeyPress;
  keyPressNotes : list Z;
  keyMappingOctave : Z;
  octaveNumForMiddleC : Z;
  sent : list Request
}.

(** Field updates: [with_f v k] is [k] with member [f] assigned [v]. *)

Definition with_getWidth v (k : Keyboard) : Keyboard :=
  mkKeyboard v (getHeight k) (orientation k) (blackNoteLengthRatio k)
    (blackNoteWidthRatio k) (notePosRatio k) (xOffset k) (keyWidth k)
    (midiChannel k) (midiInChannelMask k) (velocity k) (mouseOverNotes k)
    (mouseDownNotes k) (keysPressed k) (keysCurrentlyDrawnDown k)
    (shouldCheckState k) (rangeStart k) (rangeEnd k) (firstKey k)
    (canScroll k) (useMousePositionForVelocity k) (shouldCheckMousePos k)
    (scrollDownVisible k) (scrollUpVisible k) (keyPresses k)
    (keyPressNotes k) (keyMappingOctave k) (octaveNumForMiddleC k) (sent k).

Definition with_getHeight v (k : Keyboard) : Keyboard :=
  mkKeyboard (getWidth k) v (orientation k) (blackNoteLengthRatio k)
    (blackNoteWidthRatio k) (notePosRatio k) (xOffset k) (keyWidth k)
    (midiChannel k) (midiInChannelMask k) (velocity k) (mouseOverNotes k)
    (mouseDownNotes k) (keysPressed k) (keysCurrentlyDrawnDown k)
    (shouldCheckState k) (rangeStart k) (rangeEnd k) (firstKey k)
    (canScroll k) (useMousePositionForVelocity k) (shouldCheckMousePos k)
    (scrollDownVisible k) (scrollUpVisible k) (keyPresses k)
    (keyPressNotes k) (keyMappingOctave k) (octaveNumForMiddleC k) (sent k).

Definition with_orientation v (k : Keyboard) : Keyboard :=
  mkKeyboard (getWidth k) (getHeight k) v (blackNoteLengthRatio k)
    (blackNoteWidthRatio k) (notePosRatio k) (xOffset k) (keyWidth k)
    (midiChannel k) (midiInChannelMask k) (velocity k) (mouseOverNotes k)
    (mouseDownNotes k) (keysPressed k) (keysCurrentlyDrawnDown k)
    (shouldCheckState k) (rangeStart k) (rangeEnd k) (firstKey k)
    (canScroll k) (useMousePositionForVelocity k) (shouldCheckMousePos k)
    (scrollDownVisible k) (scrollUpVisible k) (keyPresses k)
    (keyPressNotes k) (keyMappingOctave k) (octaveNumForMiddleC k) (sent k).

Definition with_blackNoteLengthRatio v (k : Keyboard) : Keyboard :=
  mkKeyboard (getWidth k) (getHeight k) (orientation k) v
    (blackNoteWidthRatio k) (notePosRatio k) (xOffset k) (keyWidth k)
    (midiChannel k) (midiInChannelMask k) (velocity k) (mouseOverNotes k)
    (mouseDownNotes k) (keysPressed k) (keysCurrentlyDrawnDown k)
    (shouldCheckState k) (rangeStart k) (rangeEnd k) (firstKey k)
    (canScroll k) (useMousePositionForVelocity k) (shouldCheckMousePos k)
    (scrollDownVisible k) (scrollUpVisible k) (keyPresses k)
    (keyPressNotes k) (keyMappingOctave k) (octaveNumForMiddleC k) (sent k).

Definition with_blackNoteWidthRatio v (k : Keyboard) : Keyboard :=
  mkKeyboard (getWidth k) (getHeight k) (orientation k)
    (blackNoteLengthRatio k) v (notePosRatio k) (xOffset k) (keyWidth k)
    (midiChannel k) (midiInChannelMask k) (velocity k) (mouseOverNotes k)
    (mouseDownNotes k) (keysPressed k) (keysCurrentlyDrawnDown k)
    (shouldCheckState k) (rangeStart k) (rangeEnd k) (firstKey k)
    (canScroll k) (useMousePositionForVelocity k) (shouldCheckMousePos k)
    (scrollDownVisible k) (scrollUpVisible k) (keyPresses k)
    (keyPressNotes k) (keyMappingOctave k) (octaveNumForMiddleC k) (sent k).

Definition with_xOffset v (k : Keyboard) : Keyboard :=
  mkKeyboard (getWidth k) (getHeight k) (orientation k)
    (blackNoteLengthRatio k) (blackNoteWidthRatio k) (notePosRatio k) v
    (keyWidth k) (midiChannel k) (midiInChannelMask k) (velocity k)
    (mouseOverNotes k) (mouseDownNotes k) (keysPressed k)
    (keysCurrentlyDrawnDown k) (shouldCheckState k) (rangeStart k)
    (rangeEnd k) (firstKey k) (canScroll k) (useMousePositionForVelocity k)
    (shouldCheckMousePos k) (scrollDownVisible k) (scrollUpVisible k)
    (keyPresses k) (keyPressNotes k) (keyMappingOctave k)
    (octaveNumForMiddleC k) (sent k).

Definition with_keyWidth v (k : Keyboard) : Keyboard :=
  mkKeyboard (getWidth k) (getHeight k) (orientation k)
    (blackNoteLengthRatio k) (blackNoteWidthRatio k) (notePosRatio k)
    (xOffset k) v (midiChannel k) (midiInChannelMask k) (velocity k)
    (mouseOverNotes k) (mouseDownNotes k) (keysPressed k)
    (keysCurrentlyDrawnDown k) (shouldCheckState k) (rangeStart k)
    (rangeEnd k) (firstKey k) (canScroll k) (useMousePositionForVelocity k)
    (shouldCheckMousePos k) (scrollDownVisible k) (scrollUpVisible k)
    (keyPresses k) (keyPressNotes k) (keyMappingOctave k)
    (octaveNumForMiddleC k) (sent k).

Definition with_midiChannel v (k : Keyboard) : Keyboard :=
  mkKeyboard (getWidth k) (getHeight k) (orientation k)
    (blackNoteLengthRatio k) (blackNoteWidthRatio k) (notePosRatio k)
    (xOffset k) (keyWidth k) v (midiInChannelMask k) (velocity k)
    (mouseOverNotes k) (mouseDownNotes k) (keysPressed k)
    (keysCurrentlyDrawnDown k) (shouldCheckState k) (rangeStart k)
    (rangeEnd k) (firstKey k) (canScroll k) (useMousePositionForVelocity k)
    (shouldCheckMousePos k) (scrollDownVisible k) (scrollUpVisible k)
    (keyPresses k) (keyPressNotes k) (keyMappingOctave k)
    (octaveNumForMiddleC k) (sent k).

Definition with_midiInChannelMask v (k : Keyboard) : Keyboard :=
  mkKeyboard (getWidth k) (getHeight k) (orientation k)
    (blackNoteLengthRatio k) (blackNoteWidthRatio k) (notePosRatio k)
    (xOffset k) (keyWidth k) (midiChannel k) v (velocity k)
    (mouseOverNotes k) (mouseDownNotes k) (keysPressed k)
    (keysCurrentlyDrawnDown k) (shouldCheckState k) (rangeStart k)
    (rangeEnd k) (firstKey k) (canScroll k) (useMousePositionForVelocity k)
    (shouldCheckMousePos k) (scrollDownVisible k) (scrollUpVisible k)
    (keyPresses k) (keyPressNotes k) (keyMappingOctave k)
    (octaveNumForMiddleC k) (sent k).

Definition with_velocity v (k : Keyboard) : Keyboard :=
  mkKeyboard (getWidth k) (getHeight k) (orientation k)
    (blackNoteLengthRatio k) (blackNoteWidthRatio k) (notePosRatio k)
    (xOffset k) (keyWidth k) (midiChannel k) (midiInChannelMask k) v
    (mouseOverNotes k) (mouseDownNotes k) (keysPressed k)
    (keysCurrentlyDrawnDown k) (shouldCheckState k) (rangeStart k)
    (rangeEnd k) (firstKey k) (canScroll k) (useMousePositionForVelocity k)
    (shouldCheckMousePos k) (scrollDownVisible k) (scrollUpVisible k)
    (keyPresses k) (keyPressNotes k) (keyMappingOctave k)
    (octaveNumForMiddleC k) (sent k).

Definition with_mouseOverNotes v (k : Keyboard) : Keyboard :=
  mkKeyboard (getWidth k) (getHeight k) (orientation k)
    (blackNoteLengthRatio k) (blackNoteWidthRatio k) (notePosRatio k)
    (xOffset k) (keyWidth k) (midiChannel k) (midiInChannelMask k)
    (velocity k) v (mouseDownNotes k) (keysPressed k)
    (keysCurrentlyDrawnDown k) (shouldCheckState k) (rangeStart k)
    (rangeEnd k) (firstKey k) (canScroll k) (useMousePositionForVelocity k)
    (shouldCheckMousePos k) (scrollDownVisible k) (scrollUpVisible k)
    (keyPresses k) (keyPressNotes k) (keyMappingOctave k)
    (octaveNumForMiddleC k) (sent k).

Definition with_mouseDownNotes v (k : Keyboard) : Keyboard :=
  mkKeyboard (getWidth k) (getHeight k) (orientation k)
    (blackNoteLengthRatio k) (blackNoteWidthRatio k) (notePosRatio k)
    (xOffset k) (keyWidth k) (midiChannel k) (midiInChannelMask k)
    (velocity k) (mouseOverNotes k) v (keysPressed k)
    (keysCurrentlyDrawnDown k) (shouldCheckState k) (rangeStart k)
    (rangeEnd k) (firstKey k) (canScroll k) (useMousePositionForVelocity k)
    (shouldCheckMousePos k) (scrollDownVisible k) (scrollUpVisible k)
    (keyPresses k) (keyPressNotes k) (keyMappingOctave k)
    (octaveNumForMiddleC k) (sent k).

Definition with_keysPressed v (k : Keyboard) : Keyboard :=
  mkKeyboard (getWidth k) (getHeight k) (orientation k)
    (blackNoteLengthRatio k) (blackNoteWidthRatio k) (notePosRatio k)
    (xOffset k) (keyWidth k) (midiChannel k) (midiInChannelMask k)
    (velocity k) (mouseOverNotes k) (mouseDownNotes k) v
    (keysCurrentlyDrawnDown k) (shouldCheckState k) (rangeStart k)
    (rangeEnd k) (firstKey k) (canScroll k) (useMousePositionForVelocity k)
    (shouldCheckMousePos k) (scrollDownVisible k) (scrollUpVisible k)
    (keyPresses k) (keyPressNotes k) (keyMappingOctave k)
    (octaveNumForMiddleC k) (sent k).

Definition with_keysCurrentlyDrawnDown v (k : Keyboard) : Keyboard :=
  mkKeyboard (getWidth k) (getHeight k) (orientation k)
    (blackNoteLengthRatio k) (blackNoteWidthRatio k) (notePosRatio k)
    (xOffset k) (keyWidth k) (midiChannel k) (midiInChannelMask k)
    (velocity k) (mouseOverNotes k) (mouseDownNotes k) (keysPressed k) v
    (shouldCheckState k) (rangeStart k) (rangeEnd k) (firstKey k)
    (canScroll k) (useMousePositionForVelocity k) (shouldCheckMousePos k)
    (scrollDownVisible k) (scrollUpVisible k) (keyPresses k)
    (keyPressNotes k) (keyMappingOctave k) (octaveNumForMiddleC k) (sent k).

Definition with_shouldCheckState v (k : Keyboard) : Keyboard :=
  mkKeyboard (getWidth k) (getHeight k) (orientation k)
    (blackNoteLengthRatio k) (blackNoteWidthRatio k) (notePosRatio k)
    (xOffset k) (keyWidth k) (midiChannel k) (midiInChannelMask k)
    (velocity k) (mouseOverNotes k) (mouseDownNotes k) (keysPressed k)
    (keysCurrentlyDrawnDown k) v (rangeStart k) (rangeEnd k) (firstKey k)
    (canScroll k) (useMousePositionForVelocity k) (shouldCheckMousePos k)
    (scrollDownVisible k) (scrollUpVisible k) (keyPresses k)
    (keyPressNotes k) (keyMappingOctave k) (octaveNumForMiddleC k) (sent k).

Definition with_rangeStart v (k : Keyboard) : Keyboard :=
  mkKeyboard (getWidth k) (getHeight k) (orientation k)
    (blackNoteLengthRatio k) (blackNoteWidthRatio k) (notePosRatio k)
    (xOffset k) (keyWidth k) (midiChannel k) (midiInChannelMask k)
    (velocity k) (mouseOverNotes k) (mouseDownNotes k) (keysPressed k)
    (keysCurrentlyDrawnDown k) (shouldCheckState k) v (rangeEnd k)
    (firstKey k) (canScroll k) (useMousePositionForVelocity k)
    (shouldCheckMousePos k) (scrollDownVisible k) (scrollUpVisible k)
    (keyPresses k) (keyPressNotes k) (keyMappingOctave k)
    (octaveNumForMiddleC k) (sent k).

Definition with_rangeEnd v (k : Keyboard) : Keyboard :=
  mkKeyboard (getWidth k) (getHeight k) (orientation k)
    (blackNoteLengthRatio k) (blackNoteWidthRatio k) (notePosRatio k)
    (xOffset k) (keyWidth k) (midiChannel k) (midiInChannelMask k)
    (velocity k) (mouseOverNotes k) (mouseDownNotes k) (keysPressed k)
    (keysCurrentlyDrawnDown k) (shouldCheckState k) (rangeStart k) v
    (firstKey k) (canScroll k) (useMousePositionForVelocity k)
    (shouldCheckMousePos k) (scrollDownVisible k) (scrollUpVisible k)
    (keyPresses k) (keyPressNotes k) (keyMappingOctave k)
    (octaveNumForMiddleC k) (sent k).

Definition with_firstKey v (k : Keyboard) : Keyboard :=
  mkKeyboard (getWidth k) (getHeight k) (orientation k)
    (blackNoteLengthRatio k) (blackNoteWidthRatio k) (notePosRatio k)
    (xOffset k) (keyWidth k) (midiChannel k) (midiInChannelMask k)
    (velocity k) (mouseOverNotes k) (mouseDownNotes k) (keysPressed k)
    (keysCurrentlyDrawnDown k) (shouldCheckState k) (rangeStart k)
    (rangeEnd k) v (canScroll k) (useMousePositionForVelocity k)
    (shouldCheckMousePos k) (scrollDownVisible k) (scrollUpVisible k)
    (keyPresses k) (keyPressNotes k) (keyMappingOctave k)
    (octaveNumForMiddleC k) (sent k).

Definition with_canScroll v (k : Keyboard) : Keyboard :=
  mkKeyboard (getWidth k) (getHeight k) (orientation k)
    (blackNoteLengthRatio k) (blackNoteWidthRatio k) (notePosRatio k)
    (xOffset k) (keyWidth k) (midiChannel k) (midiInChannelMask k)
    (velocity k) (mouseOverNotes k) (mouseDownNotes k) (keysPressed k)
    (keysCurrentlyDrawnDown k) (shouldCheckState k) (rangeStart k)
    (rangeEnd k) (firstKey k) v (useMousePositionForVelocity k)
    (shouldCheckMousePos k) (scrollDownVisible k) (scrollUpVisible k)
    (keyPresses k) (keyPressNotes k) (keyMappingOctave k)
    (octaveNumForMiddleC k) (sent k).

Definition with_useMousePositionForVelocity v (k : Keyboard) : Keyboard :=
  mkKeyboard (getWidth k) (getHeight k) (orientation k)
    (blackNoteLengthRatio k) (blackNoteWidthRatio k) (notePosRatio k)
    (xOffset k) (keyWidth k) (midiChannel k) (midiInChannelMask k)
    (velocity k) (mouseOverNotes k) (mouseDownNotes k) (keysPressed k)
    (keysCurrentlyDrawnDown k) (shouldCheckState k) (rangeStart k)
    (rangeEnd k) (firstKey k) (canScroll k) v (shouldCheckMousePos k)
    (scrollDownVisible k) (scrollUpVisible k) (keyPresses k)
    (keyPressNotes k) (keyMappingOctave k) (octaveNumForMiddleC k) (sent k).

Definition with_shouldCheckMousePos v (k : Keyboard) : Keyboard :=
  mkKeyboard (getWidth k) (getHeight k) (orientation k)
    (blackNoteLengthRatio k) (blackNoteWidthRatio k) (notePosRatio k)
    (xOffset k) (keyWidth k) (midiChannel k) (midiInChannelMask k)
    (velocity k) (mouseOverNotes k) (mouseDownNotes k) (keysPressed k)
    (keysCurrentlyDrawnDown k) (shouldCheckState k) (rangeStart k)
    (rangeEnd k) (firstKey k) (canScroll k) (useMousePositionForVelocity k)
    v (scrollDownVisible k) (scrollUpVisible k) (keyPresses k)
    (keyPressNotes k) (keyMappingOctave k) (octaveNumForMiddleC k) (sent k).

Definition with_scrollDownVisible v (k : Keyboard) : Keyboard :=
  mkKeyboard (getWidth k) (getHeight k) (orientation k)
    (blackNoteLengthRatio k) (blackNoteWidthRatio k) (notePosRatio k)
    (xOffset k) (keyWidth k) (midiChannel k) (midiInChannelMask k)
    (velocity k) (mouseOverNotes k) (mouseDownNotes k) (keysPressed k)
    (keysCurrentlyDrawnDown k) (shouldCheckState k) (rangeStart k)
    (rangeEnd k) (firstKey k) (canScroll k) (useMousePositionForVelocity k)
    (shouldCheckMousePos k) v (scrollUpVisible k) (keyPresses k)
    (keyPressNotes k) (keyMappingOctave k) (octaveNumForMiddleC k) (sent k).

Definition with_scrollUpVisible v (k : Keyboard) : Keyboard :=
  mkKeyboard (getWidth k) (getHeight k) (orientation k)
    (blackNoteLengthRatio k) (blackNoteWidthRatio k) (notePosRatio k)
    (xOffset k) (keyWidth k) (midiChannel k) (midiInChannelMask k)
    (velocity k) (mouseOverNotes k) (mouseDownNotes k) (keysPressed k)
    (keysCurrentlyDrawnDown k) (shouldCheckState k) (rangeStart k)
    (rangeEnd k) (firstKey k) (canScroll k) (useMousePositionForVelocity k)
    (shouldCheckMousePos k) (scrollDownVisible k) v (keyPresses k)
    (keyPressNotes k) (keyMappingOctave k) (octaveNumForMiddleC k) (sent k).

Definition with_keyPresses v (k : Keyboard) : Keyboard :=
  mkKeyboard (getWidth k) (getHeight k) (orientation k)
    (blackNoteLengthRatio k) (blackNoteWidthRatio k) (notePosRatio k)
    (xOffset k) (keyWidth k) (midiChannel k) (midiInChannelMask k)
    (velocity k) (mouseOverNotes k) (mouseDownNotes k) (keysPressed k)
    (keysCurrentlyDrawnDown k) (shouldCheckState k) (rangeStart k)
    (rangeEnd k) (firstKey k) (canScroll k) (useMousePositionForVelocity k)
    (shouldCheckMousePos k) (scrollDownVisible k) (scrollUpVisible k) v
    (keyPressNotes k) (keyMappingOctave k) (octaveNumForMiddleC k) (sent k).

Definition with_keyPressNotes v (k : Keyboard) : Keyboard :=
  mkKeyboard (getWidth k) (getHeight k) (orientation k)
    (blackNoteLengthRatio k) (blackNoteWidthRatio k) (notePosRatio k)
    (xOffset k) (keyWidth k) (midiChannel k) (midiInChannelMask k)
    (velocity k) (mouseOverNotes k) (mouseDownNotes k) (keysPressed k)
    (keysCurrentlyDrawnDown k) (shouldCheckState k) (rangeStart k)
    (rangeEnd k) (firstKey k) (canScroll k) (useMousePositionForVelocity k)
    (shouldCheckMousePos k) (scrollDownVisible k) (scrollUpVisible k)
    (keyPresses k) v (keyMappingOctave k) (octaveNumForMiddleC k) (sent k).

Definition with_keyMappingOctave v (k : Keyboard) : Keyboard :=
  mkKeyboard (getWidth k) (getHeight k) (orientation k)
    (blackNoteLengthRatio k) (blackNoteWidthRatio k) (notePosRatio k)
    (xOffset k) (keyWidth k) (midiChannel k) (midiInChannelMask k)
    (velocity k) (mouseOverNotes k) (mouseDownNotes k) (keysPressed k)
    (keysCurrentlyDrawnDown k) (shouldCheckState k) (rangeStart k)
    (rangeEnd k) (firstKey k) (canScroll k) (useMousePositionForVelocity k)
    (shouldCheckMousePos k) (scrollDownVisible k) (scrollUpVisible k)
    (keyPresses k) (keyPressNotes k) v (octaveNumForMiddleC k) (sent k).

Definition with_octaveNumForMiddleC v (k : Keyboard) : Keyboard :=
  mkKeyboard (getWidth k) (getHeight k) (orientation k)
    (blackNoteLengthRatio k) (blackNoteWidthRatio k) (notePosRatio k)
    (xOffset k) (keyWidth k) (midiChannel k) (midiInChannelMask k)
    (velocity k) (mouseOverNotes k) (mouseDownNotes k) (keysPressed k)
    (keysCurrentlyDrawnDown k) (shouldCheckState k) (rangeStart k)
    (rangeEnd k) (firstKey k) (canScroll k) (useMousePositionForVelocity k)
    (shouldCheckMousePos k) (scrollDownVisible k) (scrollUpVisible k)
    (keyPresses k) (keyPressNotes k) (keyMappingOctave k) v (sent k).

Definition with_sent v (k : Keyboard) : Keyboard :=
  mkKeyboard (getWidth k) (getHeight k) (orientation k)
    (blackNoteLengthRatio k) (blackNoteWidthRatio k) (notePosRatio k)
    (xOffset k) (keyWidth k) (midiChannel k) (midiInChannelMask k)
    (velocity k) (mouseOverNotes k) (mouseDownNotes k) (keysPressed k)
    (keysCurrentlyDrawnDown k) (shouldCheckState k) (rangeStart k)
    (rangeEnd k) (firstKey k) (canScroll k) (useMousePositionForVelocity k)
    (shouldCheckMousePos k) (scrollDownVisible k) (scrollUpVisible k)
    (keyPresses k) (keyPressNotes k) (keyMappingOctave k)
    (octaveNumForMiddleC k) v.

(** [handleNoteOn] and [handleNoteOff], the callbacks of the shared note
    state: both only raise the flag that the next timer tick consumes. *)
Definition handleNoteOn (k : Keyboard) : Keyboard :=
  with_shouldCheckState true k.

Definition handleNoteOff (k : Keyboard) : Keyboard :=
  with_shouldCheckState true k.

(** One request handed to a collaborator.

    Modelled from the spec: the shared note state is not part of this
    file.  The constructor registers the widget as one of its listeners,
    and a note message loops back through the listener before the call
    returns: after [state.noteOn] the widget's handleNoteOn has run, after
    [state.noteOff] its handleNoteOff.  The model lets every note message
    reach the listener; whether the state passes on a message that changes
    nothing is its own business, and no property below rests on the flag
    being raised by a message. *)
Definition send (r : Request) (k : Keyboard) : Keyboard :=
  let logged := with_sent (sent k ++ [r]) k in
  match r with
  | noteOn _ _ _ => handleNoteOn logged
  | noteOff _ _ _ => handleNoteOff logged
  | _ => logged
  end.

(** ** Geometry engine *)

Definition whiteNotes : list Z := [0; 2; 4; 5; 7; 9; 11].
Definition blackNotes : list Z := [1; 3; 6; 8; 10].

(** [MidiMessage::isMidiNoteBlack]:
    [((1 << (noteNumber % 12)) & 0x054a) != 0]. *)
Definition isMidiNoteBlack (noteNumber : Z) : bool :=
  negb (Z.land (Z.shiftl 1 (Z.rem noteNumber 12)) 1354 =? 0).

(** The table [notePos] of getKeyPosition.  It is a function-local static:
    it is filled once, with the black-note width ratio of the widget that
    makes the first call, and read by every later call. *)
Definition notePos (ratio : Q) : list Q :=
  [ 0; 1 - ratio * (6#10);
    1; 2 - ratio * (4#10);
    2;
    3; 4 - ratio * (7#10);
    4; 5 - ratio * (5#10);
    5; 6 - ratio * (3#10);
    6 ]%Q.

Definition getKeyPosition (k : Keyboard) (midiNoteNumber : Z)
    (targetKeyWidth : Q) : Range :=
  let octave := Z.quot midiNoteNumber 12 in
  let note := Z.rem midiNoteNumber 12 in
  let start := (inject_Z octave * 7 * targetKeyWidth
                + nth (Z.to_nat note) (notePos (notePosRatio k)) 0
                  * targetKeyWidth)%Q in
  let width := if isMidiNoteBlack note
               then (blackNoteWidthRatio k * targetKeyWidth)%Q
               else targetKeyWidth in
  mkRange start (start + width)%Q.

Definition getKeyPos (k : Keyboard) (midiNoteNumber : Z) : Range :=
  shiftDown
    (shiftDown (getKeyPosition k midiNoteNumber (keyWidth k)) (xOffset k))
    (getStart (getKeyPosition k (rangeStart k) (keyWidth k))).

Definition getKeyStartPosition (k : Keyboard) (midiNoteNumber : Z) : Q :=
  getStart (getKeyPos k midiNoteNumber).

Definition getTotalKeyboardWidth (k : Keyboard) : Q :=
  getEnd (getKeyPos k (rangeEnd k)).

Definition getBlackNoteLength (k : Keyboard) : Q :=
  let whiteNoteLength :=
    match orientation k with
    | horizontalKeyboard => getHeight k
    | _ => getWidth k
    end in
  (inject_Z whiteNoteLength * blackNoteLengthRatio k)%Q.

(** [Rectangle<float> (x, y, width, height)]. *)
Record Rectangle := { rectX : Q; rectY : Q; rectW : Q; rectH : Q }.

(** [getRectangleForKey (note)]: where the key is drawn, by colour and
    orientation. *)
Definition getRectangleForKey (k : Keyboard) (note : Z) : Rectangle :=
  let pos := getKeyPos k note in
  let x := getStart pos in
  let w := getLength pos in
  if isMidiNoteBlack note then
    let blackNoteLength := getBlackNoteLength k in
    match orientation k with
    | horizontalKeyboard =>
        {| rectX := x; rectY := 0; rectW := w; rectH := blackNoteLength |}
    | verticalKeyboardFacingLeft =>
        {| rectX := inject_Z (getWidth k) - blackNoteLength; rectY := x;
           rectW := blackNoteLength; rectH := w |}
    | verticalKeyboardFacingRight =>
        {| rectX := 0; rectY := inject_Z (getHeight k) - x - w;
           rectW := blackNoteLength; rectH := w |}
    end
  else
    match orientation k with
    | horizontalKeyboard =>
        {| rectX := x; rectY := 0; rectW := w;
           rectH := inject_Z (getHeight k) |}
    | verticalKeyboardFacingLeft =>
        {| rectX := 0; rectY := x; rectW := inject_Z (getWidth k);
           rectH := w |}
    | verticalKeyboardFacingRight =>
        {| rectX := 0; rectY := inject_Z (getHeight k) - x - w;
           rectW := inject_Z (getWidth k); rectH := w |}
    end.

(** The inner loop of remappedXYToNote over one octave: the first key of
    [notes] (offsets within the octave) that is in range and whose span
    contains [x]. *)
Fixpoint scanOctave (k : Keyboard) (x : Q) (octaveStart : Z)
    (notes : list Z) : option Z :=
  match notes with
  | [] => None
  | n :: rest =>
      let note := octaveStart + n in
      if (rangeStart k <=? note) && (note <=? rangeEnd k)
         && contains (getKeyPos k note) x
      then Some note
      else scanOctave k x octaveStart rest
  end.

(** The outer loop
    [for (octaveStart = ...; octaveStart <= rangeEnd; octaveStart += 12)];
    [fuel] bounds the number of iterations. *)
Fixpoint scanOctaves (fuel : nat) (k : Keyboard) (x : Q) (notes : list Z)
    (octaveStart : Z) : option Z :=
  match fuel with
  | O => None
  | S fuel' =>
      if octaveStart <=? rangeEnd k then
        match scanOctave k x octaveStart notes with
        | Some note => Some note
        | None => scanOctaves fuel' k x notes (octaveStart + 12)
        end
      else None
  end.

(** Iterations the outer loop can make before [octaveStart] passes
    [rangeEnd]. *)
Definition octaveFuel (k : Keyboard) : nat :=
  S (Z.to_nat (Z.quot (rangeEnd k - 12 * Z.quot (rangeStart k) 12) 12)).

Definition scanKeys (k : Keyboard) (x : Q) (notes : list Z) : option Z :=
  scanOctaves (octaveFuel k) k x notes (12 * Z.quot (rangeStart k) 12).

(** [remappedXYToNote (pos, mousePositionVelocity)]: the note (or -1) and
    the value left in the out-parameter. *)
Definition remappedXYToNote (k : Keyboard) (pos : Q * Q) : Z * Q :=
  let blackNoteLength := getBlackNoteLength k in
  let x := (fst pos - xOffset k)%Q in
  let white :=
    match scanKeys k x whiteNotes with
    | Some note =>
        let whiteNoteLength :=
          match orientation k with
          | horizontalKeyboard => getHeight k
          | _ => getWidth k
          end in
        (note, (snd pos / inject_Z whiteNoteLength)%Q)
    | None => (-1, 0%Q)
    end in
  if Qltb (snd pos) blackNoteLength then
    match scanKeys k x blackNotes with
    | Some note => (note, (snd pos / blackNoteLength)%Q)
    | None => white
    end
  else white.

(** Modelled from the spec: [Component::reallyContains] belongs to the
    component framework and is not part of this file.  A pointer position
    outside the widget bounds gives no note; the model tests the integer
    point it is given against the local bounds. *)
Definition reallyContains (k : Keyboard) (p : Z * Z) : bool :=
  (0 <=? fst p) && (fst p <? getWidth k)
  && (0 <=? snd p) && (snd p <? getHeight k).

(** [xyToNote (pos, mousePositionVelocity)]: the note (or -1), and what
    becomes of the out-parameter: [Some v] when [v] is assigned to it,
    [None] when the call returns without touching it.  [pos.toInt()]
    converts both coordinates by truncation. *)
Definition xyToNote (k : Keyboard) (pos : Q * Q) : Z * option Q :=
  if negb (reallyContains k (truncToInt (fst pos), truncToInt (snd pos)))
  then (-1, None)
  else
    let p :=
      match orientation k with
      | horizontalKeyboard => pos
      | verticalKeyboardFacingLeft =>
          (snd pos, (inject_Z (getWidth k) - fst pos)%Q)
      | verticalKeyboardFacingRight =>
          ((inject_Z (getHeight k) - snd pos)%Q, fst pos)
      end in
    let found := remappedXYToNote k ((fst p + xOffset k)%Q, snd p) in
    (fst found, Some (snd found)).

Definition getNoteAtPosition (k : Keyboard) (p : Q * Q) : Z :=
  fst (xyToNote k p).

Definition repaintNote (noteNum : Z) (k : Keyboard) : Keyboard :=
  if (rangeStart k <=? noteNum) && (noteNum <=? rangeEnd k)
  then send (repaintKey noteNum) k
  else k.

(** ** Viewport controller *)

(** [resized()].  The bounds given to the two scroll buttons are rendering
    detail and are not recorded; their visibility is. *)
Definition resized (k : Keyboard) : Keyboard :=
  let w := getWidth k in
  let h := getHeight k in
  if (w <=? 0) || (h <=? 0) then k
  else
    let w := match orientation k with
             | horizontalKeyboard => w
             | _ => h
             end in
    let kx2 := getEnd (getKeyPos k (rangeEnd k)) in
    let k1 :=
      if negb (truncToInt (firstKey k) =? rangeStart k) then
        let kx1 := getStart (getKeyPos k (rangeStart k)) in
        if Qle_bool (kx2 - kx1) (inject_Z w) then
          send repaint
            (send sendChangeMessage
               (with_firstKey (inject_Z (rangeStart k)) k))
        else k
      else k in
    let k2 :=
      with_scrollDownVisible
        (canScroll k1 && Qltb (inject_Z (rangeStart k1)) (firstKey k1)) k1 in
    let k3 := with_xOffset 0%Q k2 in
    let k4 :=
      if canScroll k3 then
        let endOfLastKey := getEnd (getKeyPos k3 (rangeEnd k3)) in
        let spaceAvailable := w in
        let lastStartKey :=
          fst (remappedXYToNote k3
                 ((endOfLastKey - inject_Z spaceAvailable)%Q, 0%Q)) + 1 in
        let k' :=
          if (0 <=? lastStartKey)
             && (lastStartKey <? truncToInt (firstKey k3))
          then
            send sendChangeMessage
              (with_firstKey
                 (inject_Z
                    (jlimit (rangeStart k3) (rangeEnd k3) lastStartKey))
                 k3)
          else k3 in
        with_xOffset
          (getStart (getKeyPos k' (truncToInt (firstKey k')))) k'
      else with_firstKey (inject_Z (rangeStart k3)) k3 in
    send repaint
      (with_scrollUpVisible
         (canScroll k4
          && Qltb (inject_Z w) (getStart (getKeyPos k4 (rangeEnd k4))))
         k4).

(** Modelled from the spec: the component framework, which is not part of
    this file, stores new bounds and then calls [resized()]. *)
Definition setSize (w h : Z) (k : Keyboard) : Keyboard :=
  resized (with_getHeight h (with_getWidth w k)).

Definition setKeyWidth (widthInPixels : Q) (k : Keyboard) : Keyboard :=
  if Qeq_bool (keyWidth k) widthInPixels then k
  else resized (with_keyWidth widthInPixels k).

Definition setOrientation (newOrientation : Orientation) (k : Keyboard)
    : Keyboard :=
  if Orientation_eqb (orientation k) newOrientation then k
  else resized (with_orientation newOrientation k).

Definition setAvailableRange (lowestNote highestNote : Z) (k : Keyboard)
    : Keyboard :=
  if negb (rangeStart k =? lowestNote) || negb (rangeEnd k =? highestNote)
  then
    let k1 := with_rangeStart (jlimit 0 127 lowestNote) k in
    let k2 := with_rangeEnd (jlimit 0 127 highestNote) k1 in
    let k3 :=
      with_firstKey
        (jlimitf (inject_Z (rangeStart k2)) (inject_Z (rangeEnd k2))
           (firstKey k2)) k2 in
    resized k3
  else k.

Definition setLowestVisibleKeyFloat (noteNumber : Q) (k : Keyboard)
    : Keyboard :=
  let noteNumber :=
    jlimitf (inject_Z (rangeStart k)) (inject_Z (rangeEnd k)) noteNumber in
  if negb (Qeq_bool noteNumber (firstKey k)) then
    let hasMoved :=
      negb (truncToInt (firstKey k) =? truncToInt noteNumber) in
    let k1 := with_firstKey noteNumber k in
    let k2 := if hasMoved then send sendChangeMessage k1 else k1 in
    resized k2
  else k.

Definition setLowestVisibleKey (noteNumber : Z) (k : Keyboard) : Keyboard :=
  setLowestVisibleKeyFloat (inject_Z noteNumber) k.

Definition getLowestVisibleKey (k : Keyboard) : Z := truncToInt (firstKey k).

(** [UpDownButton::clicked()] for the button built with [delta]. *)
Definition clicked (delta : Z) (k : Keyboard) : Keyboard :=
  let note := getLowestVisibleKey k in
  let note := if delta <? 0 then Z.quot (note - 1) 12
              else Z.quot note 12 + 1 in
  setLowestVisibleKey (note * 12) k.

Definition setScrollButtonsVisible (newCanScroll : bool) (k : Keyboard)
    : Keyboard :=
  if negb (Bool.eqb (canScroll k) newCanScroll)
  then resized (with_canScroll newCanScroll k)
  else k.

(** [colourChanged()]: the opacity flag belongs to the component framework;
    the repaint request is recorded. *)
Definition colourChanged (k : Keyboard) : Keyboard := send repaint k.

Definition setMidiChannelsToDisplay (midiChannelMask : Z) (k : Keyboard)
    : Keyboard :=
  with_shouldCheckState true (with_midiInChannelMask midiChannelMask k).

Definition setVelocity (v : Q) (useMousePosition : bool) (k : Keyboard)
    : Keyboard :=
  with_useMousePositionForVelocity useMousePosition
    (with_velocity (jlimitf 0 1 v) k).

Definition setOctaveForMiddleC (octaveNum : Z) (k : Keyboard) : Keyboard :=
  send repaint (with_octaveNumForMiddleC octaveNum k).

Definition setBlackNoteLengthProportion (ratio : Q) (k : Keyboard)
    : Keyboard :=
  if Qeq_bool (blackNoteLengthRatio k) ratio then k
  else resized (with_blackNoteLengthRatio ratio k).

Definition setBlackNoteWidthProportion (ratio : Q) (k : Keyboard)
    : Keyboard :=
  if Qeq_bool (blackNoteWidthRatio k) ratio then k
  else resized (with_blackNoteWidthRatio ratio k).

Definition setKeyPressBaseOctave (newOctaveNumber : Z) (k : Keyboard)
    : Keyboard :=
  with_keyMappingOctave newOctaveNumber k.

(** ** Pointer tracker *)

(** [std::find_if]: position of the first element satisfying [p]; [None]
    stands for the end iterator. *)
Fixpoint find_if {A : Type} (p : A -> bool) (l : list A) : option nat :=
  match l with
  | [] => None
  | x :: rest =>
      if p x then Some O
      else match find_if p rest with
           | Some i => Some (S i)
           | None => None
           end
  end.

(** [vector::erase (it)] and [Array::remove (index)]. *)
Definition eraseAt {A : Type} (i : nat) (l : list A) : list A :=
  firstn i l ++ skipn (S i) l.

Definition erase {A : Type} (it : option nat) (l : list A) : list A :=
  match it with
  | Some i => eraseAt i l
  | None => l
  end.

Definition sameSource (source : MouseInputSource) (x : InputIndex) : bool :=
  InputSourceType_eqb (type x) (getType source)
  && (index x =? getIndex source).

(** [it == end() ? -1 : it->noteNumber]. *)
Definition noteAt (l : list InputIndex) (it : option nat) : Z :=
  match it with
  | Some i => match nth_error l i with
              | Some x => noteNumber x
              | None => -1
              end
  | None => -1
  end.

(** [it->noteNumber = note]. *)
Fixpoint assignNote (i : nat) (note : Z) (l : list InputIndex)
    : list InputIndex :=
  match l, i with
  | [], _ => []
  | x :: rest, O =>
      {| type := type x; index := index x; noteNumber := note |} :: rest
  | x :: rest, S i' => x :: assignNote i' note rest
  end.

Definition containsNoteNumber (container : list InputIndex) (note : Z)
    : bool :=
  existsb (fun x => noteNumber x =? note) container.

(** Notes [127, 126, ..., 0], the order of [for (i = 128; --i >= 0;)]. *)
Definition notesDownwards : list Z :=
  map Z.of_nat (rev (seq 0 128)).

(** The two loops of resetAnyKeysInUse: over the pressed-key bits and over
    the press entries. *)
Definition releaseBits (bits : Z) (l : list Z) (k : Keyboard) : Keyboard :=
  fold_left
    (fun acc i =>
       if Z.testbit bits i
       then send (noteOff (midiChannel acc) i 0) acc else acc) l k.

Definition releaseEntries (l : list InputIndex) (k : Keyboard) : Keyboard :=
  fold_left
    (fun acc mouseDown =>
       send (noteOff (midiChannel acc) (noteNumber mouseDown) 0) acc) l k.

Definition resetAnyKeysInUse (k : Keyboard) : Keyboard :=
  let k1 :=
    if negb (keysPressed k =? 0)
    then with_keysPressed 0 (releaseBits (keysPressed k) notesDownwards k)
    else k in
  let k2 := releaseEntries (mouseDownNotes k1) k1 in
  with_mouseOverNotes [] (with_mouseDownNotes [] k2).

Definition setMidiChannel (midiChannelNumber : Z) (k : Keyboard) : Keyboard :=
  if negb (midiChannel k =? midiChannelNumber)
  then with_midiChannel (jlimit 1 16 midiChannelNumber)
         (resetAnyKeysInUse k)
  else k.

(** Release of the note held by [downIndex]: the entry is erased, and the
    note is switched off unless another entry still carries it. *)
Definition releaseHeld (downIndex : option nat) (oldNoteDown : Z)
    (eventVelocity : Q) (k : Keyboard) : Keyboard :=
  let k1 := with_mouseDownNotes (erase downIndex (mouseDownNotes k)) k in
  if negb (containsNoteNumber (mouseDownNotes k1) oldNoteDown)
  then send (noteOff (midiChannel k1) oldNoteDown eventVelocity) k1
  else k1.

(** The first half of updateNoteUnderMouse: the hover entry of the source
    follows the note under the pointer, and both notes are repainted. *)
Definition updateHover (overIndex : option nat) (oldNote newNote : Z)
    (source : MouseInputSource) (k : Keyboard) : Keyboard :=
  if negb (oldNote =? newNote) then
    let kr := repaintNote newNote (repaintNote oldNote k) in
    if newNote =? -1 then
      with_mouseOverNotes (erase overIndex (mouseOverNotes kr)) kr
    else if oldNote =? -1 then
      with_mouseOverNotes
        (mouseOverNotes kr ++ [mkInputIndex source newNote]) kr
    else
      match overIndex with
      | Some i =>
          with_mouseOverNotes (assignNote i newNote (mouseOverNotes kr)) kr
      | None => kr
      end
  else k.

(** The second half: the press entry of the source, and the note-on and
    note-off messages. *)
Definition updatePress (downIndex : option nat) (oldNoteDown newNote : Z)
    (eventVelocity : Q) (isDown : bool) (source : MouseInputSource)
    (k : Keyboard) : Keyboard :=
  if isDown then
    if newNote =? oldNoteDown then k
    else
      let k2 :=
        if 0 <=? oldNoteDown
        then releaseHeld downIndex oldNoteDown eventVelocity k
        else k in
      if (0 <=? newNote)
         && negb (containsNoteNumber (mouseDownNotes k2) newNote)
      then
        let k3 := send (noteOn (midiChannel k2) newNote eventVelocity) k2 in
        with_mouseDownNotes
          (mouseDownNotes k3 ++ [mkInputIndex source newNote]) k3
      else k2
  else if oldNoteDown <? 0 then k
  else releaseHeld downIndex oldNoteDown eventVelocity k.

(** [updateNoteUnderMouse (pos, isDown, source)].  The local
    [float mousePositionVelocity;] has no initialiser: [unset] is the value
    it happens to hold, which is what the function reads when [xyToNote]
    finds the point outside the widget and leaves it unassigned. *)
Definition updateNoteUnderMouse (pos : Q * Q) (isDown : bool)
    (source : MouseInputSource) (unset : Q) (k : Keyboard) : Keyboard :=
  let downIndex := find_if (sameSource source) (mouseDownNotes k) in
  let overIndex := find_if (sameSource source) (mouseOverNotes k) in
  let newNote := fst (xyToNote k pos) in
  let mousePositionVelocity :=
    match snd (xyToNote k pos) with
    | Some assigned => assigned
    | None => unset
    end in
  let oldNote := noteAt (mouseOverNotes k) overIndex in
  let oldNoteDown := noteAt (mouseDownNotes k) downIndex in
  let eventVelocity :=
    jmaxf 0 (if useMousePositionForVelocity k
             then mousePositionVelocity * velocity k else 1)%Q in
  updatePress downIndex oldNoteDown newNote eventVelocity isDown source
    (updateHover overIndex oldNote newNote source k).

(** A pointer event delivered to the widget: its position in the widget's
    coordinates and its source.  [unsetVelocity] is not part of the event:
    it is the value the uninitialised local of updateNoteUnderMouse holds
    when the handler gets there. *)
Record MouseEvent := {
  position : Q * Q;
  source : MouseInputSource;
  unsetVelocity : Q
}.

(** The overridable hooks, with their default bodies. *)
Definition mouseDownOnKey (midiNoteNumber : Z) (e : MouseEvent) : bool := true.

Definition mouseMove (e : MouseEvent) (k : Keyboard) : Keyboard :=
  with_shouldCheckMousePos false
    (updateNoteUnderMouse (position e) false (source e) (unsetVelocity e) k).

Definition mouseDrag (e : MouseEvent) (k : Keyboard) : Keyboard :=
  updateNoteUnderMouse (position e) true (source e) (unsetVelocity e) k.

Definition mouseDown (e : MouseEvent) (k : Keyboard) : Keyboard :=
  let newNote := fst (xyToNote k (position e)) in
  if (newNote <? 0) || negb (mouseDownOnKey newNote e) then k
  else
    with_shouldCheckMousePos true
      (updateNoteUnderMouse (position e) true (source e) (unsetVelocity e) k).

Definition mouseUp (e : MouseEvent) (k : Keyboard) : Keyboard :=
  with_shouldCheckMousePos false
    (updateNoteUnderMouse (position e) false (source e) (unsetVelocity e) k).

Definition mouseEnter (e : MouseEvent) (k : Keyboard) : Keyboard :=
  updateNoteUnderMouse (position e) false (source e) (unsetVelocity e) k.

Definition mouseExit (e : MouseEvent) (k : Keyboard) : Keyboard :=
  updateNoteUnderMouse (position e) false (source e) (unsetVelocity e) k.

(** [mouseWheelMove (e, wheel)] with [wheel.deltaX], [wheel.deltaY]. *)
Definition mouseWheelMove (deltaX deltaY : Q) (k : Keyboard) : Keyboard :=
  let amount :=
    match orientation k with
    | horizontalKeyboard =>
        if negb (Qeq_bool deltaX 0) then deltaX else (- deltaY)%Q
    | verticalKeyboardFacingLeft => deltaY
    | verticalKeyboardFacingRight => (- deltaY)%Q
    end in
  setLowestVisibleKeyFloat (firstKey k - amount * keyWidth k)%Q k.

(** [BigInteger::setBit (bit, shouldBeSet)]. *)
Definition setBit (bits : Z) (bit : Z) (shouldBeSet : bool) : Z :=
  if shouldBeSet then Z.setbit bits bit else Z.clearbit bits bit.

(** Notes [rangeStart, ..., rangeEnd] in ascending order. *)
Definition notesInRange (k : Keyboard) : list Z :=
  map (fun i => rangeStart k + Z.of_nat i)
      (seq 0 (Z.to_nat (rangeEnd k - rangeStart k + 1))).

(** The first half of timerCallback: when the flag is raised, the notes of
    the range are compared with the shared note state and the changed ones
    repainted. *)
Definition rescan (isNoteOnForChannels : Z -> Z -> bool) (k : Keyboard)
    : Keyboard :=
  if shouldCheckState k then
    fold_left
      (fun acc i =>
         let isOn := isNoteOnForChannels (midiInChannelMask acc) i in
         if negb (Bool.eqb (Z.testbit (keysCurrentlyDrawnDown acc) i) isOn)
         then repaintNote i
                (with_keysCurrentlyDrawnDown
                   (setBit (keysCurrentlyDrawnDown acc) i isOn) acc)
         else acc)
      (notesInRange k) (with_shouldCheckState false k)
  else k.

(** One pointer source the desktop reports over the widget: its local
    position, whether it drags, the source, and the value the uninitialised
    local of updateNoteUnderMouse holds for that call. *)
Definition PointerSample : Type := (Q * Q) * bool * MouseInputSource * Q.

(** The call of updateNoteUnderMouse the timer makes for one source. *)
Definition followPointer (acc : Keyboard) (ms : PointerSample) : Keyboard :=
  updateNoteUnderMouse (fst (fst (fst ms))) (snd (fst (fst ms)))
    (snd (fst ms)) (snd ms) acc.

(** [timerCallback()].  [isNoteOnForChannels] is the answer of the shared
    note state; [sources] lists the pointer sources the desktop reports
    over the widget. *)
Definition timerCallback (isNoteOnForChannels : Z -> Z -> bool)
    (sources : list PointerSample) (k : Keyboard) : Keyboard :=
  let k1 := rescan isNoteOnForChannels k in
  if negb (shouldCheckMousePos k1) then k1
  else fold_left followPointer sources k1.

Definition focusLost (k : Keyboard) : Keyboard := resetAnyKeysInUse k.

(** ** Painting *)

(** What paint asks to be drawn for one key: [drawWhiteNote] or
    [drawBlackNote] with the note, its rectangle, and whether it sounds and
    is hovered. *)
Inductive DrawCall :=
| drawWhiteNote (midiNoteNumber : Z) (area : Rectangle) (isDown isOver : bool)
| drawBlackNote (midiNoteNumber : Z) (area : Rectangle) (isDown isOver : bool).

(** The values of [octave] in
    [for (octave = 0; octave < 128; octave += 12)]. *)
Definition paintOctaves : list Z := map (fun i => 12 * Z.of_nat i) (seq 0 11).

(** One pass of paint over the octaves and over [notes] (the white or the
    black positions of an octave): the notes of the range, in the order
    they are visited. *)
Definition notesToPaint (k : Keyboard) (notes : list Z) : list Z :=
  filter (fun noteNum => (rangeStart k <=? noteNum) && (noteNum <=? rangeEnd k))
    (flat_map (fun octave => map (fun n => octave + n) notes) paintOctaves).

(** [paint (g)]: the keys it draws, in order, the white keys first and the
    black keys over them.  The background, the shadow and the separator
    line, which do not depend on the keys, are left to the graphics
    context; [isNoteOnForChannels] is the answer of the shared note
    state. *)
Definition paint (isNoteOnForChannels : Z -> Z -> bool) (k : Keyboard)
    : list DrawCall :=
  map (fun noteNum =>
         drawWhiteNote noteNum (getRectangleForKey k noteNum)
           (isNoteOnForChannels (midiInChannelMask k) noteNum)
           (containsNoteNumber (mouseOverNotes k) noteNum))
      (notesToPaint k whiteNotes)
  ++ map (fun noteNum =>
            drawBlackNote noteNum (getRectangleForKey k noteNum)
              (isNoteOnForChannels (midiInChannelMask k) noteNum)
              (containsNoteNumber (mouseOverNotes k) noteNum))
         (notesToPaint k blackNotes).

(** ** Physical-key mapping *)

(** The loop [for (i = size; --i >= 0;)] of removeKeyPressForNote; [i]
    counts the indices still to visit. *)
Fixpoint removeKeyPressLoop (i : nat) (midiNoteOffsetFromC : Z)
    (k : Keyboard) : Keyboard :=
  match i with
  | O => k
  | S i' =>
      let k' :=
        if nth i' (keyPressNotes k) 0 =? midiNoteOffsetFromC
        then with_keyPresses (eraseAt i' (keyPresses k))
               (with_keyPressNotes (eraseAt i' (keyPressNotes k)) k)
        else k in
      removeKeyPressLoop i' midiNoteOffsetFromC k'
  end.

Definition removeKeyPressForNote (midiNoteOffsetFromC : Z) (k : Keyboard)
    : Keyboard :=
  removeKeyPressLoop (length (keyPressNotes k)) midiNoteOffsetFromC k.

Definition setKeyPressForNote (key : KeyPress) (midiNoteOffsetFromC : Z)
    (k : Keyboard) : Keyboard :=
  let k1 := removeKeyPressForNote midiNoteOffsetFromC k in
  let k2 := with_keyPressNotes (keyPressNotes k1 ++ [midiNoteOffsetFromC]) k1 in
  with_keyPresses (keyPresses k2 ++ [key]) k2.

Definition clearKeyMappings (k : Keyboard) : Keyboard :=
  with_keyPresses [] (with_keyPressNotes [] (resetAnyKeysInUse k)).

(** The loop of keyStateChanged over the bindings, last to first;
    [isCurrentlyDown] is the key state reported by the framework. *)
Fixpoint keyStateLoop (isCurrentlyDown : KeyPress -> bool) (i : nat)
    (acc : bool * Keyboard) : bool * Keyboard :=
  match i with
  | O => acc
  | S i' =>
      let k := snd acc in
      let note := 12 * keyMappingOctave k + nth i' (keyPressNotes k) 0 in
      let key := nth i' (keyPresses k) {| keyCode := 0; mods := 0;
                                          textCharacter := 0 |} in
      let acc' :=
        if isCurrentlyDown key then
          if negb (Z.testbit (keysPressed k) note) then
            (true,
             send (noteOn (midiChannel k) note (velocity k))
               (with_keysPressed (setBit (keysPressed k) note true) k))
          else acc
        else
          if Z.testbit (keysPressed k) note then
            (true,
             send (noteOff (midiChannel k) note 0)
               (with_keysPressed (setBit (keysPressed k) note false) k))
          else acc in
      keyStateLoop isCurrentlyDown i' acc'
  end.

Definition keyStateChanged (isCurrentlyDown : KeyPress -> bool)
    (k : Keyboard) : bool * Keyboard :=
  keyStateLoop isCurrentlyDown (length (keyPresses k)) (false, k).

(** [keyPresses.contains (key)].  [equals] is [KeyPress::operator==], by
    which [Array::contains] compares; it belongs to the framework and is
    not part of this file. *)
Definition keyPressed (equals : KeyPress -> KeyPress -> bool)
    (key : KeyPress) (k : Keyboard) : bool :=
  existsb (equals key) (keyPresses k).

(** ** Construction *)

(** The characters of the literal ["awsedftgyhujkolp;"], terminating zero
    included: the range-for of the constructor visits the whole array. *)
Definition defaultKeys : list Z :=
  [97; 119; 115; 101; 100; 102; 116; 103; 121; 104; 117; 106; 107; 111;
   108; 112; 59; 0].

(** Modelled from the spec: the in-class member initialisers live in the
    class declaration, which is not part of this file.  The ratios default
    to 0.7; the other values are those of the declaration (key width 16,
    channel 1, all channels displayed, velocity 1, range 0..127, first key
    48, scroll buttons on, velocity from the pointer position, key-mapping
    octave 6, middle C in octave 3).  A new component has no size. *)
Definition declaredMembers (tableRatio : Q) (o : Orientation) : Keyboard :=
  {| getWidth := 0; getHeight := 0;
     orientation := o;
     blackNoteLengthRatio := 7#10;
     blackNoteWidthRatio := 7#10;
     notePosRatio := tableRatio;
     xOffset := 0;
     keyWidth := 16;
     midiChannel := 1;
     midiInChannelMask := 65535;
     velocity := 1;
     mouseOverNotes := [];
     mouseDownNotes := [];
     keysPressed := 0;
     keysCurrentlyDrawnDown := 0;
     shouldCheckState := false;
     rangeStart := 0;
     rangeEnd := 127;
     firstKey := 48;
     canScroll := true;
     useMousePositionForVelocity := true;
     shouldCheckMousePos := false;
     scrollDownVisible := false;
     scrollUpVisible := false;
     keyPresses := [];
     keyPressNotes := [];
     keyMappingOctave := 6;
     octaveNumForMiddleC := 3;
     sent := [] |}.

(** The loop of the constructor over the characters; the counter is the
    note offset [note++]. *)
Definition bindDefaults (l : list Z) (acc : nat * Keyboard) : nat * Keyboard :=
  fold_left
    (fun acc c =>
       (S (fst acc),
        setKeyPressForNote {| keyCode := c; mods := 0; textCharacter := 0 |}
          (Z.of_nat (fst acc)) (snd acc))) l acc.

(** The constructor body: the default qwerty bindings, then
    [colourChanged()]; the child buttons, the keyboard focus, the listener
    registration and the timer are left to the framework.  [tableRatio] is
    the content of the static table of getKeyPosition (see [notePos]). *)
Definition construct (tableRatio : Q) (o : Orientation) : Keyboard :=
  colourChanged
    (snd (bindDefaults defaultKeys (O, declaredMembers tableRatio o))).

(** ** The widget as a state machine *)

Inductive Action :=
| DoSetSize (w h : Z)
| DoSetKeyWidth (widthInPixels : Q)
| DoSetOrientation (o : Orientation)
| DoSetAvailableRange (lowestNote highestNote : Z)
| DoSetLowestVisibleKey (noteNumber : Z)
| DoSetLowestVisibleKeyFloat (noteNumber : Q)
| DoClicked (delta : Z)
| DoSetScrollButtonsVisible (b : bool)
| DoColourChanged
| DoSetMidiChannel (c : Z)
| DoSetMidiChannelsToDisplay (mask : Z)
| DoSetVelocity (v : Q) (useMousePosition : bool)
| DoSetOctaveForMiddleC (octaveNum : Z)
| DoSetBlackNoteLengthProportion (ratio : Q)
| DoSetBlackNoteWidthProportion (ratio : Q)
| DoSetKeyPressBaseOctave (octave : Z)
| DoMouseMove (e : MouseEvent)
| DoMouseDrag (e : MouseEvent)
| DoMouseDown (e : MouseEvent)
| DoMouseUp (e : MouseEvent)
| DoMouseEnter (e : MouseEvent)
| DoMouseExit (e : MouseEvent)
| DoMouseWheelMove (deltaX deltaY : Q)
| DoTimerCallback (isNoteOnForChannels : Z -> Z -> bool)
    (sources : list PointerSample)
| DoFocusLost
| DoClearKeyMappings
| DoSetKeyPressForNote (key : KeyPress) (offset : Z)
| DoRemoveKeyPressForNote (offset : Z)
| DoKeyStateChanged (isCurrentlyDown : KeyPress -> bool).

Definition step (a : Action) (k : Keyboard) : Keyboard :=
  match a with
  | DoSetSize w h => setSize w h k
  | DoSetKeyWidth w => setKeyWidth w k
  | DoSetOrientation o => setOrientation o k
  | DoSetAvailableRange lo hi => setAvailableRange lo hi k
  | DoSetLowestVisibleKey n => setLowestVisibleKey n k
  | DoSetLowestVisibleKeyFloat n => setLowestVisibleKeyFloat n k
  | DoClicked delta => clicked delta k
  | DoSetScrollButtonsVisible b => setScrollButtonsVisible b k
  | DoColourChanged => colourChanged k
  | DoSetMidiChannel c => setMidiChannel c k
  | DoSetMidiChannelsToDisplay m => setMidiChannelsToDisplay m k
  | DoSetVelocity v u => setVelocity v u k
  | DoSetOctaveForMiddleC o => setOctaveForMiddleC o k
  | DoSetBlackNoteLengthProportion r => setBlackNoteLengthProportion r k
  | DoSetBlackNoteWidthProportion r => setBlackNoteWidthProportion r k
  | DoSetKeyPressBaseOctave o => setKeyPressBaseOctave o k
  | DoMouseMove e => mouseMove e k
  | DoMouseDrag e => mouseDrag e k
  | DoMouseDown e => mouseDown e k
  | DoMouseUp e => mouseUp e k
  | DoMouseEnter e => mouseEnter e k
  | DoMouseExit e => mouseExit e k
  | DoMouseWheelMove dx dy => mouseWheelMove dx dy k
  | DoTimerCallback on srcs => timerCallback on srcs k
  | DoFocusLost => focusLost k
  | DoClearKeyMappings => clearKeyMappings k
  | DoSetKeyPressForNote key o => setKeyPressForNote key o k
  | DoRemoveKeyPressForNote o => removeKeyPressForNote o k
  | DoKeyStateChanged down => snd (keyStateChanged down k)
  end.

(** The widget after a sequence of calls, first call first. *)
Definition run (acts : list Action) (k : Keyboard) : Keyboard :=
  fold_left (fun acc a => step a acc) acts k.

(** * Vocabulary of the properties *)

(** Two key presses with the same three members.  The properties use it to
    say which key is held down; it is not the comparison of the framework
    (see [keyPressed]). *)
Definition KeyPress_eqb (a b : KeyPress) : bool :=
  (keyCode a =? keyCode b) && (mods a =? mods b)
  && (textCharacter a =? textCharacter b).

(** The end of a range is not before its start. *)
Definition ordered (r : Range) : Prop := (getStart r <= getEnd r)%Q.

(** Positions in units of the key width, for the table built with the
    default ratio 0.7 and black keys 0.7 units wide. *)
Definition unitPos (m : Z) : Q :=
  (inject_Z (Z.quot m 12) * 7
   + nth (Z.to_nat (Z.rem m 12)) (notePos (7#10)) 0)%Q.

(** Width of key [m] in the same units. *)
Definition unitWidth (m : Z) : Q :=
  if isMidiNoteBlack (Z.rem m 12) then 7#10 else 1.

(** Centre of key [n] in the same units. *)
Definition unitCentre (n : Z) : Q := (unitPos n + unitWidth n / 2)%Q.

(** Does the span of key [m] contain the centre of key [n]? *)
Definition hit (m n : Z) : bool :=
  Qle_bool (unitPos m) (unitCentre n)
  && Qltb (unitCentre n) (unitPos m + unitWidth m).

(** The position of [m] within its octave is listed in [notes]. *)
Definition inOctaveList (notes : list Z) (m : Z) : bool :=
  existsb (Z.eqb (Z.rem m 12)) notes.

(** The MIDI notes 0..127. *)
Definition allNotes : list Z := map Z.of_nat (seq 0 128).

(** The facts about the 128 keys that the round trip rests on, decided by
    evaluation: a key contains its own centre; two keys of one colour never
    share a centre; no black key covers the centre of a white key. *)
Definition centreCheck (m n : Z) : bool :=
  hit n n
  && implb (hit m n && inOctaveList blackNotes m && inOctaveList blackNotes n)
           (m =? n)
  && implb (hit m n && inOctaveList whiteNotes m && inOctaveList whiteNotes n)
           (m =? n)
  && implb (inOctaveList blackNotes m && inOctaveList whiteNotes n)
           (negb (hit m n))
  && Bool.eqb (isMidiNoteBlack n) (inOctaveList blackNotes n)
  && Bool.eqb (negb (isMidiNoteBlack n)) (inOctaveList whiteNotes n).

(** A widget as an application would have it: built by the constructor,
    then given a size. *)
Definition sizedKeyboard (w h : Z) : Keyboard :=
  setSize w h (construct (7#10) horizontalKeyboard).

(** The octave from C4 to C5 at key width 20. *)
Definition octaveKeyboard : Keyboard :=
  setSize 200 60
    (setAvailableRange 60 72
       (setKeyWidth 20 (construct (7#10) horizontalKeyboard))).

(** The lowest visible note lies in the available range. *)
Definition firstKeyInRange (k : Keyboard) : Prop :=
  rangeStart k <= rangeEnd k
  /\ (inject_Z (rangeStart k) <= firstKey k <= inject_Z (rangeEnd k))%Q.

(** The members the viewport invariant reads. *)
Definition viewportOf (k : Keyboard) : Z * Z * Q :=
  (rangeStart k, rangeEnd k, firstKey k).

(** A call respects the documented precondition of the range setter. *)
Definition validAction (a : Action) : Prop :=
  match a with
  | DoSetAvailableRange lowestNote highestNote => lowestNote <= highestNote
  | _ => True
  end.

(** The extent relayout compares the key span with: the width, or the
    height for the two vertical orientations. *)
Definition availableSize (k : Keyboard) : Z :=
  match orientation k with
  | horizontalKeyboard => getWidth k
  | _ => getHeight k
  end.

(** A request that is a note message carries channel [ch]. *)
Definition onChannel (ch : Z) (r : Request) : Prop :=
  match r with
  | noteOn c _ _ | noteOff c _ _ => c = ch
  | _ => True
  end.

(** [l'] is [l] followed by requests whose note messages are all on
    channel [ch]. *)
Definition extends (ch : Z) (l l' : list Request) : Prop :=
  exists extra, l' = l ++ extra /\ Forall (onChannel ch) extra.

(** The note-off messages of resetAnyKeysInUse on channel [ch]: one per
    pressed-key bit, from 127 down to 0, then one per press entry. *)
Definition releaseMessages (ch : Z) (bits : Z) (held : list InputIndex)
    : list Request :=
  map (fun i => noteOff ch i 0) (filter (Z.testbit bits) notesDownwards)
  ++ map (fun x => noteOff ch (noteNumber x) 0) held.

(** The first mouse. *)
Definition firstMouse : MouseInputSource :=
  {| getType := mouse; getIndex := 0 |}.

(** A sized default widget on which the first mouse holds the lowest key. *)
Definition pressLowestKey : Keyboard :=
  mouseDown {| position := (5, 5)%Q; source := firstMouse;
               unsetVelocity := 0 |}
    (sizedKeyboard 1300 60).

(** The configuration calls other than the range setter, the wheel, and the
    key-state notification. *)
Definition plainAction (a : Action) : bool :=
  match a with
  | DoSetSize _ _ | DoSetKeyWidth _ | DoSetOrientation _
  | DoSetLowestVisibleKey _
  | DoSetLowestVisibleKeyFloat _ | DoClicked _
  | DoSetScrollButtonsVisible _ | DoColourChanged
  | DoSetMidiChannelsToDisplay _ | DoSetVelocity _ _
  | DoSetOctaveForMiddleC _ | DoSetBlackNoteLengthProportion _
  | DoSetBlackNoteWidthProportion _ | DoSetKeyPressBaseOctave _
  | DoMouseWheelMove _ _ | DoKeyStateChanged _ => true
  | _ => false
  end.

(** An observation that reads only the tracked pointer sources, the
    bindings and the available range. *)
Record ReadsOnlyLists {C : Type} (obs : Keyboard -> C) : Prop := {
  ignores_getWidth :
    forall v k, obs (with_getWidth v k) = obs k;
  ignores_getHeight :
    forall v k, obs (with_getHeight v k) = obs k;
  ignores_orientation :
    forall v k, obs (with_orientation v k) = obs k;
  ignores_blackNoteLengthRatio :
    forall v k, obs (with_blackNoteLengthRatio v k) = obs k;
  ignores_blackNoteWidthRatio :
    forall v k, obs (with_blackNoteWidthRatio v k) = obs k;
  ignores_xOffset :
    forall v k, obs (with_xOffset v k) = obs k;
  ignores_keyWidth :
    forall v k, obs (with_keyWidth v k) = obs k;
  ignores_midiChannel :
    forall v k, obs (with_midiChannel v k) = obs k;
  ignores_midiInChannelMask :
    forall v k, obs (with_midiInChannelMask v k) = obs k;
  ignores_velocity :
    forall v k, obs (with_velocity v k) = obs k;
  ignores_keysPressed :
    forall v k, obs (with_keysPressed v k) = obs k;
  ignores_keysCurrentlyDrawnDown :
    forall v k, obs (with_keysCurrentlyDrawnDown v k) = obs k;
  ignores_shouldCheckState :
    forall v k, obs (with_shouldCheckState v k) = obs k;
  ignores_firstKey :
    forall v k, obs (with_firstKey v k) = obs k;
  ignores_canScroll :
    forall v k, obs (with_canScroll v k) = obs k;
  ignores_useMousePositionForVelocity :
    forall v k, obs (with_useMousePositionForVelocity v k) = obs k;
  ignores_shouldCheckMousePos :
    forall v k, obs (with_shouldCheckMousePos v k) = obs k;
  ignores_scrollDownVisible :
    forall v k, obs (with_scrollDownVisible v k) = obs k;
  ignores_scrollUpVisible :
    forall v k, obs (with_scrollUpVisible v k) = obs k;
  ignores_keyMappingOctave :
    forall v k, obs (with_keyMappingOctave v k) = obs k;
  ignores_octaveNumForMiddleC :
    forall v k, obs (with_octaveNumForMiddleC v k) = obs k;
  ignores_sent :
    forall v k, obs (with_sent v k) = obs k
}.

(** The two parallel arrays of the key mapping, read as pairs. *)
Definition bindings (k : Keyboard) : list (KeyPress * Z) :=
  combine (keyPresses k) (keyPressNotes k).

(** The binding is for an offset other than [o]. *)
Definition otherOffset (o : Z) (p : KeyPress * Z) : bool := negb (snd p =? o).

(** The two arrays have one length and no offset is bound twice. *)
Definition mappingInv (k : Keyboard) : Prop :=
  length (keyPresses k) = length (keyPressNotes k)
  /\ NoDup (keyPressNotes k).

(** The default-constructed key press. *)
Definition noKeyPress : KeyPress :=
  {| keyCode := 0; mods := 0; textCharacter := 0 |}.

(** The members the mapping invariant reads. *)
Definition mappingOf (k : Keyboard) : list KeyPress * list Z :=
  (keyPresses k, keyPressNotes k).

(** Only the three binding calls change the bindings. *)
Definition bindingAction (a : Action) : bool :=
  match a with
  | DoClearKeyMappings | DoSetKeyPressForNote _ _
  | DoRemoveKeyPressForNote _ => true
  | _ => false
  end.

(** The note-on messages for the bindings [bs] whose key is down, last
    binding first. *)
Definition firedBy (isCurrentlyDown : KeyPress -> bool) (k : Keyboard)
    (bs : list (KeyPress * Z)) : list Request :=
  map (fun p => noteOn (midiChannel k) (12 * keyMappingOctave k + snd p)
                  (velocity k))
      (rev (filter (fun p => isCurrentlyDown (fst p)) bs)).

(** What keyStateLoop reads and never writes. *)
Definition keyConfigOf (k : Keyboard)
    : list KeyPress * list Z * Z * Z * Q :=
  (keyPresses k, keyPressNotes k, keyMappingOctave k, midiChannel k,
   velocity k).

(** The key [a] of the default bindings. *)
Definition keyA : KeyPress :=
  {| keyCode := 97; mods := 0; textCharacter := 0 |}.

(** The key [y] of the default bindings, bound to offset 8. *)
Definition keyY : KeyPress :=
  {| keyCode := 121; mods := 0; textCharacter := 0 |}.

(** A new widget whose key mapping starts at octave 10, the highest base
    octave setKeyPressBaseOctave accepts, with the key [y] held down: the
    note of the key is 12 * 10 + 8 = 128. *)
Definition holdKeyYInTopOctave : Keyboard :=
  snd (keyStateChanged (fun kp => KeyPress_eqb kp keyY)
         (setKeyPressBaseOctave 10 (construct (7#10) horizontalKeyboard))).

(** The identity of the pointer source an entry belongs to. *)
Definition sourceKey (x : InputIndex) : InputSourceType * Z :=
  (type x, index x).

(** The identity of a pointer source. *)
Definition sourceId (s : MouseInputSource) : InputSourceType * Z :=
  (getType s, getIndex s).

(** No source has two entries. *)
Definition uniqueSources (l : list InputIndex) : Prop :=
  NoDup (map sourceKey l).

(** Every entry carries a note, never the -1 that stands for none. *)
Definition validNotes (l : list InputIndex) : Prop :=
  Forall (fun x => 0 <= noteNumber x) l.

(** No note is carried by two entries. *)
Definition distinctNotes (l : list InputIndex) : Prop :=
  NoDup (map noteNumber l).

(** The invariant of the two tracked lists: no source has two entries,
    every entry carries a note, and no note is held down by two entries. *)
Definition trackerInv (k : Keyboard) : Prop :=
  0 <= rangeStart k
  /\ uniqueSources (mouseOverNotes k) /\ validNotes (mouseOverNotes k)
  /\ uniqueSources (mouseDownNotes k) /\ validNotes (mouseDownNotes k)
  /\ distinctNotes (mouseDownNotes k).

(** The members the tracker invariant reads. *)
Definition trackerOf (k : Keyboard) : Z * list InputIndex * list InputIndex :=
  (rangeStart k, mouseOverNotes k, mouseDownNotes k).

(** A touch, distinct from the first mouse. *)
Definition firstTouch : MouseInputSource :=
  {| getType := touch; getIndex := 1 |}.

(** A pointer event of source [s] on the lowest key. *)
Definition onLowestKey (s : MouseInputSource) : MouseEvent :=
  {| position := (5, 5)%Q; source := s; unsetVelocity := 0 |}.

(** The default widget turned to face left, 60 wide and 1300 long. *)
Definition leftFacingKeyboard : Keyboard :=
  setSize 60 1300 (construct (7#10) verticalKeyboardFacingLeft).

(** The rectangle [r] contains the point [(px, py)]. *)
Definition insideRectangle (r : Rectangle) (px py : Q) : Prop :=
  (rectX r <= px /\ px < rectX r + rectW r
   /\ rectY r <= py /\ py < rectY r + rectH r)%Q.

(** Start of key [n] in units of the key width, for a table built with
    [ratio]. *)
Definition tablePos (ratio : Q) (n : Z) : Q :=
  (inject_Z (Z.quot n 12) * 7
   + nth (Z.to_nat (Z.rem n 12)) (notePos ratio) 0)%Q.

(** The three stages of relayout on a sized widget: the snap back to the
    range start, the scroll stage, and the final state with the visibility
    of the upper button. *)
Definition relayoutSnap (w : Z) (k : Keyboard) : Keyboard :=
  if negb (truncToInt (firstKey k) =? rangeStart k) then
    if Qle_bool
         (getEnd (getKeyPos k (rangeEnd k))
          - getStart (getKeyPos k (rangeStart k)))
         (inject_Z w)
    then
      send repaint
        (send sendChangeMessage (with_firstKey (inject_Z (rangeStart k)) k))
    else k
  else k.

Definition relayoutScroll (w : Z) (k3 : Keyboard) : Keyboard :=
  if canScroll k3 then
    let lastStartKey :=
      fst (remappedXYToNote k3
             ((getEnd (getKeyPos k3 (rangeEnd k3)) - inject_Z w)%Q, 0%Q))
      + 1 in
    let k' :=
      if (0 <=? lastStartKey) && (lastStartKey <? truncToInt (firstKey k3))
      then
        send sendChangeMessage
          (with_firstKey
             (inject_Z (jlimit (rangeStart k3) (rangeEnd k3) lastStartKey))
             k3)
      else k3 in
    with_xOffset (getStart (getKeyPos k' (truncToInt (firstKey k')))) k'
  else with_firstKey (inject_Z (rangeStart k3)) k3.

Definition relayoutStages (k : Keyboard) : Keyboard :=
  let w := availableSize k in
  let k1 := relayoutSnap w k in
  let k3 :=
    with_xOffset 0%Q
      (with_scrollDownVisible
         (canScroll k1 && Qltb (inject_Z (rangeStart k1)) (firstKey k1))
         k1) in
  let k4 := relayoutScroll w k3 in
  send repaint
    (with_scrollUpVisible
       (canScroll k4
        && Qltb (inject_Z w) (getStart (getKeyPos k4 (rangeEnd k4))))
       k4).

(** A request to repaint the rectangle of one key. *)
Definition isRepaintRequest (r : Request) : Prop :=
  match r with
  | repaintKey _ => True
  | _ => False
  end.

(** The velocity updateNoteUnderMouse gives the messages of an event at
    [pos]. *)
Definition eventVelocityAt (k : Keyboard) (pos : Q * Q) (unset : Q) : Q :=
  jmaxf 0 (if useMousePositionForVelocity k
           then match snd (xyToNote k pos) with
                | Some assigned => assigned
                | None => unset
                end * velocity k
           else 1)%Q.

(** The note the press list records for source [s], or -1. *)
Definition heldBy (s : MouseInputSource) (k : Keyboard) : Z :=
  noteAt (mouseDownNotes k) (find_if (sameSource s) (mouseDownNotes k)).

(** The note the hover list records for source [s], or -1. *)
Definition hoveredBy (s : MouseInputSource) (k : Keyboard) : Z :=
  noteAt (mouseOverNotes k) (find_if (sameSource s) (mouseOverNotes k)).

(** The members the hit test and the event velocity read. *)
Definition hitTestConfigOf (k : Keyboard)
    : Z * Z * Orientation * Q * Q * Q * Q * Q * Z * Z * bool * Q :=
  (getWidth k, getHeight k, orientation k, blackNoteLengthRatio k,
   blackNoteWidthRatio k, notePosRatio k, xOffset k, keyWidth k,
   rangeStart k, rangeEnd k, useMousePositionForVelocity k, velocity k).

(** The notes whose drawn state differs from the shared note state. *)
Definition drawnStale (isNoteOnForChannels : Z -> Z -> bool) (k : Keyboard)
    (i : Z) : bool :=
  negb (Bool.eqb (Z.testbit (keysCurrentlyDrawnDown k) i)
          (isNoteOnForChannels (midiInChannelMask k) i)).

(** The body of the loop of timerCallback over the notes of the range. *)
Definition rescanNote (isNoteOnForChannels : Z -> Z -> bool)
    (acc : Keyboard) (i : Z) : Keyboard :=
  let isOn := isNoteOnForChannels (midiInChannelMask acc) i in
  if negb (Bool.eqb (Z.testbit (keysCurrentlyDrawnDown acc) i) isOn)
  then repaintNote i
         (with_keysCurrentlyDrawnDown
            (setBit (keysCurrentlyDrawnDown acc) i isOn) acc)
  else acc.

(** The members the loop reads and never writes. *)
Definition rescanConfigOf (k : Keyboard) : Z * Z * Z * bool :=
  (rangeStart k, rangeEnd k, midiInChannelMask k, shouldCheckState k).

(** The requests of the viewport: the change message and the repaint of
    the whole widget. *)
Definition viewRequest (r : Request) : Prop :=
  match r with
  | sendChangeMessage | repaint => True
  | _ => False
  end.

(** What is held, and the channel it is held on. *)
Definition heldNotesOf (k : Keyboard)
    : Z * list InputIndex * list InputIndex * Z :=
  (keysPressed k, mouseDownNotes k, mouseOverNotes k, midiChannel k).

(** [k'] is reached from [k] by requests of the viewport only, with the
    held notes untouched. *)
Definition quietly (k k' : Keyboard) : Prop :=
  (exists extra, sent k' = sent k ++ extra /\ Forall viewRequest extra)
  /\ heldNotesOf k' = heldNotesOf k.

(** The calls that configure the widget: its geometry, its viewport, its
    drawing, the velocity and the bindings; the wheel scrolls the
    viewport. *)
Definition configurationAction (a : Action) : bool :=
  match a with
  | DoSetSize _ _ | DoSetKeyWidth _ | DoSetOrientation _
  | DoSetAvailableRange _ _ | DoSetLowestVisibleKey _
  | DoSetLowestVisibleKeyFloat _ | DoClicked _
  | DoSetScrollButtonsVisible _ | DoColourChanged
  | DoSetMidiChannelsToDisplay _ | DoSetVelocity _ _
  | DoSetOctaveForMiddleC _ | DoSetBlackNoteLengthProportion _
  | DoSetBlackNoteWidthProportion _ | DoSetKeyPressBaseOctave _
  | DoMouseWheelMove _ _ | DoSetKeyPressForNote _ _
  | DoRemoveKeyPressForNote _ => true
  | _ => false
  end.

(** The note a call draws. *)
Definition drawnNote (c : DrawCall) : Z :=
  match c with
  | drawWhiteNote n _ _ _ | drawBlackNote n _ _ _ => n
  end.

(** The call draws a black key. *)
Definition drawsBlack (c : DrawCall) : bool :=
  match c with
  | drawWhiteNote _ _ _ _ => false
  | drawBlackNote _ _ _ _ => true
  end.

(** The notes one pass visits before the test against the range. *)
Definition visited (notes : list Z) : list Z :=
  flat_map (fun octave => map (fun n => octave + n) notes) paintOctaves.

Fixpoint nodupb (l : list Z) : bool :=
  match l with
  | [] => true
  | x :: rest => negb (existsb (Z.eqb x) rest) && nodupb rest
  end.

(** The facts about the two passes that the theorem rests on, decided by
    evaluation: a pass visits no note twice, and of the notes 0..131 the
    white pass visits exactly those that are not black, the black pass
    exactly the black ones; no other note is visited. *)
Definition paintCheck : bool :=
  nodupb (visited whiteNotes) && nodupb (visited blackNotes)
  && forallb (fun n => (0 <=? n) && (n <? 132))
       (visited whiteNotes ++ visited blackNotes)
  && forallb (fun n => Bool.eqb (existsb (Z.eqb n) (visited whiteNotes))
                         (negb (isMidiNoteBlack n)))
       (map Z.of_nat (seq 0 132))
  && forallb (fun n => Bool.eqb (existsb (Z.eqb n) (visited blackNotes))
                         (isMidiNoteBlack n))
       (map Z.of_nat (seq 0 132)).

(** The test [kx2 - kx1 <= w] of relayout. *)
Definition spanFits (w : Z) (k : Keyboard) : bool :=
  Qle_bool
    (getEnd (getKeyPos k (rangeEnd k)) - getStart (getKeyPos k (rangeStart k)))
    (inject_Z w).

(** The local [lastStartKey] of relayout. *)
Definition lastStartKey (w : Z) (k : Keyboard) : Z :=
  fst (remappedXYToNote k
         ((getEnd (getKeyPos k (rangeEnd k)) - inject_Z w)%Q, 0%Q)) + 1.

(** The lowest visible note relayout arrives at, from the note [f] it
    finds, for a widget of extent [w]. *)
Definition relayoutKey (w : Z) (k : Keyboard) (f : Q) : Q :=
  let snapped :=
    if negb (truncToInt f =? rangeStart k) && spanFits w k
    then inject_Z (rangeStart k) else f in
  if canScroll k then
    let l := lastStartKey w (with_xOffset 0 k) in
    if (0 <=? l) && (l <? truncToInt snapped)
    then inject_Z (jlimit (rangeStart k) (rangeEnd k) l)
    else snapped
  else inject_Z (rangeStart k).

(** The white key that follows the white key [n]. *)
Definition nextWhiteNote (n : Z) : Z :=
  if isMidiNoteBlack (n + 1) then n + 2 else n + 1.

(** The note of the first entry of source [s], or -1. *)
Fixpoint lookupNote (s : MouseInputSource) (l : list InputIndex) : Z :=
  match l with
  | [] => -1
  | x :: rest => if sameSource s x then noteNumber x else lookupNote s rest
  end.

(** * Properties *)

(** ** Basic facts about the helpers *)

(** Reduction of member reads over member updates. *)
Ltac fields :=
  cbn [getWidth getHeight orientation blackNoteLengthRatio
       blackNoteWidthRatio notePosRatio xOffset keyWidth midiChannel
       midiInChannelMask velocity mouseOverNotes mouseDownNotes keysPressed
       keysCurrentlyDrawnDown shouldCheckState rangeStart rangeEnd firstKey
       canScroll useMousePositionForVelocity shouldCheckMousePos
       scrollDownVisible scrollUpVisible keyPresses keyPressNotes
       keyMappingOctave octaveNumForMiddleC sent with_getWidth
       with_getHeight with_orientation with_blackNoteLengthRatio
       with_blackNoteWidthRatio with_xOffset with_keyWidth with_midiChannel
       with_midiInChannelMask with_velocity with_mouseOverNotes
       with_mouseDownNotes with_keysPressed with_keysCurrentlyDrawnDown
       with_shouldCheckState with_rangeStart with_rangeEnd with_firstKey
       with_canScroll with_useMousePositionForVelocity
       with_shouldCheckMousePos with_scrollDownVisible with_scrollUpVisible
       with_keyPresses with_keyPressNotes with_keyMappingOctave
       with_octaveNumForMiddleC with_sent send handleNoteOn
       handleNoteOff].

Ltac fields_in H :=
  cbn [getWidth getHeight orientation blackNoteLengthRatio
       blackNoteWidthRatio notePosRatio xOffset keyWidth midiChannel
       midiInChannelMask velocity mouseOverNotes mouseDownNotes keysPressed
       keysCurrentlyDrawnDown shouldCheckState rangeStart rangeEnd firstKey
       canScroll useMousePositionForVelocity shouldCheckMousePos
       scrollDownVisible scrollUpVisible keyPresses keyPressNotes
       keyMappingOctave octaveNumForMiddleC sent with_getWidth
       with_getHeight with_orientation with_blackNoteLengthRatio
       with_blackNoteWidthRatio with_xOffset with_keyWidth with_midiChannel
       with_midiInChannelMask with_velocity with_mouseOverNotes
       with_mouseDownNotes with_keysPressed with_keysCurrentlyDrawnDown
       with_shouldCheckState with_rangeStart with_rangeEnd with_firstKey
       with_canScroll with_useMousePositionForVelocity
       with_shouldCheckMousePos with_scrollDownVisible with_scrollUpVisible
       with_keyPresses with_keyPressNotes with_keyMappingOctave
       with_octaveNumForMiddleC with_sent send handleNoteOn
       handleNoteOff] in H.

(** Case analysis on every test the goal branches on. *)
Ltac branches :=
  repeat match goal with
         | |- context [if ?c then _ else _] => destruct c eqn:?
         | |- context [match ?o with horizontalKeyboard => _ | _ => _ end] =>
             destruct o eqn:?
         end.

Lemma Qltb_lt (x y : Q) : Qltb x y = true <-> (x < y)%Q.
Proof.
  unfold Qltb. rewrite negb_true_iff.
  split; intro H.
  - apply Qnot_le_lt. intro L. apply Qle_bool_iff in L. congruence.
  - destruct (Qle_bool y x) eqn:E; [|reflexivity].
    apply Qle_bool_iff in E. exfalso. apply (Qlt_not_le _ _ H E).
Qed.

Lemma Qltb_ge (x y : Q) : Qltb x y = false <-> (y <= x)%Q.
Proof.
  unfold Qltb. rewrite negb_false_iff. apply Qle_bool_iff.
Qed.

Lemma Orientation_eqb_eq a b : Orientation_eqb a b = true <-> a = b.
Proof. destruct a, b; simpl; split; intro H; congruence. Qed.

Lemma InputSourceType_eqb_eq a b : InputSourceType_eqb a b = true <-> a = b.
Proof. destruct a, b; simpl; split; intro H; congruence. Qed.

Lemma KeyPress_eqb_eq a b : KeyPress_eqb a b = true <-> a = b.
Proof.
  unfold KeyPress_eqb. destruct a as [a1 a2 a3], b as [b1 b2 b3]; simpl.
  rewrite !andb_true_iff, !Z.eqb_eq. split.
  - intros [[-> ->] ->]. reflexivity.
  - intro H. inversion H. auto.
Qed.

Lemma jmaxf_upper (a b : Q) : (a <= b)%Q -> (jmaxf a b == b)%Q.
Proof.
  intro H. unfold jmaxf. destruct (Qltb a b) eqn:E.
  - reflexivity.
  - apply Qltb_ge in E. lra.
Qed.

Lemma jmaxf_lower (a b : Q) : (b <= a)%Q -> jmaxf a b = a.
Proof.
  intro H. unfold jmaxf. destruct (Qltb a b) eqn:E; [|reflexivity].
  apply Qltb_lt in E. lra.
Qed.

Lemma jlimit_bounds (lo hi v : Z) : lo <= hi -> lo <= jlimit lo hi v <= hi.
Proof.
  intro H. unfold jlimit.
  destruct (v <? lo) eqn:E1; [lia|].
  destruct (hi <? v) eqn:E2; lia.
Qed.

Lemma jlimit_inside (lo hi v : Z) : lo <= v <= hi -> jlimit lo hi v = v.
Proof.
  intro H. unfold jlimit.
  destruct (v <? lo) eqn:E1; [lia|].
  destruct (hi <? v) eqn:E2; lia.
Qed.

Lemma jlimitf_bounds (lo hi v : Q) :
  (lo <= hi)%Q -> (lo <= jlimitf lo hi v <= hi)%Q.
Proof.
  intro H. unfold jlimitf.
  destruct (Qltb v lo) eqn:E1; [lra|].
  destruct (Qltb hi v) eqn:E2; [lra|].
  apply Qltb_ge in E1, E2. lra.
Qed.

Lemma jlimitf_inside (lo hi v : Q) :
  (lo <= v <= hi)%Q -> jlimitf lo hi v = v.
Proof.
  intro H. unfold jlimitf.
  destruct (Qltb v lo) eqn:E1; [apply Qltb_lt in E1; lra|].
  destruct (Qltb hi v) eqn:E2; [apply Qltb_lt in E2; lra|].
  reflexivity.
Qed.

Lemma inject_Z_le (a b : Z) : a <= b -> (inject_Z a <= inject_Z b)%Q.
Proof. intro H. rewrite <- Zle_Qle. exact H. Qed.

(** ** Geometry: the span of a key *)

Lemma rem12_cases (n : Z) :
  0 <= n ->
  let r := Z.rem n 12 in
  r = 0 \/ r = 1 \/ r = 2 \/ r = 3 \/ r = 4 \/ r = 5 \/ r = 6 \/ r = 7
  \/ r = 8 \/ r = 9 \/ r = 10 \/ r = 11.
Proof.
  intros H r. assert (0 <= r < 12) by (apply Z.rem_bound_pos; lia). lia.
Qed.

Lemma isMidiNoteBlack_rem (n : Z) :
  isMidiNoteBlack (Z.rem n 12) = isMidiNoteBlack n.
Proof.
  unfold isMidiNoteBlack. rewrite Z.rem_rem by lia. reflexivity.
Qed.

Lemma getKeyPosition_start (k : Keyboard) (n : Z) (u : Q) :
  getStart (getKeyPosition k n u)
  = (inject_Z (Z.quot n 12) * 7 * u
     + nth (Z.to_nat (Z.rem n 12)) (notePos (notePosRatio k)) 0 * u)%Q.
Proof. reflexivity. Qed.

Lemma getKeyPosition_white_length (k : Keyboard) (n : Z) (u : Q) :
  (0 <= u)%Q -> isMidiNoteBlack n = false ->
  (getLength (getKeyPosition k n u) == u)%Q.
Proof.
  intros Hu Hw. unfold getLength, getKeyPosition, mkRange; simpl.
  rewrite isMidiNoteBlack_rem, Hw.
  rewrite jmaxf_upper by lra. ring.
Qed.

Lemma getKeyPosition_black_length (k : Keyboard) (n : Z) (u : Q) :
  (0 <= u)%Q -> (0 <= blackNoteWidthRatio k)%Q -> isMidiNoteBlack n = true ->
  (getLength (getKeyPosition k n u) == u * blackNoteWidthRatio k)%Q.
Proof.
  intros Hu Hr Hb. unfold getLength, getKeyPosition, mkRange; simpl.
  rewrite isMidiNoteBlack_rem, Hb.
  assert (0 <= blackNoteWidthRatio k * u)%Q by (apply Qmult_le_0_compat; lra).
  rewrite jmaxf_upper by lra. ring.
Qed.

Lemma getKeyPosition_white_start (k : Keyboard) (n : Z) (u : Q) :
  0 <= n -> isMidiNoteBlack n = false ->
  exists p : Z,
    0 <= p <= 6
    /\ (getStart (getKeyPosition k n u)
        == inject_Z (Z.quot n 12) * 7 * u + inject_Z p * u)%Q.
Proof.
  intros Hn Hw. rewrite getKeyPosition_start.
  rewrite <- isMidiNoteBlack_rem in Hw.
  destruct (rem12_cases n Hn) as
    [E|[E|[E|[E|[E|[E|[E|[E|[E|[E|[E|E]]]]]]]]]]];
    rewrite E in *; try discriminate Hw; simpl nth.
  - exists 0. split; [lia|]. reflexivity.
  - exists 1. split; [lia|]. reflexivity.
  - exists 2. split; [lia|]. reflexivity.
  - exists 3. split; [lia|]. reflexivity.
  - exists 4. split; [lia|]. reflexivity.
  - exists 5. split; [lia|]. reflexivity.
  - exists 6. split; [lia|]. reflexivity.
Qed.

Lemma mkRange_ordered (s e : Q) : ordered (mkRange s e).
Proof.
  unfold ordered, mkRange, jmaxf; simpl.
  destruct (Qltb s e) eqn:E; [apply Qltb_lt in E|]; lra.
Qed.

Lemma getKeyPosition_ordered k n u : ordered (getKeyPosition k n u).
Proof. apply mkRange_ordered. Qed.

Lemma shiftDown_end (r : Range) (a : Q) :
  ordered r -> (getEnd (shiftDown r a) == getEnd r - a)%Q.
Proof.
  unfold ordered, shiftDown, mkRange; simpl. intro H.
  apply jmaxf_upper. lra.
Qed.

Lemma getKeyPos_start (k : Keyboard) (n : Z) :
  getStart (getKeyPos k n)
  = (getStart (getKeyPosition k n (keyWidth k)) - xOffset k
     - getStart (getKeyPosition k (rangeStart k) (keyWidth k)))%Q.
Proof. reflexivity. Qed.

Lemma getKeyPos_end (k : Keyboard) (n : Z) :
  (getEnd (getKeyPos k n)
   == getEnd (getKeyPosition k n (keyWidth k)) - xOffset k
      - getStart (getKeyPosition k (rangeStart k) (keyWidth k)))%Q.
Proof.
  unfold getKeyPos.
  rewrite shiftDown_end by apply mkRange_ordered.
  rewrite shiftDown_end by apply getKeyPosition_ordered.
  reflexivity.
Qed.

Lemma getKeyPos_length (k : Keyboard) (n : Z) :
  (getLength (getKeyPos k n)
   == getLength (getKeyPosition k n (keyWidth k)))%Q.
Proof.
  unfold getLength. rewrite getKeyPos_end, getKeyPos_start. ring.
Qed.


(** ** Geometry: hit-testing the centre of a key *)

Lemma allNotes_In (m : Z) : 0 <= m <= 127 -> In m allNotes.
Proof.
  intro H. unfold allNotes. apply in_map_iff.
  exists (Z.to_nat m). split; [lia|]. apply in_seq. lia.
Qed.

Lemma bool_eq_of_iff (a b : bool) : (a = true <-> b = true) -> a = b.
Proof. destruct a, b; intros [H1 H2]; auto; symmetry; auto. Qed.

Lemma scaled_contains (r : Range) (x a b c u off : Q) :
  (0 < u)%Q ->
  (getStart r == a * u - off)%Q -> (getEnd r == b * u - off)%Q ->
  (x == c * u - off)%Q ->
  contains r x = Qle_bool a c && Qltb c b.
Proof.
  intros Hu Hs He Hx. unfold contains. f_equal.
  - apply bool_eq_of_iff. rewrite !Qle_bool_iff, Hs, Hx.
    rewrite <- (Qmult_le_r a c u Hu). split; intro; lra.
  - apply bool_eq_of_iff. rewrite !Qltb_lt, He, Hx.
    rewrite <- (Qmult_lt_r c b u Hu). split; intro; lra.
Qed.

Section DefaultRatios.

Variable k : Keyboard.
Hypothesis Hratio : (blackNoteWidthRatio k == 7#10)%Q.
Hypothesis Htable : (notePosRatio k == 7#10)%Q.
Hypothesis Hkw : (0 < keyWidth k)%Q.

Lemma notePos_default (m : Z) :
  0 <= m ->
  (nth (Z.to_nat (Z.rem m 12)) (notePos (notePosRatio k)) 0
   == nth (Z.to_nat (Z.rem m 12)) (notePos (7#10)) 0)%Q.
Proof.
  intro Hm.
  destruct (rem12_cases m Hm) as
    [E|[E|[E|[E|[E|[E|[E|[E|[E|[E|[E|E]]]]]]]]]]];
    rewrite E; simpl nth; try reflexivity; rewrite Htable; reflexivity.
Qed.

Lemma getKeyPosition_unit_start (m : Z) :
  0 <= m ->
  (getStart (getKeyPosition k m (keyWidth k)) == unitPos m * keyWidth k)%Q.
Proof.
  intro Hm. rewrite getKeyPosition_start, (notePos_default m Hm).
  unfold unitPos. ring.
Qed.

Lemma getKeyPosition_unit_end (m : Z) :
  0 <= m ->
  (getEnd (getKeyPosition k m (keyWidth k))
   == (unitPos m + unitWidth m) * keyWidth k)%Q.
Proof.
  intro Hm.
  assert (L : (getLength (getKeyPosition k m (keyWidth k))
               == unitWidth m * keyWidth k)%Q).
  { unfold unitWidth. rewrite isMidiNoteBlack_rem.
    destruct (isMidiNoteBlack m) eqn:B.
    - rewrite getKeyPosition_black_length;
        [rewrite Hratio; ring | lra | lra | exact B].
    - rewrite getKeyPosition_white_length; [ring | lra | exact B]. }
  unfold getLength in L.
  pose proof (getKeyPosition_unit_start m Hm) as S. lra.
Qed.

(** In widget coordinates the span of [m] contains the centre of the span
    of [n] exactly when it does so in key-width units. *)
Lemma contains_centre (m n : Z) (x : Q) :
  0 <= m -> 0 <= n -> 0 <= rangeStart k ->
  (x == centre (getKeyPos k n))%Q ->
  contains (getKeyPos k m) x = hit m n.
Proof.
  intros Hm Hn Hrs Hx. unfold hit.
  apply scaled_contains with
    (u := keyWidth k)
    (off := (xOffset k
             + getStart (getKeyPosition k (rangeStart k) (keyWidth k)))%Q).
  - exact Hkw.
  - rewrite getKeyPos_start, (getKeyPosition_unit_start m Hm). ring.
  - rewrite getKeyPos_end, (getKeyPosition_unit_end m Hm). ring.
  - rewrite Hx. unfold centre.
    rewrite getKeyPos_start, getKeyPos_end.
    rewrite (getKeyPosition_unit_start n Hn), (getKeyPosition_unit_end n Hn).
    unfold unitCentre. field.
Qed.

End DefaultRatios.

Lemma centreCheck_all :
  forallb (fun n => forallb (fun m => centreCheck m n) allNotes) allNotes
  = true.
Proof. vm_compute. reflexivity. Qed.

Lemma centreCheck_holds (m n : Z) :
  0 <= m <= 127 -> 0 <= n <= 127 -> centreCheck m n = true.
Proof.
  intros Hm Hn. pose proof centreCheck_all as H.
  rewrite forallb_forall in H. specialize (H n (allNotes_In n Hn)).
  rewrite forallb_forall in H. exact (H m (allNotes_In m Hm)).
Qed.

Lemma hit_self (n : Z) : 0 <= n <= 127 -> hit n n = true.
Proof.
  intro Hn. pose proof (centreCheck_holds n n Hn Hn) as H.
  unfold centreCheck in H. rewrite !andb_true_iff in H. tauto.
Qed.

Lemma hit_same_colour (notes : list Z) (m n : Z) :
  notes = blackNotes \/ notes = whiteNotes ->
  0 <= m <= 127 -> 0 <= n <= 127 ->
  inOctaveList notes m = true -> inOctaveList notes n = true ->
  hit m n = true -> m = n.
Proof.
  intros Hc Hm Hn Im In_ Hh. pose proof (centreCheck_holds m n Hm Hn) as H.
  unfold centreCheck in H. rewrite !andb_true_iff in H.
  destruct H as [[[[[_ Hb] Hw] _] _] _].
  destruct Hc as [-> | ->].
  - rewrite Hh, Im, In_ in Hb. simpl in Hb. lia.
  - rewrite Hh, Im, In_ in Hw. simpl in Hw. lia.
Qed.

Lemma hit_black_on_white (m n : Z) :
  0 <= m <= 127 -> 0 <= n <= 127 ->
  inOctaveList blackNotes m = true -> inOctaveList whiteNotes n = true ->
  hit m n = false.
Proof.
  intros Hm Hn Im In_. pose proof (centreCheck_holds m n Hm Hn) as H.
  unfold centreCheck in H. rewrite !andb_true_iff in H.
  destruct H as [[[[_ _] Hx] _] _].
  rewrite Im, In_ in Hx. simpl in Hx. apply negb_true_iff in Hx. exact Hx.
Qed.

Lemma colour_list (n : Z) :
  0 <= n <= 127 ->
  inOctaveList (if isMidiNoteBlack n then blackNotes else whiteNotes) n
  = true.
Proof.
  intro Hn. pose proof (centreCheck_holds n n Hn Hn) as H.
  unfold centreCheck in H. rewrite !andb_true_iff in H.
  destruct H as [[_ Hb] Hw].
  apply eqb_prop in Hb, Hw.
  destruct (isMidiNoteBlack n); simpl in *; congruence.
Qed.

(** ** The scan of remappedXYToNote *)

Lemma scanOctave_Some k x os notes m :
  scanOctave k x os notes = Some m ->
  (exists j, In j notes /\ m = os + j)
  /\ rangeStart k <= m <= rangeEnd k
  /\ contains (getKeyPos k m) x = true.
Proof.
  induction notes as [|j rest IH]; simpl; [discriminate|].
  destruct ((rangeStart k <=? os + j) && (os + j <=? rangeEnd k)
            && contains (getKeyPos k (os + j)) x) eqn:E.
  - intro H. inversion H; subst m.
    rewrite !andb_true_iff in E. destruct E as [[E1 E2] E3].
    split; [exists j; auto | split; [lia | exact E3]].
  - intro H. destruct (IH H) as [[j' [Hin Hm]] R].
    split; [exists j'; auto | exact R].
Qed.

Lemma scanOctave_None k x os notes j :
  scanOctave k x os notes = None -> In j notes ->
  rangeStart k <= os + j <= rangeEnd k ->
  contains (getKeyPos k (os + j)) x = false.
Proof.
  induction notes as [|j0 rest IH]; simpl; [tauto|].
  destruct ((rangeStart k <=? os + j0) && (os + j0 <=? rangeEnd k)
            && contains (getKeyPos k (os + j0)) x) eqn:E; [discriminate|].
  intros H [-> | Hin] Hr; [|auto].
  destruct (contains (getKeyPos k (os + j)) x); [|reflexivity].
  rewrite andb_true_r in E. rewrite andb_false_iff in E. lia.
Qed.

Lemma scanOctaves_Some fuel k x notes : forall os m,
  scanOctaves fuel k x notes os = Some m ->
  (exists (i : nat) (j : Z), In j notes /\ m = os + 12 * Z.of_nat i + j)
  /\ rangeStart k <= m <= rangeEnd k
  /\ contains (getKeyPos k m) x = true.
Proof.
  induction fuel as [|fuel IH]; cbn [scanOctaves]; intros os m;
    [discriminate|].
  destruct (os <=? rangeEnd k); [|discriminate].
  destruct (scanOctave k x os notes) as [m'|] eqn:E.
  - intro H. inversion H; subst m'.
    destruct (scanOctave_Some _ _ _ _ _ E) as [[j [Hin Hm]] R].
    split; [exists O, j; split; [exact Hin | lia] | exact R].
  - intro H. destruct (IH _ _ H) as [[i [j [Hin Hm]]] R].
    split; [exists (S i), j; split; [exact Hin | lia] | exact R].
Qed.

Lemma scanOctaves_None fuel k x notes : forall os (i : nat) j,
  scanOctaves fuel k x notes os = None ->
  (i < fuel)%nat -> In j notes ->
  os + 12 * Z.of_nat i <= rangeEnd k ->
  rangeStart k <= os + 12 * Z.of_nat i + j <= rangeEnd k ->
  contains (getKeyPos k (os + 12 * Z.of_nat i + j)) x = false.
Proof.
  induction fuel as [|fuel IH]; cbn [scanOctaves];
    intros os i j H Hi Hin Hos Hr; [lia|].
  destruct (os <=? rangeEnd k) eqn:E; [|lia].
  destruct (scanOctave k x os notes) as [m'|] eqn:E'; [discriminate|].
  destruct i as [|i].
  - replace (os + 12 * Z.of_nat 0) with os in * by lia.
    eapply scanOctave_None; eauto.
  - replace (os + 12 * Z.of_nat (S i) + j)
      with (os + 12 + 12 * Z.of_nat i + j) in * by lia.
    apply IH; auto; lia.
Qed.

Lemma rem_octave (a j : Z) : 0 <= a -> 0 <= j < 12 -> Z.rem (12 * a + j) 12 = j.
Proof.
  intros Ha Hj. symmetry. apply (Z.rem_unique _ _ a); lia.
Qed.

(** Division of a non-negative note number by 12, as linear facts. *)
Ltac octave_facts n :=
  let Hq := fresh "Hq" in
  let Hr := fresh "Hr" in
  pose proof (Z.quot_rem' n 12) as Hq;
  pose proof (Z.rem_bound_pos n 12) as Hr.

Lemma octaveFuel_enough (k : Keyboard) (n : Z) :
  0 <= rangeStart k <= n -> n <= rangeEnd k ->
  (Z.to_nat (Z.quot n 12 - Z.quot (rangeStart k) 12) < octaveFuel k)%nat.
Proof.
  intros H1 H2. unfold octaveFuel.
  octave_facts n. octave_facts (rangeStart k).
  octave_facts (rangeEnd k - 12 * Z.quot (rangeStart k) 12).
  lia.
Qed.

Lemma octave_members (notes : list Z) (j : Z) :
  notes = blackNotes \/ notes = whiteNotes -> In j notes -> 0 <= j < 12.
Proof.
  intros [-> | ->]; simpl; intuition lia.
Qed.

Lemma inOctaveList_In (notes : list Z) (n : Z) :
  inOctaveList notes n = true <-> In (Z.rem n 12) notes.
Proof.
  unfold inOctaveList. rewrite existsb_exists. split.
  - intros [j [Hin He]]. apply Z.eqb_eq in He. congruence.
  - intro H. exists (Z.rem n 12). split; [exact H | apply Z.eqb_refl].
Qed.

Section RoundTrip.

Variable k : Keyboard.
Hypothesis Hratio : (blackNoteWidthRatio k == 7#10)%Q.
Hypothesis Htable : (notePosRatio k == 7#10)%Q.
Hypothesis Hkw : (0 < keyWidth k)%Q.
Hypothesis Hlow : 0 <= rangeStart k.
Hypothesis Hhigh : rangeEnd k <= 127.

Variable n : Z.
Hypothesis Hn : rangeStart k <= n <= rangeEnd k.

Variable x : Q.
Hypothesis Hx : (x == centre (getKeyPos k n))%Q.

Lemma scanKeys_Some_centre (notes : list Z) (m : Z) :
  notes = blackNotes \/ notes = whiteNotes ->
  scanKeys k x notes = Some m ->
  inOctaveList notes m = true /\ 0 <= m <= 127 /\ hit m n = true.
Proof.
  intros Hc H. unfold scanKeys in H.
  apply scanOctaves_Some in H.
  destruct H as [[i [j [Hin Hm]]] [Hr Hcont]].
  pose proof (octave_members notes j Hc Hin) as Hj.
  octave_facts (rangeStart k).
  split; [|split; [lia|]].
  - apply inOctaveList_In.
    replace m with (12 * (Z.quot (rangeStart k) 12 + Z.of_nat i) + j)
      by lia.
    rewrite rem_octave by lia. exact Hin.
  - rewrite <- Hcont. symmetry.
    apply contains_centre; auto; lia.
Qed.

Lemma scanKeys_finds_own_colour (notes : list Z) :
  notes = blackNotes \/ notes = whiteNotes ->
  inOctaveList notes n = true ->
  scanKeys k x notes = Some n.
Proof.
  intros Hc Hin.
  destruct (scanKeys k x notes) as [m|] eqn:E.
  - destruct (scanKeys_Some_centre notes m Hc E) as [Hm [Hb Hh]].
    f_equal. apply (hit_same_colour notes); auto; lia.
  - exfalso. unfold scanKeys in E.
    apply inOctaveList_In in Hin.
    pose proof (octaveFuel_enough k n ltac:(lia) ltac:(lia)) as Hf.
    octave_facts n. octave_facts (rangeStart k).
    pose proof
      (scanOctaves_None _ _ _ _ _
         (Z.to_nat (Z.quot n 12 - Z.quot (rangeStart k) 12))
         (Z.rem n 12) E Hf Hin) as N.
    replace (12 * Z.quot (rangeStart k) 12
             + 12 * Z.of_nat
                      (Z.to_nat (Z.quot n 12 - Z.quot (rangeStart k) 12))
             + Z.rem n 12) with n in N by lia.
    rewrite (contains_centre k Hratio Htable Hkw n n x) in N
      by (auto; lia).
    rewrite hit_self in N by lia.
    assert (true = false) by (apply N; lia). discriminate.
Qed.

Lemma scanKeys_black_misses_white :
  isMidiNoteBlack n = false -> scanKeys k x blackNotes = None.
Proof.
  intro Hw.
  destruct (scanKeys k x blackNotes) as [m|] eqn:E; [|reflexivity].
  destruct (scanKeys_Some_centre blackNotes m (or_introl eq_refl) E)
    as [Hm [Hb Hh]].
  pose proof (colour_list n ltac:(lia)) as Hc. rewrite Hw in Hc.
  rewrite (hit_black_on_white m n) in Hh by (auto; lia).
  discriminate.
Qed.

End RoundTrip.


(** Closed numeric side conditions, settled by evaluation. *)
Ltac by_evaluation :=
  vm_compute;
  repeat match goal with |- _ /\ _ => split end;
  first [ reflexivity | discriminate | (intro; discriminate) ].



(** ** Viewport: what relayout keeps and what it may change *)

(** Members that only the range setter writes. *)
Lemma resized_range (k : Keyboard) :
  rangeStart (resized k) = rangeStart k /\ rangeEnd (resized k) = rangeEnd k.
Proof. unfold resized. branches; fields; auto. Qed.

Lemma resized_firstKey (k : Keyboard) :
  firstKey (resized k) = firstKey k
  \/ firstKey (resized k) = inject_Z (rangeStart k)
  \/ exists v, firstKey (resized k)
               = inject_Z (jlimit (rangeStart k) (rangeEnd k) v).
Proof.
  unfold resized. branches; fields; auto; right; right; eexists; reflexivity.
Qed.

Lemma inject_Z_between (lo hi v : Z) :
  lo <= v <= hi -> (inject_Z lo <= inject_Z v <= inject_Z hi)%Q.
Proof. intros [H1 H2]. split; apply inject_Z_le; assumption. Qed.

Lemma resized_firstKeyInRange (k : Keyboard) :
  firstKeyInRange k -> firstKeyInRange (resized k).
Proof.
  intros [Hr Hf]. unfold firstKeyInRange.
  destruct (resized_range k) as [-> ->]. split; [exact Hr|].
  destruct (resized_firstKey k) as [-> | [-> | [v ->]]].
  - exact Hf.
  - apply inject_Z_between. lia.
  - apply inject_Z_between. apply jlimit_bounds. exact Hr.
Qed.

(** ** Frame lemmas: which members an operation leaves alone *)

Lemma fold_left_frame {A B C : Type} (f : A -> B -> A) (g : A -> C) :
  (forall a b, g (f a b) = g a) ->
  forall l a, g (fold_left f l a) = g a.
Proof.
  intros H l. induction l as [|b l IH]; intro a; simpl; [reflexivity|].
  rewrite IH. apply H.
Qed.

(** An observation [obs] of the widget that does not read the two tracked
    lists, the pressed-key bits, the request log or the flag the note
    callbacks raise is not affected by the pointer tracker. *)
Section TrackerFrame.

Context {C : Type} (obs : Keyboard -> C).
Hypothesis obs_sent : forall l k, obs (with_sent l k) = obs k.
Hypothesis obs_check : forall b k, obs (with_shouldCheckState b k) = obs k.
Hypothesis obs_over : forall l k, obs (with_mouseOverNotes l k) = obs k.
Hypothesis obs_down : forall l k, obs (with_mouseDownNotes l k) = obs k.
Hypothesis obs_keys : forall b k, obs (with_keysPressed b k) = obs k.

Lemma obs_send r k : obs (send r k) = obs k.
Proof.
  unfold send, handleNoteOn, handleNoteOff. cbv zeta.
  destruct r; rewrite ?obs_check; apply obs_sent.
Qed.

Lemma repaintNote_frame n k : obs (repaintNote n k) = obs k.
Proof.
  unfold repaintNote, send. cbv zeta iota.
  branches; [apply obs_sent | reflexivity].
Qed.

Lemma releaseHeld_frame it n v k : obs (releaseHeld it n v k) = obs k.
Proof.
  unfold releaseHeld. branches; rewrite ?obs_send; apply obs_down.
Qed.

Lemma updateHover_frame it o n s k : obs (updateHover it o n s k) = obs k.
Proof.
  unfold updateHover.
  destruct (negb (o =? n)); [|reflexivity].
  destruct (n =? -1); [|destruct (o =? -1); [|destruct it]];
    rewrite ?obs_over, !repaintNote_frame; reflexivity.
Qed.

Lemma updatePress_frame it o n v d s k :
  obs (updatePress it o n v d s k) = obs k.
Proof.
  unfold updatePress.
  destruct d.
  - destruct (n =? o); [reflexivity|].
    match goal with
    | |- context [if ?c then _ else _] => destruct c
    end;
      rewrite ?obs_down, ?obs_send; destruct (0 <=? o);
      rewrite ?releaseHeld_frame; reflexivity.
  - destruct (o <? 0); [reflexivity | apply releaseHeld_frame].
Qed.

Lemma updateNoteUnderMouse_frame pos d s u k :
  obs (updateNoteUnderMouse pos d s u k) = obs k.
Proof.
  unfold updateNoteUnderMouse.
  rewrite updatePress_frame. apply updateHover_frame.
Qed.

Lemma releaseBits_frame bits l k : obs (releaseBits bits l k) = obs k.
Proof.
  unfold releaseBits. apply fold_left_frame.
  intros a b. branches; [apply obs_send | reflexivity].
Qed.

Lemma releaseEntries_frame l k : obs (releaseEntries l k) = obs k.
Proof.
  unfold releaseEntries. apply fold_left_frame.
  intros a b. apply obs_send.
Qed.

Lemma resetAnyKeysInUse_frame k : obs (resetAnyKeysInUse k) = obs k.
Proof.
  unfold resetAnyKeysInUse. cbv zeta.
  rewrite obs_over, obs_down, releaseEntries_frame.
  destruct (negb (keysPressed k =? 0)); [|reflexivity].
  rewrite obs_keys. apply releaseBits_frame.
Qed.

End TrackerFrame.

Lemma updateNoteUnderMouse_viewport pos d s u k :
  viewportOf (updateNoteUnderMouse pos d s u k) = viewportOf k.
Proof. apply updateNoteUnderMouse_frame; reflexivity. Qed.

Lemma resetAnyKeysInUse_viewport k :
  viewportOf (resetAnyKeysInUse k) = viewportOf k.
Proof. apply resetAnyKeysInUse_frame; reflexivity. Qed.

(** An observation that does not read what relayout writes is not affected
    by it. *)
Section RelayoutFrame.

Context {C : Type} (obs : Keyboard -> C).
Hypothesis obs_sent : forall l k, obs (with_sent l k) = obs k.
Hypothesis obs_firstKey : forall v k, obs (with_firstKey v k) = obs k.
Hypothesis obs_xOffset : forall v k, obs (with_xOffset v k) = obs k.
Hypothesis obs_scrollDown :
  forall v k, obs (with_scrollDownVisible v k) = obs k.
Hypothesis obs_scrollUp :
  forall v k, obs (with_scrollUpVisible v k) = obs k.

Lemma resized_frame k : obs (resized k) = obs k.
Proof.
  unfold resized, send.
  branches;
    rewrite ?obs_sent, ?obs_scrollUp, ?obs_xOffset, ?obs_sent,
      ?obs_firstKey, ?obs_xOffset, ?obs_scrollDown, ?obs_sent,
      ?obs_sent, ?obs_firstKey;
    reflexivity.
Qed.

End RelayoutFrame.

(** An observation that does not read the bindings, the pressed-key bits,
    the request log or the flag the note callbacks raise is not affected by
    the key mapping. *)
Section KeyMappingFrame.

Context {C : Type} (obs : Keyboard -> C).
Hypothesis obs_sent : forall l k, obs (with_sent l k) = obs k.
Hypothesis obs_check : forall b k, obs (with_shouldCheckState b k) = obs k.
Hypothesis obs_keyPresses : forall l k, obs (with_keyPresses l k) = obs k.
Hypothesis obs_keyPressNotes :
  forall l k, obs (with_keyPressNotes l k) = obs k.
Hypothesis obs_keys : forall b k, obs (with_keysPressed b k) = obs k.

Lemma removeKeyPressLoop_frame i o : forall k,
  obs (removeKeyPressLoop i o k) = obs k.
Proof.
  induction i as [|i IH]; intro k; cbn [removeKeyPressLoop];
    [reflexivity|].
  rewrite IH. branches; rewrite ?obs_keyPresses, ?obs_keyPressNotes;
    reflexivity.
Qed.

Lemma removeKeyPressForNote_frame o k :
  obs (removeKeyPressForNote o k) = obs k.
Proof. apply removeKeyPressLoop_frame. Qed.

Lemma setKeyPressForNote_frame key o k :
  obs (setKeyPressForNote key o k) = obs k.
Proof.
  unfold setKeyPressForNote.
  rewrite obs_keyPresses, obs_keyPressNotes.
  apply removeKeyPressForNote_frame.
Qed.

Lemma keyStateLoop_frame down i : forall acc,
  obs (snd (keyStateLoop down i acc)) = obs (snd acc).
Proof.
  induction i as [|i IH]; intro acc; cbn [keyStateLoop];
    [reflexivity|].
  rewrite IH. unfold send, handleNoteOn, handleNoteOff. cbv zeta.
  branches; cbn [snd]; rewrite ?obs_check, ?obs_sent, ?obs_keys;
    reflexivity.
Qed.

Lemma keyStateChanged_frame down k :
  obs (snd (keyStateChanged down k)) = obs k.
Proof. unfold keyStateChanged. apply keyStateLoop_frame. Qed.

End KeyMappingFrame.

Lemma resized_tracker_lists (k : Keyboard) :
  mouseOverNotes (resized k) = mouseOverNotes k
  /\ mouseDownNotes (resized k) = mouseDownNotes k.
Proof.
  split;
    [apply (resized_frame mouseOverNotes)
    | apply (resized_frame mouseDownNotes)];
    reflexivity.
Qed.

Lemma timerCallback_unfold on srcs k :
  timerCallback on srcs k
  = if negb (shouldCheckMousePos (rescan on k)) then rescan on k
    else fold_left
           followPointer
           srcs (rescan on k).
Proof. reflexivity. Qed.

Section RescanFrame.

Context {C : Type} (obs : Keyboard -> C).
Hypothesis obs_sent : forall l k, obs (with_sent l k) = obs k.
Hypothesis obs_check : forall b k, obs (with_shouldCheckState b k) = obs k.
Hypothesis obs_drawn :
  forall b k, obs (with_keysCurrentlyDrawnDown b k) = obs k.

Lemma rescan_frame on k : obs (rescan on k) = obs k.
Proof.
  unfold rescan. destruct (shouldCheckState k); [|reflexivity].
  rewrite fold_left_frame; [apply obs_check|].
  intros a i. cbv zeta. unfold repaintNote, send.
  branches; rewrite ?obs_sent, ?obs_drawn; reflexivity.
Qed.

End RescanFrame.

Lemma timerCallback_viewport on srcs k :
  viewportOf (timerCallback on srcs k) = viewportOf k.
Proof.
  rewrite timerCallback_unfold.
  destruct (negb (shouldCheckMousePos (rescan on k))).
  - apply rescan_frame; reflexivity.
  - rewrite fold_left_frame by (intros; apply updateNoteUnderMouse_viewport).
    apply rescan_frame; reflexivity.
Qed.

(** ** Viewport: the lowest visible note stays in the range *)

Lemma firstKeyInRange_viewport (k k' : Keyboard) :
  viewportOf k' = viewportOf k -> firstKeyInRange k -> firstKeyInRange k'.
Proof.
  unfold viewportOf, firstKeyInRange. intro E. inversion E as [[E1 E2 E3]].
  rewrite E1, E2, E3. auto.
Qed.

Lemma jlimit_monotone (lo hi a b : Z) :
  a <= b -> lo <= hi -> jlimit lo hi a <= jlimit lo hi b.
Proof.
  intros H L. unfold jlimit.
  destruct (a <? lo) eqn:E1, (b <? lo) eqn:E2; try lia;
    destruct (hi <? a) eqn:E3; destruct (hi <? b) eqn:E4; lia.
Qed.

Lemma setLowestVisibleKeyFloat_inRange (n : Q) (k : Keyboard) :
  firstKeyInRange k -> firstKeyInRange (setLowestVisibleKeyFloat n k).
Proof.
  intros H. unfold setLowestVisibleKeyFloat.
  destruct (negb (Qeq_bool _ _)); [|exact H].
  apply resized_firstKeyInRange.
  destruct H as [Hr Hf].
  assert (B := jlimitf_bounds (inject_Z (rangeStart k))
                 (inject_Z (rangeEnd k)) n (inject_Z_le _ _ Hr)).
  destruct (negb (_ =? _)); split; assumption.
Qed.

Lemma setAvailableRange_inRange (lo hi : Z) (k : Keyboard) :
  lo <= hi -> firstKeyInRange k -> firstKeyInRange (setAvailableRange lo hi k).
Proof.
  intros L H. unfold setAvailableRange.
  destruct (negb (rangeStart k =? lo) || negb (rangeEnd k =? hi)); [|exact H].
  apply resized_firstKeyInRange.
  assert (M : jlimit 0 127 lo <= jlimit 0 127 hi)
    by (apply jlimit_monotone; lia).
  split; [exact M|]. fields.
  apply jlimitf_bounds, inject_Z_le, M.
Qed.

Lemma step_firstKeyInRange (a : Action) (k : Keyboard) :
  validAction a -> firstKeyInRange k -> firstKeyInRange (step a k).
Proof.
  intros V H.
  destruct a; cbn [step];
    try (apply setLowestVisibleKeyFloat_inRange; exact H);
    try (exact H).
  - apply resized_firstKeyInRange. exact H.
  - unfold setKeyWidth. branches; [exact H|].
    apply resized_firstKeyInRange. exact H.
  - unfold setOrientation. branches; [exact H|].
    apply resized_firstKeyInRange. exact H.
  - apply setAvailableRange_inRange; assumption.
  - unfold setScrollButtonsVisible. branches; [|exact H].
    apply resized_firstKeyInRange. exact H.
  - unfold setMidiChannel. branches; [|exact H].
    eapply firstKeyInRange_viewport; [|exact H].
    apply (resetAnyKeysInUse_viewport k).
  - unfold setBlackNoteLengthProportion. branches; [exact H|].
    apply resized_firstKeyInRange. exact H.
  - unfold setBlackNoteWidthProportion. branches; [exact H|].
    apply resized_firstKeyInRange. exact H.
  - eapply firstKeyInRange_viewport; [|exact H].
    apply (updateNoteUnderMouse_viewport _ _ _ _ k).
  - eapply firstKeyInRange_viewport; [|exact H].
    apply (updateNoteUnderMouse_viewport _ _ _ _ k).
  - unfold mouseDown. branches; [exact H|].
    eapply firstKeyInRange_viewport; [|exact H].
    apply (updateNoteUnderMouse_viewport _ _ _ _ k).
  - eapply firstKeyInRange_viewport; [|exact H].
    apply (updateNoteUnderMouse_viewport _ _ _ _ k).
  - eapply firstKeyInRange_viewport; [|exact H].
    apply (updateNoteUnderMouse_viewport _ _ _ _ k).
  - eapply firstKeyInRange_viewport; [|exact H].
    apply (updateNoteUnderMouse_viewport _ _ _ _ k).
  - eapply firstKeyInRange_viewport; [|exact H].
    apply timerCallback_viewport.
  - eapply firstKeyInRange_viewport; [|exact H].
    apply resetAnyKeysInUse_viewport.
  - eapply firstKeyInRange_viewport; [|exact H].
    apply (resetAnyKeysInUse_viewport k).
  - eapply firstKeyInRange_viewport; [|exact H].
    apply (setKeyPressForNote_frame viewportOf); reflexivity.
  - eapply firstKeyInRange_viewport; [|exact H].
    apply (removeKeyPressForNote_frame viewportOf); reflexivity.
  - eapply firstKeyInRange_viewport; [|exact H].
    apply (keyStateChanged_frame viewportOf); reflexivity.
Qed.

Lemma resized_without_size (k : Keyboard) :
  getWidth k <= 0 \/ getHeight k <= 0 -> resized k = k.
Proof.
  intro H. unfold resized.
  destruct ((getWidth k <=? 0) || (getHeight k <=? 0)) eqn:E;
    [reflexivity|].
  apply orb_false_iff in E. lia.
Qed.

(** C4, as the code has it.  For a valid range, setLowestVisibleKeyFloat
    clamps its argument into the range.  If the clamped value equals the
    current one, nothing happens.  Otherwise the clamped value is stored,
    the change message is sent at that point exactly when the truncated
    value changed, and relayout runs on the result; relayout may move the
    lowest visible note again and send the message again, and does nothing
    for a widget without size, where the stored value is the clamped one.
    After this call, and after any call with a valid range, the lowest
    visible note lies in the range. *)
Theorem setLowestVisibleKeyFloat_clamps_then_relayouts
    (k : Keyboard) (n : Q) (Hrange : rangeStart k <= rangeEnd k) :
  let lo := inject_Z (rangeStart k) in
  let hi := inject_Z (rangeEnd k) in
  let c := jlimitf lo hi n in
  let stored := with_firstKey c k in
  let signalled :=
    if negb (truncToInt (firstKey k) =? truncToInt c)
    then send sendChangeMessage stored else stored in
  (lo <= c <= hi)%Q
  /\ ((c == firstKey k)%Q -> setLowestVisibleKeyFloat n k = k)
  /\ (~ (c == firstKey k)%Q ->
      setLowestVisibleKeyFloat n k = resized signalled)
  /\ (~ (c == firstKey k)%Q -> getWidth k <= 0 \/ getHeight k <= 0 ->
      setLowestVisibleKeyFloat n k = signalled)
  /\ (lo <= firstKey (setLowestVisibleKeyFloat n k) <= hi)%Q
  /\ (forall a : Action,
        validAction a -> firstKeyInRange k -> firstKeyInRange (step a k)).
Proof.
  intros lo hi c stored signalled.
  assert (B : (lo <= c <= hi)%Q)
    by (apply jlimitf_bounds, inject_Z_le, Hrange).
  assert (E : (c == firstKey k)%Q -> setLowestVisibleKeyFloat n k = k).
  { intro H. unfold setLowestVisibleKeyFloat. fold lo hi c.
    apply Qeq_bool_iff in H. rewrite H. reflexivity. }
  assert (N : ~ (c == firstKey k)%Q ->
              setLowestVisibleKeyFloat n k = resized signalled).
  { intro H. unfold setLowestVisibleKeyFloat. fold lo hi c.
    destruct (Qeq_bool c (firstKey k)) eqn:Q;
      [apply Qeq_bool_iff in Q; contradiction|].
    reflexivity. }
  split; [exact B|]. split; [exact E|]. split; [exact N|].
  split; [|split].
  - intros H S. rewrite (N H). apply resized_without_size.
    unfold signalled, stored. destruct (negb _); exact S.
  - destruct (Qeq_dec c (firstKey k)) as [H|H].
    + rewrite (E H). rewrite <- H. exact B.
    + rewrite (N H).
      assert (I : firstKeyInRange signalled).
      { unfold signalled, stored. destruct (negb _); split; assumption. }
      apply resized_firstKeyInRange in I. destruct I as [_ I].
      assert (R := resized_range signalled). destruct R as [R1 R2].
      assert (S1 : rangeStart signalled = rangeStart k)
        by (unfold signalled, stored; destruct (negb _); reflexivity).
      assert (S2 : rangeEnd signalled = rangeEnd k)
        by (unfold signalled, stored; destruct (negb _); reflexivity).
      rewrite R1, R2, S1, S2 in I. exact I.
  - intros a. apply step_firstKeyInRange.
Qed.

Lemma setLowestVisibleKeyFloat_clamps_then_relayouts_witness :
  let k := sizedKeyboard 200 60 in
  rangeStart k <= rangeEnd k
  /\ (inject_Z (rangeStart k)
      <= firstKey (setLowestVisibleKeyFloat 120 k)
      <= inject_Z (rangeEnd k))%Q.
Proof.
  intro k.
  assert (Hrange : rangeStart k <= rangeEnd k) by by_evaluation.
  split; [exact Hrange|].
  exact (proj1 (proj2 (proj2 (proj2 (proj2
           (setLowestVisibleKeyFloat_clamps_then_relayouts k 120 Hrange)))))).
Defined.

(** C4 as stated fails.  With scroll buttons off, relayout puts the lowest
    visible note back on the range start: asking for note 10 sends the
    change message and leaves the value at 0, not at the clamped 10.  With
    the whole range C4..C5 on screen, asking for 60.5 keeps the truncated
    value 60, yet relayout sends the change message and the value ends at
    60. *)
Lemma setLowestVisibleKeyFloat_not_clamped_value :
  (let k := setScrollButtonsVisible false (sizedKeyboard 200 60) in
   let k' := setLowestVisibleKeyFloat 10 k in
   jlimitf (inject_Z (rangeStart k)) (inject_Z (rangeEnd k)) 10 = 10%Q
   /\ ~ (firstKey k' == 10)%Q
   /\ truncToInt (firstKey k') = truncToInt (firstKey k)
   /\ sent k' = sent k ++ [sendChangeMessage; repaint])
  /\ (let k := octaveKeyboard in
      let k' := setLowestVisibleKeyFloat (121#2) k in
      jlimitf (inject_Z (rangeStart k)) (inject_Z (rangeEnd k)) (121#2)
      = (121#2)%Q
      /\ truncToInt (121#2) = truncToInt (firstKey k)
      /\ ~ (firstKey k' == 121#2)%Q
      /\ sent k' = sent k ++ [sendChangeMessage; repaint]).
Proof.
  by_evaluation.
Qed.

(** ** Viewport: relayout *)

Lemma truncToInt_inject_Z (z : Z) : truncToInt (inject_Z z) = z.
Proof. unfold truncToInt, inject_Z; simpl. apply Z.quot_1_r. Qed.

(** C9, as the code has it.  Relayout does nothing when a dimension is not
    positive.  For a sized widget whose truncated lowest visible note
    differs from the range start while the span from the start of the first
    key to the end of the last key fits in the available size, relayout
    puts the lowest visible note on the range start and sends the change
    message (followed by a repaint request). *)
Theorem resized_snaps_back_when_range_fits (k : Keyboard) :
  (getWidth k <= 0 \/ getHeight k <= 0 -> resized k = k)
  /\ (0 < getWidth k -> 0 < getHeight k ->
      truncToInt (firstKey k) <> rangeStart k ->
      (getEnd (getKeyPos k (rangeEnd k)) - getStart (getKeyPos k (rangeStart k))
       <= inject_Z (availableSize k))%Q ->
      firstKey (resized k) = inject_Z (rangeStart k)
      /\ exists rest,
           sent (resized k) = sent k ++ sendChangeMessage :: repaint :: rest).
Proof.
  split; [apply resized_without_size|].
  intros Hw Hh Ht Hfit. unfold availableSize in Hfit.
  apply Qle_bool_iff in Hfit.
  unfold resized.
  replace ((getWidth k <=? 0) || (getHeight k <=? 0)) with false
    by (symmetry; apply orb_false_iff; lia).
  replace (truncToInt (firstKey k) =? rangeStart k) with false
    by (symmetry; apply Z.eqb_neq; exact Ht).
  cbn [negb]. rewrite Hfit.
  cbv zeta. fields.
  destruct (canScroll k).
  - match goal with
    | |- context [if ?c then _ else _] => destruct c eqn:E
    end; fields.
    + split.
      * rewrite truncToInt_inject_Z in E.
        apply andb_true_iff in E. destruct E as [_ E].
        unfold jlimit. rewrite E. reflexivity.
      * eexists. rewrite <- !app_assoc. reflexivity.
    + split; [reflexivity|].
      eexists. rewrite <- !app_assoc. reflexivity.
  - fields. split; [reflexivity|].
    eexists. rewrite <- !app_assoc. reflexivity.
Qed.

Lemma resized_snaps_back_when_range_fits_witness :
  let k := with_getHeight 60
             (with_getWidth 2000 (construct (7#10) horizontalKeyboard)) in
  truncToInt (firstKey k) = 48 /\ rangeStart k = 0
  /\ firstKey (resized k) = inject_Z (rangeStart k)
  /\ exists rest,
       sent (resized k) = sent k ++ sendChangeMessage :: repaint :: rest.
Proof.
  intro k.
  assert (Hw : 0 < getWidth k) by by_evaluation.
  assert (Hh : 0 < getHeight k) by by_evaluation.
  assert (Ht : truncToInt (firstKey k) <> rangeStart k) by by_evaluation.
  assert (Hfit : (getEnd (getKeyPos k (rangeEnd k))
                  - getStart (getKeyPos k (rangeStart k))
                  <= inject_Z (availableSize k))%Q) by by_evaluation.
  split; [by_evaluation|]. split; [by_evaluation|].
  exact (proj2 (resized_snaps_back_when_range_fits k) Hw Hh Ht Hfit).
Defined.

(** C9 as stated fails.  After scrolling to 0.5 on a widget 2000 pixels wide
    (the 75 white keys take 1200), the lowest visible note differs from the
    range start 0 and the whole span fits, yet relayout leaves it at 0.5 and
    requests only a repaint. *)
Lemma resized_keeps_fractional_position :
  let k := setLowestVisibleKeyFloat (1#2) (sizedKeyboard 2000 60) in
  0 < getWidth k /\ 0 < getHeight k
  /\ ~ (firstKey k == inject_Z (rangeStart k))%Q
  /\ (getEnd (getKeyPos k (rangeEnd k)) - getStart (getKeyPos k (rangeStart k))
      <= inject_Z (availableSize k))%Q
  /\ firstKey (resized k) = (1#2)%Q
  /\ ~ (firstKey (resized k) == inject_Z (rangeStart k))%Q
  /\ sent (resized k) = sent k ++ [repaint].
Proof.
  by_evaluation.
Qed.

(** ** Configuration setters *)

Lemma setBlackNoteWidthProportion_stored (ratio : Q) (k : Keyboard) :
  (blackNoteWidthRatio (setBlackNoteWidthProportion ratio k) == ratio)%Q.
Proof.
  unfold setBlackNoteWidthProportion.
  destruct (Qeq_bool (blackNoteWidthRatio k) ratio) eqn:E.
  - apply Qeq_bool_iff. exact E.
  - rewrite (resized_frame blackNoteWidthRatio) by reflexivity. reflexivity.
Qed.

Lemma setBlackNoteLengthProportion_stored (ratio : Q) (k : Keyboard) :
  (blackNoteLengthRatio (setBlackNoteLengthProportion ratio k) == ratio)%Q.
Proof.
  unfold setBlackNoteLengthProportion.
  destruct (Qeq_bool (blackNoteLengthRatio k) ratio) eqn:E.
  - apply Qeq_bool_iff. exact E.
  - rewrite (resized_frame blackNoteLengthRatio) by reflexivity. reflexivity.
Qed.

Lemma setVelocity_clamps (v : Q) (u : bool) (k : Keyboard) :
  (0 <= velocity (setVelocity v u k) <= 1)%Q.
Proof. unfold setVelocity. fields. apply jlimitf_bounds. lra. Qed.

Lemma setAvailableRange_stored (lo hi : Z) (k : Keyboard) :
  0 <= rangeStart k <= 127 -> 0 <= rangeEnd k <= 127 ->
  rangeStart (setAvailableRange lo hi k) = jlimit 0 127 lo
  /\ rangeEnd (setAvailableRange lo hi k) = jlimit 0 127 hi.
Proof.
  intros Hs He. unfold setAvailableRange.
  destruct (negb (rangeStart k =? lo) || negb (rangeEnd k =? hi)) eqn:E.
  - match goal with |- context [resized ?x] =>
      destruct (resized_range x) as [-> ->] end.
    fields. split; reflexivity.
  - apply orb_false_iff in E. destruct E as [E1 E2].
    apply negb_false_iff, Z.eqb_eq in E1, E2.
    rewrite !jlimit_inside by lia. auto.
Qed.

Lemma setAvailableRange_clamps (lo hi : Z) (k : Keyboard) :
  0 <= rangeStart k <= 127 -> 0 <= rangeEnd k <= 127 ->
  0 <= rangeStart (setAvailableRange lo hi k) <= 127
  /\ 0 <= rangeEnd (setAvailableRange lo hi k) <= 127.
Proof.
  intros Hs He.
  destruct (setAvailableRange_stored lo hi k Hs He) as [-> ->].
  split; apply jlimit_bounds; lia.
Qed.

Lemma setMidiChannel_stored (c : Z) (k : Keyboard) :
  1 <= midiChannel k <= 16 ->
  midiChannel (setMidiChannel c k) = jlimit 1 16 c.
Proof.
  intro H. unfold setMidiChannel.
  destruct (negb (midiChannel k =? c)) eqn:E; [reflexivity|].
  apply negb_false_iff, Z.eqb_eq in E.
  rewrite jlimit_inside by lia. exact E.
Qed.

Lemma setMidiChannel_clamps (c : Z) (k : Keyboard) :
  1 <= midiChannel k <= 16 -> 1 <= midiChannel (setMidiChannel c k) <= 16.
Proof.
  intro H. rewrite setMidiChannel_stored by exact H.
  apply jlimit_bounds. lia.
Qed.

(** C7, as the code has it.  Out-of-range arguments never make a setter
    fail.  The range setter stores both bounds limited to 0..127, the
    velocity setter stores the scalar limited to 0..1 and the channel
    setter stores the channel limited to 1..16: the member is the nearest
    value of the interval (the argument itself when it lies inside), so
    these members stay in their intervals.  The two ratio setters only
    assert the interval 0..1: they store the ratio they are given, whatever
    it is. *)
Theorem setters_limit_range_velocity_channel
    (k : Keyboard)
    (Hs : 0 <= rangeStart k <= 127) (He : 0 <= rangeEnd k <= 127)
    (Hc : 1 <= midiChannel k <= 16) :
  (forall lo hi,
     0 <= rangeStart (setAvailableRange lo hi k) <= 127
     /\ 0 <= rangeEnd (setAvailableRange lo hi k) <= 127)
  /\ (forall v u, (0 <= velocity (setVelocity v u k) <= 1)%Q)
  /\ (forall c, 1 <= midiChannel (setMidiChannel c k) <= 16)
  /\ (forall ratio,
        (blackNoteWidthRatio (setBlackNoteWidthProportion ratio k)
         == ratio)%Q)
  /\ (forall ratio,
        (blackNoteLengthRatio (setBlackNoteLengthProportion ratio k)
         == ratio)%Q)
  /\ (forall lo hi,
        rangeStart (setAvailableRange lo hi k) = jlimit 0 127 lo
        /\ rangeEnd (setAvailableRange lo hi k) = jlimit 0 127 hi)
  /\ (forall v u, velocity (setVelocity v u k) = jlimitf 0 1 v)
  /\ (forall c, midiChannel (setMidiChannel c k) = jlimit 1 16 c).
Proof.
  split; [intros lo hi; apply setAvailableRange_clamps; assumption|].
  split; [intros v u; apply setVelocity_clamps|].
  split; [intro c; apply setMidiChannel_clamps; assumption|].
  split; [intro r; apply setBlackNoteWidthProportion_stored|].
  split; [intro r; apply setBlackNoteLengthProportion_stored|].
  split; [intros lo hi; apply setAvailableRange_stored; assumption|].
  split; [intros v u; reflexivity|].
  intro c; apply setMidiChannel_stored; assumption.
Qed.

Lemma setters_limit_range_velocity_channel_witness :
  let k := sizedKeyboard 200 60 in
  (0 <= rangeStart k <= 127) /\ (0 <= rangeEnd k <= 127)
  /\ (1 <= midiChannel k <= 16)
  /\ (0 <= rangeStart (setAvailableRange (-5) 300 k) <= 127)
  /\ (0 <= velocity (setVelocity 2 true k) <= 1)%Q
  /\ (1 <= midiChannel (setMidiChannel 17 k) <= 16)
  /\ rangeStart (setAvailableRange (-5) 300 k) = 0
  /\ rangeEnd (setAvailableRange (-5) 300 k) = 127
  /\ velocity (setVelocity 2 true k) = 1%Q
  /\ midiChannel (setMidiChannel 17 k) = 16.
Proof.
  intro k.
  assert (Hs : 0 <= rangeStart k <= 127) by by_evaluation.
  assert (He : 0 <= rangeEnd k <= 127) by by_evaluation.
  assert (Hc : 1 <= midiChannel k <= 16) by by_evaluation.
  destruct (setters_limit_range_velocity_channel k Hs He Hc)
    as [R [V [C [_ [_ [R' [V' C']]]]]]].
  split; [exact Hs|]. split; [exact He|]. split; [exact Hc|].
  split; [exact (proj1 (R (-5) 300))|].
  split; [exact (V 2%Q true)|]. split; [exact (C 17)|].
  split; [exact (proj1 (R' (-5) 300))|].
  split; [exact (proj2 (R' (-5) 300))|].
  split; [exact (V' 2%Q true) | exact (C' 17)].
Defined.

(** C7 as stated fails for the ratios.  On a new widget,
    [setBlackNoteWidthProportion 1.5] and
    [setBlackNoteLengthProportion (-0.5)] leave 1.5 and -0.5 in the members,
    outside the interval 0..1. *)
Lemma ratio_setters_store_out_of_range :
  let fresh := construct (7#10) horizontalKeyboard in
  blackNoteWidthRatio (setBlackNoteWidthProportion (3#2) fresh) = (3#2)%Q
  /\ (1 < blackNoteWidthRatio (setBlackNoteWidthProportion (3#2) fresh))%Q
  /\ blackNoteLengthRatio (setBlackNoteLengthProportion (-1#2) fresh)
     = (-1#2)%Q
  /\ (blackNoteLengthRatio (setBlackNoteLengthProportion (-1#2) fresh) < 0)%Q.
Proof.
  by_evaluation.
Qed.

(** C8, as the code has it.  Called with the value already stored, the
    setters of key width, orientation, range, scroll-buttons flag, channel,
    both ratios and (for a stored velocity within 0..1) velocity return the
    widget unchanged, request log included.  The setter of the displayed
    channels has no such test: it keeps every other member and sends
    nothing, but always raises the re-check flag.  The setter of the octave
    for middle C has none either: it keeps every member and always
    requests a repaint. *)
Theorem setters_with_stored_value
    (k : Keyboard) (Hv : (0 <= velocity k <= 1)%Q) :
  (forall w, (w == keyWidth k)%Q -> setKeyWidth w k = k)
  /\ setOrientation (orientation k) k = k
  /\ setAvailableRange (rangeStart k) (rangeEnd k) k = k
  /\ setScrollButtonsVisible (canScroll k) k = k
  /\ setMidiChannel (midiChannel k) k = k
  /\ (forall r, (r == blackNoteLengthRatio k)%Q ->
        setBlackNoteLengthProportion r k = k)
  /\ (forall r, (r == blackNoteWidthRatio k)%Q ->
        setBlackNoteWidthProportion r k = k)
  /\ setVelocity (velocity k) (useMousePositionForVelocity k) k = k
  /\ setMidiChannelsToDisplay (midiInChannelMask k) k
     = with_shouldCheckState true k
  /\ setOctaveForMiddleC (octaveNumForMiddleC k) k = send repaint k.
Proof.
  repeat match goal with |- _ /\ _ => split end.
  - intros w H. unfold setKeyWidth.
    symmetry in H. apply Qeq_bool_iff in H. rewrite H. reflexivity.
  - unfold setOrientation.
    rewrite (proj2 (Orientation_eqb_eq _ _) eq_refl). reflexivity.
  - unfold setAvailableRange. rewrite !Z.eqb_refl. reflexivity.
  - unfold setScrollButtonsVisible. rewrite eqb_reflx. reflexivity.
  - unfold setMidiChannel. rewrite Z.eqb_refl. reflexivity.
  - intros r H. unfold setBlackNoteLengthProportion.
    symmetry in H. apply Qeq_bool_iff in H. rewrite H. reflexivity.
  - intros r H. unfold setBlackNoteWidthProportion.
    symmetry in H. apply Qeq_bool_iff in H. rewrite H. reflexivity.
  - unfold setVelocity. rewrite (jlimitf_inside 0 1 (velocity k) Hv).
    clear Hv. destruct k. reflexivity.
  - unfold setMidiChannelsToDisplay. clear Hv. destruct k. reflexivity.
  - unfold setOctaveForMiddleC. clear Hv. destruct k. reflexivity.
Qed.

Lemma setters_with_stored_value_witness :
  let k := sizedKeyboard 200 60 in
  (0 <= velocity k <= 1)%Q
  /\ setVelocity (velocity k) (useMousePositionForVelocity k) k = k
  /\ setMidiChannel (midiChannel k) k = k.
Proof.
  intro k.
  assert (Hv : (0 <= velocity k <= 1)%Q) by by_evaluation.
  destruct (setters_with_stored_value k Hv)
    as [_ [_ [_ [_ [C [_ [_ [V _]]]]]]]].
  split; [exact Hv|]. split; [exact V | exact C].
Defined.

(** C8 as stated fails.  On a new widget, setting the octave for middle C
    to the value it has (3) requests a repaint, and setting the displayed
    channels to the mask they have raises the re-check flag. *)
Lemma unguarded_setters_are_not_silent :
  let k := construct (7#10) horizontalKeyboard in
  octaveNumForMiddleC k = 3
  /\ sent (setOctaveForMiddleC 3 k) = sent k ++ [repaint]
  /\ setOctaveForMiddleC 3 k <> k
  /\ midiInChannelMask k = 65535
  /\ shouldCheckState k = false
  /\ shouldCheckState (setMidiChannelsToDisplay 65535 k) = true
  /\ setMidiChannelsToDisplay 65535 k <> k.
Proof.
  cbv zeta.
  repeat match goal with |- _ /\ _ => split end;
    try (vm_compute; reflexivity).
  - intro H. apply (f_equal sent) in H. vm_compute in H. discriminate H.
  - intro H. apply (f_equal shouldCheckState) in H. vm_compute in H.
    discriminate H.
Qed.

(** ** Note messages and the channel they are sent on *)

Lemma extends_refl ch l : extends ch l l.
Proof. exists []. split; [symmetry; apply app_nil_r | constructor]. Qed.

Lemma extends_trans ch l1 l2 l3 :
  extends ch l1 l2 -> extends ch l2 l3 -> extends ch l1 l3.
Proof.
  intros [e1 [-> F1]] [e2 [-> F2]]. exists (e1 ++ e2).
  split; [symmetry; apply app_assoc | apply Forall_app; auto].
Qed.

Lemma extends_snoc ch l r : onChannel ch r -> extends ch l (l ++ [r]).
Proof.
  intro H. exists [r]. split; [reflexivity | repeat constructor; exact H].
Qed.

Lemma repaintNote_extends ch n k : extends ch (sent k) (sent (repaintNote n k)).
Proof.
  unfold repaintNote. branches; [|apply extends_refl].
  apply extends_snoc. exact I.
Qed.

Lemma updateHover_extends ch it o n s k :
  extends ch (sent k) (sent (updateHover it o n s k)).
Proof.
  unfold updateHover.
  destruct (negb (o =? n)); [|apply extends_refl].
  assert (E : extends ch (sent k)
                (sent (repaintNote n (repaintNote o k)))).
  { eapply extends_trans; apply repaintNote_extends. }
  destruct (n =? -1); [exact E|].
  destruct (o =? -1); [exact E|].
  destruct it; exact E.
Qed.

Lemma releaseHeld_extends it n v k :
  extends (midiChannel k) (sent k) (sent (releaseHeld it n v k)).
Proof.
  unfold releaseHeld. branches; [|apply extends_refl].
  apply (extends_snoc (midiChannel k) (sent k)). reflexivity.
Qed.

Lemma releaseHeld_midiChannel it n v k :
  midiChannel (releaseHeld it n v k) = midiChannel k.
Proof. apply (releaseHeld_frame midiChannel); reflexivity. Qed.

Lemma updatePress_extends it o n v d s k :
  extends (midiChannel k) (sent k) (sent (updatePress it o n v d s k)).
Proof.
  unfold updatePress.
  destruct d.
  - destruct (n =? o); [apply extends_refl|].
    assert (E : extends (midiChannel k) (sent k)
                  (sent (if 0 <=? o then releaseHeld it o v k else k)))
      by (destruct (0 <=? o); [apply releaseHeld_extends | apply extends_refl]).
    assert (M : midiChannel (if 0 <=? o then releaseHeld it o v k else k)
                = midiChannel k)
      by (destruct (0 <=? o); [apply releaseHeld_midiChannel | reflexivity]).
    cbv zeta.
    match goal with |- context [if ?c then _ else _] => destruct c end;
      [|exact E].
    eapply extends_trans; [exact E|]. fields.
    apply extends_snoc. exact M.
  - destruct (o <? 0); [apply extends_refl | apply releaseHeld_extends].
Qed.

Lemma updateNoteUnderMouse_extends pos d s u k :
  extends (midiChannel k) (sent k) (sent (updateNoteUnderMouse pos d s u k)).
Proof.
  unfold updateNoteUnderMouse.
  eapply extends_trans; [apply updateHover_extends|].
  match goal with |- context [updateHover ?a ?b ?c ?e k] =>
    rewrite <- (updateHover_frame midiChannel
                  ltac:(reflexivity) ltac:(reflexivity) a b c e k) at 1
  end.
  apply updatePress_extends.
Qed.

Lemma keyStateLoop_extends down i : forall acc,
  extends (midiChannel (snd acc)) (sent (snd acc))
    (sent (snd (keyStateLoop down i acc)))
  /\ midiChannel (snd (keyStateLoop down i acc)) = midiChannel (snd acc).
Proof.
  induction i as [|i IH]; intro acc; cbn [keyStateLoop].
  - split; [apply extends_refl | reflexivity].
  - cbv zeta.
    match goal with |- context [keyStateLoop down i ?a] =>
      destruct (IH a) as [E M];
      assert (S : extends (midiChannel (snd acc)) (sent (snd acc))
                    (sent (snd a))
                  /\ midiChannel (snd a) = midiChannel (snd acc))
    end.
    { branches; cbn [snd]; fields;
        (split; [first [apply extends_refl
                       | apply extends_snoc; reflexivity]
                | reflexivity]). }
    destruct S as [S1 S2]. rewrite S2 in E, M.
    split; [eapply extends_trans; eassumption | exact M].
Qed.

Lemma keyStateChanged_extends down k :
  extends (midiChannel k) (sent k) (sent (snd (keyStateChanged down k))).
Proof. apply (keyStateLoop_extends down _ (false, k)). Qed.

(** ** Releasing every held note *)

Lemma releaseBits_sent (ch bits : Z) (l : list Z) : forall k,
  midiChannel k = ch ->
  sent (releaseBits bits l k)
  = sent k ++ map (fun i => noteOff ch i 0) (filter (Z.testbit bits) l).
Proof.
  unfold releaseBits.
  induction l as [|i l IH]; intros k Hc; cbn [fold_left filter map].
  - symmetry. apply app_nil_r.
  - destruct (Z.testbit bits i).
    + rewrite IH by exact Hc. fields.
      rewrite Hc, <- app_assoc. reflexivity.
    + apply IH. exact Hc.
Qed.

Lemma releaseEntries_sent (ch : Z) (l : list InputIndex) : forall k,
  midiChannel k = ch ->
  sent (releaseEntries l k)
  = sent k ++ map (fun x => noteOff ch (noteNumber x) 0) l.
Proof.
  unfold releaseEntries.
  induction l as [|x l IH]; intros k Hc; cbn [fold_left map].
  - symmetry. apply app_nil_r.
  - rewrite IH by exact Hc. fields.
    rewrite Hc, <- app_assoc. reflexivity.
Qed.

Lemma filter_no_bits (l : list Z) : filter (Z.testbit 0) l = [].
Proof.
  induction l as [|i l IH]; cbn [filter]; [reflexivity|].
  rewrite Z.bits_0. exact IH.
Qed.

Lemma midiChannel_frame_sent l k : midiChannel (with_sent l k) = midiChannel k.
Proof. reflexivity. Qed.

Lemma resetAnyKeysInUse_effect (k : Keyboard) :
  sent (resetAnyKeysInUse k)
  = sent k ++ releaseMessages (midiChannel k) (keysPressed k) (mouseDownNotes k)
  /\ midiChannel (resetAnyKeysInUse k) = midiChannel k
  /\ keysPressed (resetAnyKeysInUse k) = 0
  /\ mouseDownNotes (resetAnyKeysInUse k) = []
  /\ mouseOverNotes (resetAnyKeysInUse k) = [].
Proof.
  unfold resetAnyKeysInUse, releaseMessages. cbv zeta.
  destruct (negb (keysPressed k =? 0)) eqn:Z0.
  - assert (S := releaseBits_sent (midiChannel k) (keysPressed k)
                   notesDownwards k eq_refl).
    assert (M := releaseBits_frame midiChannel midiChannel_frame_sent
                   (fun _ _ => eq_refl) (keysPressed k) notesDownwards k).
    assert (D := releaseBits_frame mouseDownNotes (fun _ _ => eq_refl)
                   (fun _ _ => eq_refl) (keysPressed k) notesDownwards k).
    revert S M D.
    generalize (releaseBits (keysPressed k) notesDownwards k) as b.
    generalize (filter (Z.testbit (keysPressed k)) notesDownwards) as pressed.
    intros pressed b S M D.
    assert (E := releaseEntries_sent (midiChannel k)
                   (mouseDownNotes (with_keysPressed 0 b))
                   (with_keysPressed 0 b) M).
    assert (F := releaseEntries_frame midiChannel midiChannel_frame_sent
                   (fun _ _ => eq_refl)
                   (mouseDownNotes (with_keysPressed 0 b))
                   (with_keysPressed 0 b)).
    assert (G := releaseEntries_frame keysPressed (fun _ _ => eq_refl)
                   (fun _ _ => eq_refl)
                   (mouseDownNotes (with_keysPressed 0 b))
                   (with_keysPressed 0 b)).
    revert E F G.
    generalize (releaseEntries (mouseDownNotes (with_keysPressed 0 b))
                  (with_keysPressed 0 b)) as e.
    intros e E F G. fields. fields_in E. fields_in F. fields_in G.
    rewrite E, F, G, S, D, M, <- app_assoc. auto.
  - apply negb_false_iff, Z.eqb_eq in Z0.
    assert (E := releaseEntries_sent (midiChannel k) (mouseDownNotes k) k
                   eq_refl).
    assert (F := releaseEntries_frame midiChannel midiChannel_frame_sent
                   (fun _ _ => eq_refl)
                   (mouseDownNotes k) k).
    assert (G := releaseEntries_frame keysPressed (fun _ _ => eq_refl)
                   (fun _ _ => eq_refl)
                   (mouseDownNotes k) k).
    revert E F G.
    generalize (releaseEntries (mouseDownNotes k) k) as e.
    intros e E F G. fields.
    rewrite E, F, G, Z0, filter_no_bits. auto.
Qed.

Lemma notesDownwards_In (i : Z) : 0 <= i < 128 -> In i notesDownwards.
Proof.
  intro H. unfold notesDownwards. apply in_map_iff.
  exists (Z.to_nat i). split; [lia|].
  apply in_rev. rewrite rev_involutive. apply in_seq. lia.
Qed.

Lemma notesDownwards_range (i : Z) : In i notesDownwards -> 0 <= i < 128.
Proof.
  intro H. unfold notesDownwards in H. apply in_map_iff in H.
  destruct H as [n [<- H]]. rewrite <- in_rev in H.
  apply in_seq in H. lia.
Qed.

Lemma releaseMessages_complete (ch bits : Z) (held : list InputIndex) :
  (forall i, 0 <= i < 128 -> Z.testbit bits i = true ->
     In (noteOff ch i 0) (releaseMessages ch bits held))
  /\ (forall x, In x held ->
        In (noteOff ch (noteNumber x) 0) (releaseMessages ch bits held))
  /\ Forall (fun r => exists n, r = noteOff ch n 0)
       (releaseMessages ch bits held)
  /\ (forall i v, ~ 0 <= i < 128 ->
        (forall x, In x held -> noteNumber x <> i) ->
        ~ In (noteOff ch i v) (releaseMessages ch bits held)).
Proof.
  unfold releaseMessages. split; [|split; [|split]];
    [| | |intros i v Hi Hx Hin; apply in_app_or in Hin;
          destruct Hin as [Hin|Hin]; apply in_map_iff in Hin;
          destruct Hin as [y [E Hy]]; injection E as E _;
          [apply filter_In in Hy; destruct Hy as [Hy _];
           apply notesDownwards_range in Hy; lia
          | exact (Hx y Hy E)]].
  - intros i Hi Hb. apply in_or_app. left.
    apply in_map_iff. exists i. split; [reflexivity|].
    apply filter_In. split; [apply notesDownwards_In; exact Hi | exact Hb].
  - intros x Hx. apply in_or_app. right.
    apply in_map_iff. exists x. auto.
  - apply Forall_app. split; apply Forall_forall; intros r Hr;
      apply in_map_iff in Hr; destruct Hr as [y [<- _]]; eexists; reflexivity.
Qed.

(** C5, as the code has it.  Switching to a channel [c] other than the
    current one appends to the requests exactly the release messages on the
    old channel: a note-off for every pressed-key bit 0..127 and for every
    press entry, and nothing else; a pressed-key bit outside 0..127 gets no
    note-off unless a press entry carries its note.  Afterwards the
    pressed-key bits, the press entries and the hover entries are empty and
    the channel is [c] limited to 1..16 (so [c] itself when it is a MIDI
    channel).  Every note message of a later pointer or key event is on the
    new channel. *)
Theorem setMidiChannel_releases_on_old_channel
    (k : Keyboard) (c : Z) (Hc : c <> midiChannel k) :
  let old := midiChannel k in
  let k' := setMidiChannel c k in
  let released := releaseMessages old (keysPressed k) (mouseDownNotes k) in
  sent k' = sent k ++ released
  /\ (forall i, 0 <= i < 128 -> Z.testbit (keysPressed k) i = true ->
        In (noteOff old i 0) released)
  /\ (forall x, In x (mouseDownNotes k) ->
        In (noteOff old (noteNumber x) 0) released)
  /\ Forall (fun r => exists n, r = noteOff old n 0) released
  /\ (forall i v, ~ 0 <= i < 128 ->
        (forall x, In x (mouseDownNotes k) -> noteNumber x <> i) ->
        ~ In (noteOff old i v) released)
  /\ keysPressed k' = 0 /\ mouseDownNotes k' = [] /\ mouseOverNotes k' = []
  /\ midiChannel k' = jlimit 1 16 c
  /\ (1 <= c <= 16 -> midiChannel k' = c)
  /\ (forall pos isDown source unset,
        extends (midiChannel k') (sent k')
          (sent (updateNoteUnderMouse pos isDown source unset k')))
  /\ (forall isCurrentlyDown,
        extends (midiChannel k') (sent k')
          (sent (snd (keyStateChanged isCurrentlyDown k')))).
Proof.
  intros old k' released.
  destruct (resetAnyKeysInUse_effect k) as [S [M [P [D O]]]].
  destruct (releaseMessages_complete old (keysPressed k) (mouseDownNotes k))
    as [R1 [R2 [R3 R4]]].
  assert (E : k' = with_midiChannel (jlimit 1 16 c) (resetAnyKeysInUse k)).
  { unfold k', setMidiChannel.
    replace (midiChannel k =? c) with false
      by (symmetry; apply Z.eqb_neq; auto).
    reflexivity. }
  assert (Ch : midiChannel k' = jlimit 1 16 c) by (rewrite E; reflexivity).
  repeat match goal with |- _ /\ _ => split end;
    try assumption.
  - rewrite E. exact S.
  - rewrite E. exact P.
  - rewrite E. exact D.
  - rewrite E. exact O.
  - intro H. rewrite Ch. apply jlimit_inside. exact H.
  - intros. apply updateNoteUnderMouse_extends.
  - intros. apply keyStateChanged_extends.
Qed.

Lemma setMidiChannel_releases_on_old_channel_witness :
  let k := pressLowestKey in
  2 <> midiChannel k
  /\ mouseDownNotes k = [mkInputIndex firstMouse 0]
  /\ sent (setMidiChannel 2 k) = sent k ++ [noteOff 1 0 0]
  /\ mouseDownNotes (setMidiChannel 2 k) = []
  /\ midiChannel (setMidiChannel 2 k) = 2.
Proof.
  intro k.
  assert (Hc : 2 <> midiChannel k) by by_evaluation.
  destruct (setMidiChannel_releases_on_old_channel k 2 Hc)
    as [S [_ [_ [_ [_ [_ [D [_ [_ [C _]]]]]]]]]].
  split; [exact Hc|]. split; [by_evaluation|].
  split; [|split; [exact D | apply C; lia]].
  rewrite S. by_evaluation.
Defined.

(** C5 as stated fails.  With the key mapping based at octave 10 the key
    [y] plays note 12 * 10 + 8 = 128: holding it sends the note-on and sets
    bit 128 of the pressed-key bits.  The release loop of
    resetAnyKeysInUse visits the MIDI notes 127 down to 0, so switching the
    channel clears the bit and sends nothing: the note held by the key gets
    no note-off on the old channel. *)
Lemma held_key_above_127_gets_no_note_off :
  let k := holdKeyYInTopOctave in
  2 <> midiChannel k
  /\ Z.testbit (keysPressed k) 128 = true
  /\ In (noteOn (midiChannel k) 128 1) (sent k)
  /\ sent (setMidiChannel 2 k) = sent k
  /\ keysPressed (setMidiChannel 2 k) = 0
  /\ midiChannel (setMidiChannel 2 k) = 2.
Proof.
  cbv zeta. split; [|split; [|split; [|split; [|split]]]].
  - vm_compute. discriminate.
  - vm_compute. reflexivity.
  - vm_compute. auto.
  - vm_compute. reflexivity.
  - vm_compute. reflexivity.
  - vm_compute. reflexivity.
Qed.

(** ** Calls that touch neither the tracked pointer sources nor the bindings *)

Ltac reads_only_lists := constructor; intros; reflexivity.

Section PlainFrame.

Context {C : Type} (obs : Keyboard -> C) (R : ReadsOnlyLists obs).

Lemma resized_plain k : obs (resized k) = obs k.
Proof. apply resized_frame; apply R. Qed.

Lemma setLowestVisibleKeyFloat_plain n k :
  obs (setLowestVisibleKeyFloat n k) = obs k.
Proof.
  unfold setLowestVisibleKeyFloat, send.
  branches; rewrite ?resized_plain, ?(ignores_sent obs R),
    ?(ignores_firstKey obs R); reflexivity.
Qed.

Lemma plain_step_frame a k :
  plainAction a = true -> obs (step a k) = obs k.
Proof.
  destruct a; cbn [plainAction step]; try discriminate; intros _.
  - unfold setSize.
    rewrite resized_plain, (ignores_getHeight obs R).
    apply (ignores_getWidth obs R).
  - unfold setKeyWidth. branches; [reflexivity|].
    rewrite resized_plain. apply (ignores_keyWidth obs R).
  - unfold setOrientation. branches; [reflexivity|].
    rewrite resized_plain. apply (ignores_orientation obs R).
  - apply setLowestVisibleKeyFloat_plain.
  - apply setLowestVisibleKeyFloat_plain.
  - apply setLowestVisibleKeyFloat_plain.
  - unfold setScrollButtonsVisible. branches; [|reflexivity].
    rewrite resized_plain. apply (ignores_canScroll obs R).
  - apply (ignores_sent obs R).
  - unfold setMidiChannelsToDisplay.
    rewrite (ignores_shouldCheckState obs R).
    apply (ignores_midiInChannelMask obs R).
  - unfold setVelocity.
    rewrite (ignores_useMousePositionForVelocity obs R).
    apply (ignores_velocity obs R).
  - unfold setOctaveForMiddleC, send.
    rewrite (ignores_sent obs R).
    apply (ignores_octaveNumForMiddleC obs R).
  - unfold setBlackNoteLengthProportion. branches; [reflexivity|].
    rewrite resized_plain. apply (ignores_blackNoteLengthRatio obs R).
  - unfold setBlackNoteWidthProportion. branches; [reflexivity|].
    rewrite resized_plain. apply (ignores_blackNoteWidthRatio obs R).
  - apply (ignores_keyMappingOctave obs R).
  - apply setLowestVisibleKeyFloat_plain.
  - apply keyStateChanged_frame;
      [apply (ignores_sent obs R) | apply (ignores_shouldCheckState obs R)
      | apply (ignores_keysPressed obs R)].
Qed.

Lemma setAvailableRange_plain lo hi k :
  (forall v k, obs (with_rangeStart v k) = obs k) ->
  (forall v k, obs (with_rangeEnd v k) = obs k) ->
  obs (setAvailableRange lo hi k) = obs k.
Proof.
  intros Hs He. unfold setAvailableRange. branches; [|reflexivity].
  rewrite resized_plain, (ignores_firstKey obs R), He. apply Hs.
Qed.

Lemma rescan_plain on k : obs (rescan on k) = obs k.
Proof.
  apply rescan_frame;
    [apply (ignores_sent obs R) | apply (ignores_shouldCheckState obs R)
    | apply (ignores_keysCurrentlyDrawnDown obs R)].
Qed.

End PlainFrame.

(** ** Physical-key mapping: the bindings as a list of pairs *)

Lemma eraseAt_nil {A : Type} (i : nat) : eraseAt i (@nil A) = [].
Proof. unfold eraseAt. rewrite firstn_nil, skipn_nil. reflexivity. Qed.

Lemma eraseAt_cons {A : Type} (i : nat) (x : A) (l : list A) :
  eraseAt (S i) (x :: l) = x :: eraseAt i l.
Proof. reflexivity. Qed.

Lemma eraseAt_combine {A B : Type} (i : nat) :
  forall (l1 : list A) (l2 : list B),
  combine (eraseAt i l1) (eraseAt i l2) = eraseAt i (combine l1 l2).
Proof.
  induction i as [|i IH]; intros l1 l2.
  - destruct l1 as [|x l1], l2 as [|y l2]; try reflexivity.
    unfold eraseAt. simpl. destruct l1; reflexivity.
  - destruct l1 as [|x l1]; [rewrite eraseAt_nil; reflexivity|].
    destruct l2 as [|y l2].
    + rewrite eraseAt_nil. cbn [combine]. rewrite eraseAt_nil.
      apply combine_nil.
    + rewrite !eraseAt_cons. cbn [combine]. rewrite eraseAt_cons, IH.
      reflexivity.
Qed.

Lemma eraseAt_length {A : Type} (i : nat) : forall (l : list A),
  (i < length l)%nat -> length (eraseAt i l) = pred (length l).
Proof.
  induction i as [|i IH]; intros [|x l] H; simpl in H; try lia.
  - reflexivity.
  - rewrite eraseAt_cons. cbn [length]. rewrite IH by lia.
    destruct l; simpl in *; lia.
Qed.

Lemma firstn_eraseAt {A : Type} (i : nat) : forall (l : list A),
  firstn i (eraseAt i l) = firstn i l.
Proof.
  induction i as [|i IH]; intros [|x l]; rewrite ?eraseAt_nil;
    try reflexivity.
  rewrite eraseAt_cons. cbn [firstn]. rewrite IH. reflexivity.
Qed.

Lemma skipn_eraseAt {A : Type} (i : nat) : forall (l : list A),
  skipn i (eraseAt i l) = skipn (S i) l.
Proof.
  induction i as [|i IH]; intros [|x l]; rewrite ?eraseAt_nil;
    try reflexivity.
  rewrite eraseAt_cons. cbn [skipn]. rewrite IH.
  destruct l; reflexivity.
Qed.

Lemma firstn_snoc_nth {A : Type} (d : A) : forall (l : list A) (i : nat),
  (i < length l)%nat -> firstn (S i) l = firstn i l ++ [nth i l d].
Proof.
  induction l as [|x l IH]; intros i H; [simpl in H; lia|].
  destruct i as [|i]; [reflexivity|].
  change (firstn (S (S i)) (x :: l)) with (x :: firstn (S i) l).
  change (firstn (S i) (x :: l)) with (x :: firstn i l).
  change (nth (S i) (x :: l) d) with (nth i l d).
  rewrite IH by (simpl in H; lia). reflexivity.
Qed.

Lemma skipn_cons_nth {A : Type} (d : A) : forall (l : list A) (i : nat),
  (i < length l)%nat -> skipn i l = nth i l d :: skipn (S i) l.
Proof.
  induction l as [|x l IH]; intros i H; [simpl in H; lia|].
  destruct i as [|i]; [reflexivity|].
  change (skipn (S i) (x :: l)) with (skipn i l).
  change (skipn (S (S i)) (x :: l)) with (skipn (S i) l).
  change (nth (S i) (x :: l) d) with (nth i l d).
  apply IH. simpl in H. lia.
Qed.

Lemma map_snd_combine {A B : Type} : forall (l1 : list A) (l2 : list B),
  length l1 = length l2 -> map snd (combine l1 l2) = l2.
Proof.
  induction l1 as [|x l1 IH]; intros [|y l2] H; simpl in *; try lia;
    [reflexivity|].
  f_equal. apply IH. lia.
Qed.

Lemma combine_snoc {A B : Type} (a : A) (b : B) :
  forall (l1 : list A) (l2 : list B),
  length l1 = length l2 ->
  combine (l1 ++ [a]) (l2 ++ [b]) = combine l1 l2 ++ [(a, b)].
Proof.
  induction l1 as [|x l1 IH]; intros [|y l2] H; simpl in *; try lia;
    [reflexivity|].
  f_equal. apply IH. lia.
Qed.

Lemma bindings_length (k : Keyboard) :
  length (keyPresses k) = length (keyPressNotes k) ->
  length (bindings k) = length (keyPressNotes k).
Proof. intro H. unfold bindings. rewrite length_combine. lia. Qed.

Lemma bindings_nth (k : Keyboard) (i : nat) :
  length (keyPresses k) = length (keyPressNotes k) ->
  nth i (bindings k) (noKeyPress, 0)
  = (nth i (keyPresses k) noKeyPress, nth i (keyPressNotes k) 0).
Proof. intro H. unfold bindings. apply combine_nth. exact H. Qed.

Lemma removeKeyPressLoop_bindings (o : Z) (i : nat) : forall k,
  length (keyPresses k) = length (keyPressNotes k) ->
  (i <= length (keyPressNotes k))%nat ->
  bindings (removeKeyPressLoop i o k)
  = filter (otherOffset o) (firstn i (bindings k)) ++ skipn i (bindings k)
  /\ length (keyPresses (removeKeyPressLoop i o k))
     = length (keyPressNotes (removeKeyPressLoop i o k)).
Proof.
  induction i as [|i IH]; intros k L Hi; cbn [removeKeyPressLoop].
  - split; [reflexivity | exact L].
  - cbv zeta.
    assert (Hb : (i < length (bindings k))%nat)
      by (rewrite bindings_length by exact L; lia).
    rewrite (firstn_snoc_nth (noKeyPress, 0) (bindings k) i Hb).
    rewrite filter_app. cbn [filter]. unfold otherOffset at 2.
    rewrite (bindings_nth k i L). cbn [snd].
    destruct (nth i (keyPressNotes k) 0 =? o) eqn:E; cbn [negb].
    + match goal with |- context [removeKeyPressLoop i o ?x] =>
        destruct (IH x) as [B L']
      end.
      * fields. rewrite !eraseAt_length by lia. lia.
      * fields. rewrite eraseAt_length by lia. lia.
      * split; [|exact L'].
        rewrite B. unfold bindings at 1 2. fields.
        rewrite eraseAt_combine. fold (bindings k).
        rewrite firstn_eraseAt, skipn_eraseAt, app_nil_r. reflexivity.
    + destruct (IH k L ltac:(lia)) as [B L'].
      split; [|exact L'].
      rewrite B, (skipn_cons_nth (noKeyPress, 0) (bindings k) i Hb).
      rewrite (bindings_nth k i L), <- app_assoc. reflexivity.
Qed.

Lemma removeKeyPressForNote_bindings (o : Z) (k : Keyboard) :
  length (keyPresses k) = length (keyPressNotes k) ->
  bindings (removeKeyPressForNote o k) = filter (otherOffset o) (bindings k)
  /\ length (keyPresses (removeKeyPressForNote o k))
     = length (keyPressNotes (removeKeyPressForNote o k)).
Proof.
  intro L. unfold removeKeyPressForNote.
  destruct (removeKeyPressLoop_bindings o (length (keyPressNotes k)) k L
              (Nat.le_refl _)) as [B L'].
  split; [|exact L'].
  rewrite B, <- (bindings_length k L), firstn_all, skipn_all.
  apply app_nil_r.
Qed.

Lemma setKeyPressForNote_bindings (key : KeyPress) (o : Z) (k : Keyboard) :
  length (keyPresses k) = length (keyPressNotes k) ->
  bindings (setKeyPressForNote key o k)
  = filter (otherOffset o) (bindings k) ++ [(key, o)]
  /\ length (keyPresses (setKeyPressForNote key o k))
     = length (keyPressNotes (setKeyPressForNote key o k)).
Proof.
  intro L. destruct (removeKeyPressForNote_bindings o k L) as [B L'].
  unfold setKeyPressForNote. cbv zeta. unfold bindings at 1. fields.
  rewrite combine_snoc by exact L'. fold (bindings (removeKeyPressForNote o k)).
  rewrite B. split; [reflexivity|].
  rewrite !length_app, L'. reflexivity.
Qed.

Lemma keyPressNotes_bindings (k : Keyboard) :
  length (keyPresses k) = length (keyPressNotes k) ->
  keyPressNotes k = map snd (bindings k).
Proof. intro L. symmetry. apply map_snd_combine. exact L. Qed.

Lemma NoDup_map_filter {A B : Type} (f : A -> B) (p : A -> bool) :
  forall l, NoDup (map f l) -> NoDup (map f (filter p l)).
Proof.
  induction l as [|x l IH]; cbn [map filter]; intro H; [constructor|].
  inversion H as [|? ? Hx Hl]; subst.
  destruct (p x); [|auto].
  cbn [map]. constructor; [|auto].
  intro Hin. apply Hx. apply in_map_iff in Hin.
  destruct Hin as [y [E Hy]]. apply filter_In in Hy.
  apply in_map_iff. exists y. tauto.
Qed.

Lemma offset_removed (o : Z) (l : list (KeyPress * Z)) :
  ~ In o (map snd (filter (otherOffset o) l)).
Proof.
  intro H. apply in_map_iff in H. destruct H as [p [E Hp]].
  apply filter_In in Hp. destruct Hp as [_ Hp].
  unfold otherOffset in Hp. apply negb_true_iff, Z.eqb_neq in Hp. auto.
Qed.

Lemma removeKeyPressForNote_inv (o : Z) (k : Keyboard) :
  mappingInv k -> mappingInv (removeKeyPressForNote o k).
Proof.
  intros [L N]. destruct (removeKeyPressForNote_bindings o k L) as [B L'].
  split; [exact L'|].
  rewrite (keyPressNotes_bindings _ L'), B.
  apply NoDup_map_filter. rewrite <- (keyPressNotes_bindings k L). exact N.
Qed.

Lemma setKeyPressForNote_inv (key : KeyPress) (o : Z) (k : Keyboard) :
  mappingInv k -> mappingInv (setKeyPressForNote key o k).
Proof.
  intros [L N]. destruct (setKeyPressForNote_bindings key o k L) as [B L'].
  split; [exact L'|].
  rewrite (keyPressNotes_bindings _ L'), B, map_app. cbn [map snd].
  apply NoDup_app.
  - apply NoDup_map_filter. rewrite <- (keyPressNotes_bindings k L). exact N.
  - repeat constructor. intros [].
  - intros x Hx [<- | []]. exact (offset_removed _ _ Hx).
Qed.

Lemma clearKeyMappings_inv (k : Keyboard) : mappingInv (clearKeyMappings k).
Proof. split; [reflexivity | constructor]. Qed.

Lemma mappingOf_reads_only_lists : ReadsOnlyLists mappingOf.
Proof. reads_only_lists. Qed.

Lemma updateNoteUnderMouse_mapping pos d s u k :
  mappingOf (updateNoteUnderMouse pos d s u k) = mappingOf k.
Proof. apply updateNoteUnderMouse_frame; reflexivity. Qed.

Lemma timerCallback_mapping on srcs k :
  mappingOf (timerCallback on srcs k) = mappingOf k.
Proof.
  rewrite timerCallback_unfold.
  destruct (negb (shouldCheckMousePos (rescan on k))).
  - apply rescan_plain, mappingOf_reads_only_lists.
  - rewrite fold_left_frame by (intros; apply updateNoteUnderMouse_mapping).
    apply rescan_plain, mappingOf_reads_only_lists.
Qed.

Lemma step_mapping_frame (a : Action) (k : Keyboard) :
  bindingAction a = false -> mappingOf (step a k) = mappingOf k.
Proof.
  intro H.
  destruct (plainAction a) eqn:P;
    [apply plain_step_frame; [apply mappingOf_reads_only_lists | exact P]|].
  destruct a; try discriminate P; try discriminate H; cbn [step].
  - apply setAvailableRange_plain;
      [apply mappingOf_reads_only_lists | reflexivity | reflexivity].
  - unfold setMidiChannel. branches; [|reflexivity].
    apply (resetAnyKeysInUse_frame mappingOf); reflexivity.
  - apply (updateNoteUnderMouse_mapping _ _ _ _ k).
  - apply updateNoteUnderMouse_mapping.
  - unfold mouseDown. branches; [reflexivity|].
    apply (updateNoteUnderMouse_mapping _ _ _ _ k).
  - apply (updateNoteUnderMouse_mapping _ _ _ _ k).
  - apply updateNoteUnderMouse_mapping.
  - apply updateNoteUnderMouse_mapping.
  - apply timerCallback_mapping.
  - apply (resetAnyKeysInUse_frame mappingOf); reflexivity.
Qed.

Lemma mappingInv_mappingOf (k k' : Keyboard) :
  mappingOf k' = mappingOf k -> mappingInv k -> mappingInv k'.
Proof.
  unfold mappingOf, mappingInv. intro E. inversion E as [[E1 E2]].
  rewrite E1, E2. auto.
Qed.

Lemma step_mappingInv (a : Action) (k : Keyboard) :
  mappingInv k -> mappingInv (step a k).
Proof.
  intro H. destruct (bindingAction a) eqn:B.
  - destruct a; try discriminate B; cbn [step].
    + apply clearKeyMappings_inv.
    + apply setKeyPressForNote_inv. exact H.
    + apply removeKeyPressForNote_inv. exact H.
  - eapply mappingInv_mappingOf; [apply step_mapping_frame; exact B | exact H].
Qed.

Lemma run_mappingInv (acts : list Action) : forall k,
  mappingInv k -> mappingInv (run acts k).
Proof.
  unfold run. induction acts as [|a acts IH]; intros k H; cbn [fold_left];
    [exact H|].
  apply IH, step_mappingInv, H.
Qed.

Lemma construct_unfold (tableRatio : Q) (o : Orientation) :
  construct tableRatio o
  = colourChanged
      (snd (bindDefaults defaultKeys (O, declaredMembers tableRatio o))).
Proof. unfold construct. reflexivity. Qed.

Lemma bindDefaults_mappingInv (l : list Z) : forall acc,
  mappingInv (snd acc) -> mappingInv (snd (bindDefaults l acc)).
Proof.
  unfold bindDefaults.
  induction l as [|c l IH]; intros acc H; cbn [fold_left]; [exact H|].
  apply IH. cbn [snd]. apply setKeyPressForNote_inv. exact H.
Qed.

Lemma construct_mappingInv (tableRatio : Q) (o : Orientation) :
  mappingInv (construct tableRatio o).
Proof.
  rewrite construct_unfold.
  generalize (bindDefaults_mappingInv defaultKeys
                (O, declaredMembers tableRatio o)).
  generalize (bindDefaults defaultKeys (O, declaredMembers tableRatio o)).
  intros b H.
  eapply mappingInv_mappingOf; [|apply H; split; [reflexivity | constructor]].
  reflexivity.
Qed.

(** ** Physical-key mapping: what a key press fires *)

Lemma testbit_setBit_other (bits n m : Z) :
  n <> m -> Z.testbit (setBit bits n true) m = Z.testbit bits m.
Proof.
  intro H. unfold setBit.
  destruct (Z.lt_ge_cases n 0) as [N|N].
  - unfold Z.setbit. rewrite Z.shiftl_1_l, Z.pow_neg_r by exact N.
    rewrite Z.lor_0_r. reflexivity.
  - apply Z.setbit_neq; assumption.
Qed.

Lemma firedBy_config down k k' bs :
  keyConfigOf k' = keyConfigOf k -> firedBy down k' bs = firedBy down k bs.
Proof.
  unfold keyConfigOf, firedBy. intro E. inversion E. congruence.
Qed.

Lemma keyStateLoop_fires (down : KeyPress -> bool) (i : nat) :
  forall (used : bool) (k : Keyboard),
  length (keyPresses k) = length (keyPressNotes k) ->
  (i <= length (keyPressNotes k))%nat ->
  NoDup (map snd (firstn i (bindings k))) ->
  (forall p, In p (firstn i (bindings k)) ->
     Z.testbit (keysPressed k) (12 * keyMappingOctave k + snd p) = false) ->
  sent (snd (keyStateLoop down i (used, k)))
  = sent k ++ firedBy down k (firstn i (bindings k)).
Proof.
  induction i as [|i IH]; intros used k L Hi N Z0; cbn [keyStateLoop].
  - unfold firedBy. cbn. symmetry. apply app_nil_r.
  - cbv zeta. cbn [snd].
    assert (Hb : (i < length (bindings k))%nat)
      by (rewrite bindings_length by exact L; lia).
    rewrite (firstn_snoc_nth (noKeyPress, 0) (bindings k) i Hb) in N, Z0 |- *.
    rewrite (bindings_nth k i L) in N, Z0 |- *.
    rewrite map_app in N. cbn [map snd] in N.
    apply NoDup_remove in N. rewrite app_nil_r in N. destruct N as [N1 N2].
    assert (Zi : Z.testbit (keysPressed k)
                   (12 * keyMappingOctave k + nth i (keyPressNotes k) 0)
                 = false).
    { apply (Z0 (nth i (keyPresses k) noKeyPress, nth i (keyPressNotes k) 0)).
      apply in_or_app. right. left. reflexivity. }
    rewrite Zi. cbn [negb].
    unfold firedBy. rewrite filter_app. cbn [filter fst].
    fold noKeyPress.
    destruct (down (nth i (keyPresses k) noKeyPress)) eqn:D.
    + rewrite rev_app_distr. cbn [rev app map snd].
      match goal with |- context [keyStateLoop down i (true, ?x)] =>
        rewrite (IH true x); [|exact L | fields; lia | exact N1 |]
      end.
      * fields. rewrite <- app_assoc. reflexivity.
      * intros p Hp. fields.
        rewrite testbit_setBit_other.
        -- apply Z0. apply in_or_app. left. exact Hp.
        -- intro E. apply N2. apply in_map_iff. exists p.
           split; [lia | exact Hp].
    + rewrite app_nil_r.
      rewrite (IH used k L ltac:(lia) N1).
      * reflexivity.
      * intros p Hp. apply Z0. apply in_or_app. left. exact Hp.
Qed.

Lemma keyStateChanged_fires (down : KeyPress -> bool) (k : Keyboard) :
  mappingInv k -> keysPressed k = 0 ->
  sent (snd (keyStateChanged down k))
  = sent k ++ firedBy down k (bindings k).
Proof.
  intros [L N] Z0. unfold keyStateChanged.
  rewrite keyStateLoop_fires.
  - rewrite L, <- (bindings_length k L), firstn_all. reflexivity.
  - exact L.
  - lia.
  - rewrite L, <- (bindings_length k L), firstn_all.
    rewrite <- (keyPressNotes_bindings k L). exact N.
  - intros p _. rewrite Z0. apply Z.bits_0.
Qed.

(** C6, as the code has it.  setKeyPressForNote first removes every binding
    of the offset [o], whatever its key, then appends [(key, o)].  The two
    arrays keep one length and no offset is bound twice; this holds after
    any sequence of calls on a constructed widget.  With no key held
    before, pressing [key] afterwards sends note-on for every binding of
    [key], last binding first: for the new offset [o], and also for every
    other offset [key] is still bound to. *)
Theorem setKeyPressForNote_rebinds_offset
    (k : Keyboard) (key : KeyPress) (o : Z) (Hinv : mappingInv k) :
  let k' := setKeyPressForNote key o k in
  let pressed := fun kp => KeyPress_eqb kp key in
  let fired := firedBy pressed k' (bindings k') in
  bindings k' = filter (otherOffset o) (bindings k) ++ [(key, o)]
  /\ length (keyPresses k') = length (keyPressNotes k')
  /\ NoDup (keyPressNotes k')
  /\ (forall acts tableRatio orient,
        NoDup (keyPressNotes (run acts (construct tableRatio orient))))
  /\ (keysPressed k = 0 ->
      sent (snd (keyStateChanged pressed k')) = sent k' ++ fired
      /\ In (noteOn (midiChannel k') (12 * keyMappingOctave k' + o)
               (velocity k')) fired
      /\ (forall r, In r fired ->
            exists o', In (key, o') (bindings k')
                       /\ r = noteOn (midiChannel k')
                                (12 * keyMappingOctave k' + o')
                                (velocity k'))).
Proof.
  intros k' pressed fired.
  destruct Hinv as [L N].
  destruct (setKeyPressForNote_bindings key o k L) as [B L'].
  destruct (setKeyPressForNote_inv key o k (conj L N)) as [_ N'].
  split; [exact B|]. split; [exact L'|]. split; [exact N'|].
  split.
  { intros acts r orient.
    apply (run_mappingInv acts (construct r orient)).
    apply construct_mappingInv. }
  intro Z0.
  assert (Z0' : keysPressed k' = 0).
  { unfold k'.
    rewrite (setKeyPressForNote_frame keysPressed) by reflexivity.
    exact Z0. }
  split; [apply keyStateChanged_fires; [split; assumption | exact Z0']|].
  split.
  - unfold fired, firedBy. apply in_map_iff. exists (key, o).
    split; [reflexivity|].
    apply in_rev. rewrite rev_involutive. apply filter_In. split.
    + fold k' in B. rewrite B. apply in_or_app. right. left. reflexivity.
    + unfold pressed. cbn [fst]. apply KeyPress_eqb_eq. reflexivity.
  - intros r Hr. unfold fired, firedBy in Hr.
    apply in_map_iff in Hr. destruct Hr as [[kp o'] [E Hp]].
    apply in_rev in Hp.
    apply filter_In in Hp. destruct Hp as [Hin Hk].
    unfold pressed in Hk. cbn [fst] in Hk. apply KeyPress_eqb_eq in Hk.
    subst kp. exists o'. split; [exact Hin | symmetry; exact E].
Qed.

Lemma setKeyPressForNote_rebinds_offset_witness :
  let k := construct (7#10) horizontalKeyboard in
  let k' := setKeyPressForNote keyA 5 k in
  mappingInv k
  /\ NoDup (keyPressNotes k')
  /\ bindings k' = filter (otherOffset 5) (bindings k) ++ [(keyA, 5)].
Proof.
  intros k k'.
  assert (Hinv : mappingInv k) by apply construct_mappingInv.
  destruct (setKeyPressForNote_rebinds_offset k keyA 5 Hinv)
    as [B [_ [N _]]].
  split; [exact Hinv|]. split; [exact N | exact B].
Defined.

(** C6 as stated fails.  On a new widget the key [a] is bound to offset 0.
    Binding it to offset 5 removes the old binding of offset 5 (the key
    [f]), not the old binding of [a]: pressing [a] then sends note-on for
    both offsets, 72 + 5 and 72 + 0. *)
Lemma rebound_key_fires_both_offsets :
  let k := setKeyPressForNote keyA 5 (construct (7#10) horizontalKeyboard) in
  In (keyA, 0) (bindings k) /\ In (keyA, 5) (bindings k)
  /\ sent (snd (keyStateChanged (fun kp => KeyPress_eqb kp keyA) k))
     = sent k ++ [noteOn 1 77 1; noteOn 1 72 1].
Proof.
  cbv zeta. split; [|split].
  - vm_compute. left. reflexivity.
  - vm_compute. do 17 right. left. reflexivity.
  - vm_compute. reflexivity.
Qed.

(** ** Pointer tracker: one entry per source *)

Lemma sameSource_key (s : MouseInputSource) (x : InputIndex) :
  sameSource s x = true <-> sourceKey x = sourceId s.
Proof.
  unfold sameSource, sourceKey, sourceId.
  rewrite andb_true_iff, InputSourceType_eqb_eq, Z.eqb_eq.
  split; [intros [-> ->]; reflexivity | intro H; inversion H; auto].
Qed.

Lemma find_if_None {A : Type} (p : A -> bool) (l : list A) :
  find_if p l = None -> forall x, In x l -> p x = false.
Proof.
  induction l as [|y l IH]; cbn [find_if]; intros H x Hx; [destruct Hx|].
  destruct (p y) eqn:E; [discriminate|].
  destruct (find_if p l); [discriminate|].
  destruct Hx as [<- | Hx]; [exact E | apply IH; auto].
Qed.

Lemma find_if_Some {A : Type} (p : A -> bool) (l : list A) : forall i,
  find_if p l = Some i ->
  exists x, nth_error l i = Some x /\ p x = true.
Proof.
  induction l as [|y l IH]; cbn [find_if]; intros i H; [discriminate|].
  destruct (p y) eqn:E.
  - inversion H; subst i. exists y. auto.
  - destruct (find_if p l) as [j|]; [|discriminate].
    inversion H; subst i. apply (IH j). reflexivity.
Qed.

Lemma validNotes_nth (l : list InputIndex) (i : nat) (x : InputIndex) :
  validNotes l -> nth_error l i = Some x -> 0 <= noteNumber x.
Proof.
  intros V H. apply nth_error_In in H.
  unfold validNotes in V. rewrite Forall_forall in V. auto.
Qed.

(** With every entry carrying a note, the note read through the iterator is
    -1 exactly when the source has no entry. *)
Lemma noteAt_absent (s : MouseInputSource) (l : list InputIndex) :
  validNotes l ->
  noteAt l (find_if (sameSource s) l) < 0 ->
  find_if (sameSource s) l = None /\ ~ In (sourceId s) (map sourceKey l).
Proof.
  intros V H.
  destruct (find_if (sameSource s) l) as [i|] eqn:F.
  - destruct (find_if_Some _ _ _ F) as [x [N _]].
    cbn [noteAt] in H. rewrite N in H.
    pose proof (validNotes_nth l i x V N). lia.
  - split; [reflexivity|].
    intro Hin. apply in_map_iff in Hin. destruct Hin as [x [E Hx]].
    apply sameSource_key in E.
    rewrite (find_if_None _ _ F x Hx) in E. discriminate.
Qed.

Lemma eraseAt_incl {A : Type} (i : nat) (l : list A) (x : A) :
  In x (eraseAt i l) -> In x l.
Proof.
  unfold eraseAt. intro H. apply in_app_or in H.
  rewrite <- (firstn_skipn i l). apply in_or_app.
  destruct H as [H | H]; [left; exact H|].
  right. rewrite <- (firstn_skipn 1 (skipn i l)). apply in_or_app. right.
  rewrite skipn_skipn. exact H.
Qed.

Lemma eraseAt_map {A B : Type} (f : A -> B) (i : nat) (l : list A) :
  map f (eraseAt i l) = eraseAt i (map f l).
Proof.
  unfold eraseAt. rewrite map_app, firstn_map, skipn_map. reflexivity.
Qed.

Lemma eraseAt_NoDup {A : Type} (i : nat) : forall (l : list A),
  NoDup l -> NoDup (eraseAt i l).
Proof.
  induction i as [|i IH]; intros [|x l] H; rewrite ?eraseAt_nil; try exact H.
  - inversion H; assumption.
  - rewrite eraseAt_cons. inversion H as [|? ? Hx Hl]; subst.
    constructor; [|apply IH; exact Hl].
    intro Hin. apply Hx. eapply eraseAt_incl; exact Hin.
Qed.

Lemma eraseAt_removes {A : Type} (i : nat) : forall (l : list A) (x : A),
  NoDup l -> nth_error l i = Some x -> ~ In x (eraseAt i l).
Proof.
  induction i as [|i IH]; intros [|y l] x H N; try discriminate.
  - cbn in N. inversion N; subst y. inversion H; assumption.
  - cbn [nth_error] in N. rewrite eraseAt_cons.
    inversion H as [|? ? Hy Hl]; subst.
    intros [E | Hin].
    + subst y. apply Hy. eapply nth_error_In; exact N.
    + exact (IH l x Hl N Hin).
Qed.

Lemma erase_uniqueSources it (l : list InputIndex) :
  uniqueSources l -> uniqueSources (erase it l).
Proof.
  unfold uniqueSources. destruct it as [i|]; cbn [erase]; [|auto].
  rewrite eraseAt_map. apply eraseAt_NoDup.
Qed.

Lemma erase_validNotes it (l : list InputIndex) :
  validNotes l -> validNotes (erase it l).
Proof.
  unfold validNotes. destruct it as [i|]; cbn [erase]; [|auto].
  rewrite !Forall_forall. intros H x Hx. apply H.
  eapply eraseAt_incl; exact Hx.
Qed.

(** Once the entry found for a source is erased, the source has none. *)
Lemma erase_found_absent (s : MouseInputSource) (l : list InputIndex) :
  uniqueSources l ->
  0 <= noteAt l (find_if (sameSource s) l) ->
  ~ In (sourceId s) (map sourceKey (erase (find_if (sameSource s) l) l)).
Proof.
  intros U H.
  destruct (find_if (sameSource s) l) as [i|] eqn:F;
    [|cbn [noteAt] in H; lia].
  destruct (find_if_Some _ _ _ F) as [x [N P]].
  apply sameSource_key in P. cbn [erase]. rewrite eraseAt_map, <- P.
  apply eraseAt_removes; [exact U|].
  apply map_nth_error. exact N.
Qed.

Lemma assignNote_keys (i : nat) (n : Z) : forall l,
  map sourceKey (assignNote i n l) = map sourceKey l.
Proof.
  induction i as [|i IH]; intros [|x l]; cbn [assignNote map];
    try reflexivity.
  rewrite IH. reflexivity.
Qed.

Lemma assignNote_validNotes (i : nat) (n : Z) : forall l,
  0 <= n -> validNotes l -> validNotes (assignNote i n l).
Proof.
  unfold validNotes.
  induction i as [|i IH]; intros [|x l] Hn V; cbn [assignNote];
    try constructor; inversion V; subst; auto.
Qed.

Lemma snoc_uniqueSources (s : MouseInputSource) (n : Z) (l : list InputIndex) :
  uniqueSources l -> ~ In (sourceId s) (map sourceKey l) ->
  uniqueSources (l ++ [mkInputIndex s n]).
Proof.
  unfold uniqueSources. intros U H. rewrite map_app. cbn [map].
  apply NoDup_app; [exact U | repeat constructor; intros [] |].
  intros x Hx [<- | []]. exact (H Hx).
Qed.

Lemma snoc_validNotes (s : MouseInputSource) (n : Z) (l : list InputIndex) :
  0 <= n -> validNotes l -> validNotes (l ++ [mkInputIndex s n]).
Proof.
  unfold validNotes. intros Hn V. apply Forall_app. split; [exact V|].
  repeat constructor. exact Hn.
Qed.

(** The hit test answers -1 or a note of the available range. *)
Lemma scanKeys_range k x notes m :
  scanKeys k x notes = Some m -> rangeStart k <= m <= rangeEnd k.
Proof.
  unfold scanKeys. intro H. apply scanOctaves_Some in H. tauto.
Qed.

Lemma remappedXYToNote_range (k : Keyboard) (pos : Q * Q) :
  fst (remappedXYToNote k pos) = -1
  \/ rangeStart k <= fst (remappedXYToNote k pos) <= rangeEnd k.
Proof.
  unfold remappedXYToNote. cbv zeta.
  destruct (scanKeys k (fst pos - xOffset k) whiteNotes) as [w|] eqn:W;
    destruct (scanKeys k (fst pos - xOffset k) blackNotes) as [b|] eqn:B;
    destruct (Qltb (snd pos) (getBlackNoteLength k)); cbn [fst];
    try (left; reflexivity);
    right; eauto using scanKeys_range.
Qed.

Lemma xyToNote_range (k : Keyboard) (pos : Q * Q) :
  fst (xyToNote k pos) = -1
  \/ rangeStart k <= fst (xyToNote k pos) <= rangeEnd k.
Proof.
  unfold xyToNote.
  destruct (negb (reallyContains k _)); [left; reflexivity|].
  apply remappedXYToNote_range.
Qed.

Lemma updateHover_over (s : MouseInputSource) (n : Z) (k : Keyboard) :
  let l := mouseOverNotes k in
  let it := find_if (sameSource s) l in
  n = -1 \/ 0 <= n ->
  uniqueSources l -> validNotes l ->
  uniqueSources (mouseOverNotes (updateHover it (noteAt l it) n s k))
  /\ validNotes (mouseOverNotes (updateHover it (noteAt l it) n s k)).
Proof.
  intros l it Hn U V. unfold updateHover.
  assert (R : mouseOverNotes (repaintNote n (repaintNote (noteAt l it) k)) = l)
    by (rewrite !(repaintNote_frame mouseOverNotes) by reflexivity;
        reflexivity).
  destruct (negb (noteAt l it =? n)) eqn:E; [|split; assumption].
  cbv zeta.
  destruct (n =? -1) eqn:E1.
  - fields. rewrite R.
    split; [apply erase_uniqueSources | apply erase_validNotes]; assumption.
  - apply Z.eqb_neq in E1.
    assert (Hn' : 0 <= n) by lia.
    destruct (noteAt l it =? -1) eqn:E2.
    + apply Z.eqb_eq in E2. fields. rewrite R.
      destruct (noteAt_absent s l V ltac:(fold it; lia)) as [_ A].
      split; [apply snoc_uniqueSources | apply snoc_validNotes]; assumption.
    + destruct it as [i|] eqn:I.
      * fields. rewrite R. unfold uniqueSources.
        rewrite assignNote_keys.
        split; [exact U | apply assignNote_validNotes; assumption].
      * rewrite R. split; assumption.
Qed.

Lemma releaseHeld_down it n v k :
  mouseDownNotes (releaseHeld it n v k) = erase it (mouseDownNotes k).
Proof. unfold releaseHeld. branches; reflexivity. Qed.

Lemma updatePress_down (s : MouseInputSource) (n : Z) (v : Q) (d : bool)
    (k : Keyboard) :
  let l := mouseDownNotes k in
  let it := find_if (sameSource s) l in
  n = -1 \/ 0 <= n ->
  uniqueSources l -> validNotes l ->
  uniqueSources (mouseDownNotes (updatePress it (noteAt l it) n v d s k))
  /\ validNotes (mouseDownNotes (updatePress it (noteAt l it) n v d s k)).
Proof.
  intros l it Hn U V. unfold updatePress.
  destruct d.
  - destruct (n =? noteAt l it); [split; assumption|].
    cbv zeta.
    set (k2 := if 0 <=? noteAt l it
               then releaseHeld it (noteAt l it) v k else k).
    assert (K2 : uniqueSources (mouseDownNotes k2)
                 /\ validNotes (mouseDownNotes k2)
                 /\ ~ In (sourceId s) (map sourceKey (mouseDownNotes k2))).
    { unfold k2. destruct (0 <=? noteAt l it) eqn:E.
      - apply Z.leb_le in E. rewrite releaseHeld_down. fold l.
        split; [apply erase_uniqueSources; exact U|].
        split; [apply erase_validNotes; exact V|].
        apply erase_found_absent; assumption.
      - apply Z.leb_gt in E. fold l.
        destruct (noteAt_absent s l V E) as [_ A]. auto. }
    destruct K2 as [U2 [V2 A2]].
    destruct ((0 <=? n) && negb (containsNoteNumber (mouseDownNotes k2) n))
      eqn:E; [|split; assumption].
    apply andb_true_iff in E. destruct E as [E _]. apply Z.leb_le in E.
    fields.
    split; [apply snoc_uniqueSources | apply snoc_validNotes]; assumption.
  - destruct (noteAt l it <? 0); [split; assumption|].
    rewrite releaseHeld_down.
    split; [apply erase_uniqueSources | apply erase_validNotes]; assumption.
Qed.

Lemma containsNoteNumber_false (l : list InputIndex) (n : Z) :
  containsNoteNumber l n = false -> ~ In n (map noteNumber l).
Proof.
  unfold containsNoteNumber. intros H Hin.
  apply in_map_iff in Hin. destruct Hin as [x [E Hx]].
  assert (T : existsb (fun x => noteNumber x =? n) l = true)
    by (apply existsb_exists; exists x; split; [exact Hx | lia]).
  congruence.
Qed.

Lemma erase_distinctNotes it (l : list InputIndex) :
  distinctNotes l -> distinctNotes (erase it l).
Proof.
  unfold distinctNotes. destruct it as [i|]; cbn [erase]; [|auto].
  rewrite eraseAt_map. apply eraseAt_NoDup.
Qed.

(** The press list never comes to hold one note twice: an entry is added
    only for a note that no entry carries. *)
Lemma updatePress_distinct it o n v d s k :
  distinctNotes (mouseDownNotes k) ->
  distinctNotes (mouseDownNotes (updatePress it o n v d s k)).
Proof.
  intro N. unfold updatePress.
  destruct d.
  - destruct (n =? o); [exact N|].
    cbv zeta.
    set (k2 := if 0 <=? o then releaseHeld it o v k else k).
    assert (N2 : distinctNotes (mouseDownNotes k2)).
    { unfold k2. destruct (0 <=? o); [|exact N].
      rewrite releaseHeld_down. apply erase_distinctNotes. exact N. }
    destruct ((0 <=? n) && negb (containsNoteNumber (mouseDownNotes k2) n))
      eqn:E; [|exact N2].
    apply andb_true_iff in E. destruct E as [_ E].
    apply negb_true_iff, containsNoteNumber_false in E.
    fields. unfold distinctNotes. rewrite map_app. cbn [map].
    apply NoDup_app; [exact N2 | repeat constructor; intros [] |].
    intros x Hx [<- | []]. exact (E Hx).
  - destruct (o <? 0); [exact N|].
    rewrite releaseHeld_down. apply erase_distinctNotes. exact N.
Qed.

Lemma updateNoteUnderMouse_trackerInv pos d s u k :
  trackerInv k -> trackerInv (updateNoteUnderMouse pos d s u k).
Proof.
  intros [R [UO [VO [UD [VD ND]]]]].
  assert (Hn : fst (xyToNote k pos) = -1 \/ 0 <= fst (xyToNote k pos))
    by (destruct (xyToNote_range k pos); [left; assumption | right; lia]).
  unfold trackerInv.
  rewrite (updateNoteUnderMouse_frame rangeStart) by reflexivity.
  split; [exact R|].
  unfold updateNoteUnderMouse. cbv zeta.
  rewrite (updatePress_frame mouseOverNotes) by reflexivity.
  destruct (updateHover_over s (fst (xyToNote k pos)) k Hn UO VO) as [A B].
  split; [exact A|]. split; [exact B|].
  set (h := updateHover _ _ _ _ k).
  assert (D : mouseDownNotes h = mouseDownNotes k)
    by (apply (updateHover_frame mouseDownNotes); reflexivity).
  rewrite <- D.
  destruct (updatePress_down s (fst (xyToNote k pos))
              (eventVelocityAt k pos u) d h Hn)
    as [A' B']; [rewrite D; exact UD | rewrite D; exact VD|].
  split; [exact A'|]. split; [exact B'|].
  apply updatePress_distinct. rewrite D. exact ND.
Qed.

Lemma resetAnyKeysInUse_trackerInv k :
  0 <= rangeStart k -> trackerInv (resetAnyKeysInUse k).
Proof.
  intro R. destruct (resetAnyKeysInUse_effect k) as [_ [_ [_ [D O]]]].
  unfold trackerInv, uniqueSources, validNotes, distinctNotes.
  rewrite D, O, (resetAnyKeysInUse_frame rangeStart) by reflexivity.
  repeat split; try exact R; constructor.
Qed.

Lemma trackerOf_reads_only_lists : ReadsOnlyLists trackerOf.
Proof. reads_only_lists. Qed.

Lemma trackerInv_trackerOf (k k' : Keyboard) :
  trackerOf k' = trackerOf k -> trackerInv k -> trackerInv k'.
Proof.
  unfold trackerOf, trackerInv. intro E. inversion E as [[E1 E2 E3]].
  rewrite E1, E2, E3. auto.
Qed.

Lemma timerCallback_trackerInv on srcs k :
  trackerInv k -> trackerInv (timerCallback on srcs k).
Proof.
  intro H. rewrite timerCallback_unfold.
  assert (R : trackerInv (rescan on k)).
  { eapply trackerInv_trackerOf; [|exact H].
    apply rescan_plain, trackerOf_reads_only_lists. }
  destruct (negb (shouldCheckMousePos (rescan on k))); [exact R|].
  revert R. generalize (rescan on k).
  induction srcs as [|ms srcs IH]; intros k0 R; cbn [fold_left]; [exact R|].
  apply IH, updateNoteUnderMouse_trackerInv, R.
Qed.

Lemma step_trackerInv (a : Action) (k : Keyboard) :
  trackerInv k -> trackerInv (step a k).
Proof.
  intro H.
  destruct (plainAction a) eqn:P.
  { eapply trackerInv_trackerOf; [|exact H].
    apply plain_step_frame; [apply trackerOf_reads_only_lists | exact P]. }
  destruct a; try discriminate P; cbn [step].
  - (* setAvailableRange *)
    destruct H as [R T]. unfold trackerInv.
    rewrite (setAvailableRange_plain mouseOverNotes)
      by (try reflexivity; reads_only_lists).
    rewrite (setAvailableRange_plain mouseDownNotes)
      by (try reflexivity; reads_only_lists).
    split; [|exact T].
    unfold setAvailableRange. branches; [|exact R].
    match goal with |- context [resized ?x] =>
      destruct (resized_range x) as [-> _] end.
    fields. apply jlimit_bounds. lia.
  - (* setMidiChannel *)
    unfold setMidiChannel. branches; [|exact H].
    apply (trackerInv_trackerOf (resetAnyKeysInUse k)); [reflexivity|].
    apply resetAnyKeysInUse_trackerInv, H.
  - (* mouseMove *)
    apply (trackerInv_trackerOf
             (updateNoteUnderMouse (position e) false (source e)
                (unsetVelocity e) k));
      [reflexivity|].
    apply updateNoteUnderMouse_trackerInv, H.
  - apply updateNoteUnderMouse_trackerInv, H.
  - unfold mouseDown. branches; [exact H|].
    apply (trackerInv_trackerOf
             (updateNoteUnderMouse (position e) true (source e)
                (unsetVelocity e) k));
      [reflexivity|].
    apply updateNoteUnderMouse_trackerInv, H.
  - apply (trackerInv_trackerOf
             (updateNoteUnderMouse (position e) false (source e)
                (unsetVelocity e) k));
      [reflexivity|].
    apply updateNoteUnderMouse_trackerInv, H.
  - apply updateNoteUnderMouse_trackerInv, H.
  - apply updateNoteUnderMouse_trackerInv, H.
  - apply timerCallback_trackerInv, H.
  - apply resetAnyKeysInUse_trackerInv, H.
  - apply (trackerInv_trackerOf (resetAnyKeysInUse k)); [reflexivity|].
    apply resetAnyKeysInUse_trackerInv, H.
  - eapply trackerInv_trackerOf; [|exact H].
    apply (setKeyPressForNote_frame trackerOf); reflexivity.
  - eapply trackerInv_trackerOf; [|exact H].
    apply (removeKeyPressForNote_frame trackerOf); reflexivity.
Qed.

Lemma run_trackerInv (acts : list Action) : forall k,
  trackerInv k -> trackerInv (run acts k).
Proof.
  unfold run. induction acts as [|a acts IH]; intros k H; cbn [fold_left];
    [exact H|].
  apply IH, step_trackerInv, H.
Qed.

Lemma bindDefaults_tracker (l : list Z) : forall acc,
  trackerOf (snd (bindDefaults l acc)) = trackerOf (snd acc).
Proof.
  unfold bindDefaults.
  induction l as [|c l IH]; intro acc; cbn [fold_left]; [reflexivity|].
  rewrite IH. cbn [snd].
  apply (setKeyPressForNote_frame trackerOf); reflexivity.
Qed.

Lemma construct_trackerInv (tableRatio : Q) (o : Orientation) :
  trackerInv (construct tableRatio o).
Proof.
  rewrite construct_unfold.
  generalize (bindDefaults_tracker defaultKeys
                (O, declaredMembers tableRatio o)).
  generalize (bindDefaults defaultKeys (O, declaredMembers tableRatio o)).
  intros b E. cbn [snd] in E.
  apply (trackerInv_trackerOf (declaredMembers tableRatio o)).
  - rewrite <- E. reflexivity.
  - unfold trackerInv, uniqueSources, validNotes, distinctNotes. cbn.
    repeat split; try lia; constructor.
Qed.

Lemma uniqueSources_lookup (s : MouseInputSource) (l : list InputIndex) :
  uniqueSources l -> (length (filter (sameSource s) l) <= 1)%nat.
Proof.
  unfold uniqueSources.
  induction l as [|x l IH]; cbn [map filter]; intro U; [cbn; lia|].
  inversion U as [|? ? Hx Hl]; subst.
  destruct (sameSource s x) eqn:E; [|auto].
  assert (F : filter (sameSource s) l = []).
  { destruct (filter (sameSource s) l) as [|y r] eqn:Fy; [reflexivity|].
    exfalso. apply Hx.
    assert (Hy : In y (filter (sameSource s) l))
      by (rewrite Fy; left; reflexivity).
    apply filter_In in Hy. destruct Hy as [Hy Sy].
    apply sameSource_key in E, Sy. rewrite E, <- Sy.
    apply in_map. exact Hy. }
  rewrite F. cbn. lia.
Qed.

(** C10.  In every state a constructed widget reaches, by whatever sequence
    of calls, the hover list and the press list hold at most one entry per
    pointer source: the identities of the entries are pairwise distinct,
    and a lookup by source matches at most one entry.  A further pointer
    event through updateNoteUnderMouse, and resetAnyKeysInUse, keep it
    so. *)
Theorem tracker_one_entry_per_source
    (acts : list Action) (tableRatio : Q) (o : Orientation) :
  let k := run acts (construct tableRatio o) in
  (uniqueSources (mouseOverNotes k) /\ uniqueSources (mouseDownNotes k))
  /\ (forall s,
        (length (filter (sameSource s) (mouseOverNotes k)) <= 1)%nat
        /\ (length (filter (sameSource s) (mouseDownNotes k)) <= 1)%nat)
  /\ (forall pos isDown s unset,
        let k' := updateNoteUnderMouse pos isDown s unset k in
        uniqueSources (mouseOverNotes k')
        /\ uniqueSources (mouseDownNotes k'))
  /\ (let k' := resetAnyKeysInUse k in
      uniqueSources (mouseOverNotes k') /\ uniqueSources (mouseDownNotes k')).
Proof.
  intro k.
  assert (I : trackerInv k)
    by (apply run_trackerInv, construct_trackerInv).
  split; [|split; [|split]].
  - destruct I as [_ [UO [_ [UD _]]]]. auto.
  - destruct I as [_ [UO [_ [UD _]]]].
    intro s. split; apply uniqueSources_lookup; assumption.
  - intros pos d s u k'.
    destruct (updateNoteUnderMouse_trackerInv pos d s u k I)
      as [_ [UO [_ [UD _]]]]. auto.
  - destruct I as [R _].
    destruct (resetAnyKeysInUse_trackerInv k R) as [_ [UO [_ [UD _]]]]. auto.
Qed.

(** ** Pointer tracker: two sources on one note *)

(** C2 at its failing input.  In no reachable state does the press list
    carry one note twice, so the test for another holder after an entry is
    erased never finds one.  On a sized default widget the mouse presses
    note 0 (note-on), then a touch presses note 0 as well: no entry is
    recorded for the touch.  When the mouse is released the note-off for
    note 0 is sent although the touch still holds the key. *)
Theorem release_of_first_holder_sends_note_off
    (acts : list Action) (tableRatio : Q) (o : Orientation) :
  distinctNotes (mouseDownNotes (run acts (construct tableRatio o)))
  /\ (let k0 := sizedKeyboard 1300 60 in
      let k1 := mouseDown (onLowestKey firstMouse) k0 in
      let k2 := mouseDown (onLowestKey firstTouch) k1 in
      let k3 := mouseUp (onLowestKey firstMouse) k2 in
      sourceId firstMouse <> sourceId firstTouch
      /\ getNoteAtPosition k0 (5, 5)%Q = 0
      /\ sent k1 = sent k0 ++ [repaintKey 0; noteOn 1 0 (5#60)]
      /\ sent k2 = sent k1 ++ [repaintKey 0]
      /\ mouseDownNotes k2 = [mkInputIndex firstMouse 0]
      /\ sent k3 = sent k2 ++ [noteOff 1 0 (5#60)]
      /\ mouseDownNotes k3 = []).
Proof.
  split.
  - assert (I : trackerInv (run acts (construct tableRatio o)))
      by (apply run_trackerInv, construct_trackerInv).
    destruct I as [_ [_ [_ [_ [_ N]]]]]. exact N.
  - cbv zeta. split; [discriminate|].
    repeat match goal with |- _ /\ _ => split end; vm_compute; reflexivity.
Qed.

(** * Further properties of the code *)

(** ** Key colours: the bit mask and the two tables *)

Lemma octave_list_colour (m : Z) :
  0 <= m ->
  inOctaveList blackNotes m = isMidiNoteBlack m
  /\ inOctaveList whiteNotes m = negb (isMidiNoteBlack m).
Proof.
  intro Hm. unfold inOctaveList, isMidiNoteBlack.
  destruct (rem12_cases m Hm) as
    [E|[E|[E|[E|[E|[E|[E|[E|[E|[E|[E|E]]]]]]]]]]];
    rewrite E; split; reflexivity.
Qed.

(** X6.  The bit mask of isMidiNoteBlack and the two tables of the file
    agree: a note (from 0 up) is black exactly when its place in the octave
    is listed in [blackNotes], and white exactly when it is listed in
    [whiteNotes]; no place is in both tables. *)
Theorem colour_mask_agrees_with_tables (n : Z) (Hn : 0 <= n) :
  (isMidiNoteBlack n = true <-> In (Z.rem n 12) blackNotes)
  /\ (isMidiNoteBlack n = false <-> In (Z.rem n 12) whiteNotes)
  /\ ~ (In (Z.rem n 12) blackNotes /\ In (Z.rem n 12) whiteNotes).
Proof.
  destruct (octave_list_colour n Hn) as [B W].
  rewrite <- !inOctaveList_In, B, W.
  destruct (isMidiNoteBlack n); cbn [negb]; intuition congruence.
Qed.

Lemma colour_mask_agrees_with_tables_witness :
  0 <= 61 /\ isMidiNoteBlack 61 = true /\ In (Z.rem 61 12) blackNotes.
Proof.
  assert (Hn : 0 <= 61) by lia.
  destruct (colour_mask_agrees_with_tables 61 Hn) as [[B _] _].
  split; [exact Hn|]. split; [reflexivity | apply B; reflexivity].
Defined.

(** ** Hit test: what an answer means *)

Lemma scanKeys_Some_sound (k : Keyboard) (x : Q) (notes : list Z) (m : Z) :
  notes = blackNotes \/ notes = whiteNotes ->
  0 <= rangeStart k ->
  scanKeys k x notes = Some m ->
  rangeStart k <= m <= rangeEnd k
  /\ contains (getKeyPos k m) x = true
  /\ inOctaveList notes m = true.
Proof.
  intros Hc Hrs H. unfold scanKeys in H.
  apply scanOctaves_Some in H.
  destruct H as [[i [j [Hin Hm]]] [Hr Hcont]].
  pose proof (octave_members notes j Hc Hin) as Hj.
  octave_facts (rangeStart k).
  split; [exact Hr|]. split; [exact Hcont|].
  apply inOctaveList_In.
  replace m with (12 * (Z.quot (rangeStart k) 12 + Z.of_nat i) + j) by lia.
  rewrite rem_octave by lia. exact Hin.
Qed.

Lemma scanKeys_None_complete (k : Keyboard) (x : Q) (notes : list Z) (m : Z) :
  0 <= rangeStart k ->
  scanKeys k x notes = None ->
  rangeStart k <= m <= rangeEnd k ->
  inOctaveList notes m = true ->
  contains (getKeyPos k m) x = false.
Proof.
  intros Hrs H Hm Hin. unfold scanKeys in H.
  apply inOctaveList_In in Hin.
  pose proof (octaveFuel_enough k m ltac:(lia) ltac:(lia)) as Hf.
  octave_facts m. octave_facts (rangeStart k).
  pose proof
    (scanOctaves_None _ _ _ _ _
       (Z.to_nat (Z.quot m 12 - Z.quot (rangeStart k) 12))
       (Z.rem m 12) H Hf Hin) as N.
  replace (12 * Z.quot (rangeStart k) 12
           + 12 * Z.of_nat
                    (Z.to_nat (Z.quot m 12 - Z.quot (rangeStart k) 12))
           + Z.rem m 12) with m in N by lia.
  apply N; lia.
Qed.

Lemma remappedXYToNote_sound (k : Keyboard) (pos : Q * Q) :
  0 <= rangeStart k ->
  let n := fst (remappedXYToNote k pos) in
  n = -1
  \/ (rangeStart k <= n <= rangeEnd k
      /\ contains (getKeyPos k n) (fst pos - xOffset k) = true
      /\ (isMidiNoteBlack n = true ->
          (snd pos < getBlackNoteLength k)%Q)).
Proof.
  intros Hrs n. unfold n, remappedXYToNote. cbv zeta.
  destruct (scanKeys k (fst pos - xOffset k) whiteNotes) as [w|] eqn:W;
    destruct (scanKeys k (fst pos - xOffset k) blackNotes) as [b|] eqn:B;
    destruct (Qltb (snd pos) (getBlackNoteLength k)) eqn:Y; cbn [fst];
    try (left; reflexivity); right.
  all: try (destruct (scanKeys_Some_sound k _ blackNotes b
                        (or_introl eq_refl) Hrs B) as [R [Cn _]];
            split; [exact R|]; split; [exact Cn|];
            intros _; apply Qltb_lt; exact Y).
  all: destruct (scanKeys_Some_sound k _ whiteNotes w
                   (or_intror eq_refl) Hrs W) as [R [Cn Wh]];
    split; [exact R|]; split; [exact Cn|];
    intro Bl;
    destruct (octave_list_colour w ltac:(lia)) as [_ E];
    rewrite Wh, Bl in E; discriminate E.
Qed.

(** X1.  Soundness of the hit test.  For a range that starts at 0 or above,
    remappedXYToNote answers -1 or a note of the range whose span contains
    the horizontal coordinate; a black note is answered only for a point
    above the black-note length. *)
Theorem hit_test_answers_a_key_under_the_point
    (k : Keyboard) (pos : Q * Q) (Hrs : 0 <= rangeStart k) :
  let n := fst (remappedXYToNote k pos) in
  n = -1
  \/ (rangeStart k <= n <= rangeEnd k
      /\ contains (getKeyPos k n) (fst pos - xOffset k) = true
      /\ (isMidiNoteBlack n = true ->
          (snd pos < getBlackNoteLength k)%Q)).
Proof. apply remappedXYToNote_sound. exact Hrs. Qed.

Lemma hit_test_answers_a_key_under_the_point_witness :
  let k := sizedKeyboard 1300 60 in
  0 <= rangeStart k
  /\ fst (remappedXYToNote k (12, 5)%Q) = 1
  /\ contains (getKeyPos k 1) (12 - xOffset k)%Q = true
  /\ (5 < getBlackNoteLength k)%Q.
Proof.
  intro k.
  assert (Hrs : 0 <= rangeStart k) by by_evaluation.
  assert (E : fst (remappedXYToNote k (12, 5)%Q) = 1) by by_evaluation.
  destruct (hit_test_answers_a_key_under_the_point k (12, 5)%Q Hrs)
    as [O | [_ [Cn Bl]]].
  - rewrite E in O. discriminate O.
  - rewrite E in Cn, Bl.
    split; [exact Hrs|]. split; [exact E|]. split; [exact Cn|].
    apply Bl. reflexivity.
Defined.

(** X2.  Completeness of the hit test.  For a range that starts at 0 or
    above, remappedXYToNote answers -1 only when no white key of the range
    contains the horizontal coordinate, and, for a point above the
    black-note length, no black key either. *)
Theorem hit_test_misses_only_outside_the_keys
    (k : Keyboard) (pos : Q * Q) (m : Z)
    (Hrs : 0 <= rangeStart k)
    (Hnone : fst (remappedXYToNote k pos) = -1)
    (Hm : rangeStart k <= m <= rangeEnd k)
    (Hc : isMidiNoteBlack m = false
          \/ (snd pos < getBlackNoteLength k)%Q) :
  contains (getKeyPos k m) (fst pos - xOffset k) = false.
Proof.
  unfold remappedXYToNote in Hnone. cbv zeta in Hnone.
  destruct (octave_list_colour m ltac:(lia)) as [Bm Wm].
  destruct (scanKeys k (fst pos - xOffset k) whiteNotes) as [w|] eqn:W.
  { (* a white key was found: the answer is a note of the range *)
    destruct (scanKeys_Some_sound k _ whiteNotes w (or_intror eq_refl) Hrs W)
      as [R _].
    destruct (scanKeys k (fst pos - xOffset k) blackNotes) as [b|] eqn:B;
      destruct (Qltb (snd pos) (getBlackNoteLength k));
      cbn [fst] in Hnone; try lia.
    destruct (scanKeys_Some_sound k _ blackNotes b (or_introl eq_refl) Hrs B)
      as [R' _]. lia. }
  destruct (isMidiNoteBlack m) eqn:Bl.
  - destruct Hc as [Hc | Hc]; [discriminate|].
    apply Qltb_lt in Hc. rewrite Hc in Hnone.
    destruct (scanKeys k (fst pos - xOffset k) blackNotes) as [b|] eqn:B.
    + destruct (scanKeys_Some_sound k _ blackNotes b (or_introl eq_refl)
                  Hrs B) as [R' _].
      cbn [fst] in Hnone. lia.
    + apply (scanKeys_None_complete k _ blackNotes m Hrs B Hm). exact Bm.
  - apply (scanKeys_None_complete k _ whiteNotes m Hrs W Hm). exact Wm.
Qed.

Lemma hit_test_misses_only_outside_the_keys_witness :
  let k := sizedKeyboard 1300 60 in
  fst (remappedXYToNote k (1250, 5)%Q) = -1
  /\ contains (getKeyPos k 127) (1250 - xOffset k)%Q = false.
Proof.
  intro k.
  assert (Hrs : 0 <= rangeStart k) by by_evaluation.
  assert (Hnone : fst (remappedXYToNote k (1250, 5)%Q) = -1)
    by by_evaluation.
  assert (Hm : rangeStart k <= 127 <= rangeEnd k) by by_evaluation.
  split; [exact Hnone|].
  apply (hit_test_misses_only_outside_the_keys k (1250, 5)%Q 127 Hrs Hnone Hm).
  left. reflexivity.
Defined.

(** ** Hit test: the vertical orientations *)

Lemma remappedXYToNote_at_centre
    (k : Keyboard) (n : Z) (px y : Q) :
  (blackNoteWidthRatio k == 7#10)%Q -> (notePosRatio k == 7#10)%Q ->
  (0 < keyWidth k)%Q ->
  0 <= rangeStart k -> rangeEnd k <= 127 ->
  rangeStart k <= n <= rangeEnd k ->
  (px - xOffset k == centre (getKeyPos k n))%Q ->
  (isMidiNoteBlack n = true -> (y < getBlackNoteLength k)%Q) ->
  fst (remappedXYToNote k (px, y)) = n.
Proof.
  intros Hratio Htable Hkw Hlow Hhigh Hn Hx Hy.
  pose proof (colour_list n ltac:(lia)) as Hc.
  unfold remappedXYToNote; cbn [fst snd].
  destruct (isMidiNoteBlack n) eqn:B.
  - specialize (Hy eq_refl). apply Qltb_lt in Hy. rewrite Hy.
    rewrite (scanKeys_finds_own_colour k Hratio Htable Hkw Hlow Hhigh n Hn
               _ Hx blackNotes (or_introl eq_refl) Hc).
    reflexivity.
  - rewrite (scanKeys_black_misses_white k Hratio Htable Hkw Hlow Hhigh n Hn
               _ Hx B).
    rewrite (scanKeys_finds_own_colour k Hratio Htable Hkw Hlow Hhigh n Hn
               _ Hx whiteNotes (or_intror eq_refl) Hc).
    destruct (Qltb y (getBlackNoteLength k)); reflexivity.
Qed.



(** ** Hit test and drawing agree *)

Lemma contains_bounds (r : Range) (x : Q) :
  contains r x = true -> (getStart r <= x /\ x < getStart r + getLength r)%Q.
Proof.
  unfold contains, getLength. intro H. apply andb_true_iff in H.
  destruct H as [H1 H2]. apply Qle_bool_iff in H1. apply Qltb_lt in H2.
  split; lra.
Qed.

(** X4.  The key the hit test answers is the key drawn under the point.
    For a horizontal or a left-facing keyboard whose range starts at 0 or
    above, if xyToNote answers a note for a point within the bounds, the
    rectangle getRectangleForKey gives for that note contains the point. *)
Theorem answered_key_is_drawn_under_the_point
    (k : Keyboard) (px py : Q)
    (Hrs : 0 <= rangeStart k)
    (Ho : orientation k <> verticalKeyboardFacingRight)
    (Hx : (0 <= px < inject_Z (getWidth k))%Q)
    (Hy : (0 <= py < inject_Z (getHeight k))%Q)
    (Hhit : fst (xyToNote k (px, py)) <> -1) :
  insideRectangle (getRectangleForKey k (fst (xyToNote k (px, py)))) px py.
Proof.
  unfold xyToNote in *. cbn [fst snd] in *.
  destruct (negb (reallyContains k (truncToInt px, truncToInt py)));
    [cbn [fst] in Hhit; lia|].
  destruct (orientation k) eqn:O; [| |contradiction]; cbn [fst snd] in *.
  - (* horizontal *)
    destruct (remappedXYToNote_sound k ((px + xOffset k)%Q, py) Hrs)
      as [E | [R [Cn Bl]]]; [contradiction|].
    cbn [fst snd] in Cn, Bl.
    apply contains_bounds in Cn.
    unfold insideRectangle, getRectangleForKey. rewrite O.
    destruct (isMidiNoteBlack _) eqn:B; cbn [rectX rectY rectW rectH];
      [specialize (Bl eq_refl)|]; repeat split; lra.
  - (* facing left *)
    destruct (remappedXYToNote_sound k
                ((py + xOffset k)%Q, (inject_Z (getWidth k) - px)%Q) Hrs)
      as [E | [R [Cn Bl]]]; [contradiction|].
    cbn [fst snd] in Cn, Bl.
    apply contains_bounds in Cn.
    unfold insideRectangle, getRectangleForKey. rewrite O.
    destruct (isMidiNoteBlack _) eqn:B; cbn [rectX rectY rectW rectH];
      [specialize (Bl eq_refl)|]; repeat split; lra.
Qed.

Lemma answered_key_is_drawn_under_the_point_witness :
  let k := sizedKeyboard 1300 60 in
  fst (xyToNote k (12, 5)%Q) = 1
  /\ insideRectangle (getRectangleForKey k 1) 12 5.
Proof.
  intro k.
  assert (Hrs : 0 <= rangeStart k) by by_evaluation.
  assert (Ho : orientation k <> verticalKeyboardFacingRight)
    by by_evaluation.
  assert (Hx : (0 <= 12 < inject_Z (getWidth k))%Q) by by_evaluation.
  assert (Hy : (0 <= 5 < inject_Z (getHeight k))%Q) by by_evaluation.
  assert (E : fst (xyToNote k (12, 5)%Q) = 1) by by_evaluation.
  assert (Hhit : fst (xyToNote k (12, 5)%Q) <> -1) by (rewrite E; lia).
  split; [exact E|].
  rewrite <- E at 1.
  exact (answered_key_is_drawn_under_the_point k 12 5 Hrs Ho Hx Hy Hhit).
Defined.

(** ** Geometry: the keys run in note order *)

Lemma quot_octave (a j : Z) :
  0 <= a -> 0 <= j < 12 -> Z.quot (12 * a + j) 12 = a.
Proof.
  intros Ha Hj. symmetry. apply (Z.quot_unique _ _ a j); lia.
Qed.

Lemma tablePos_octave (ratio : Q) (a j : Z) :
  0 <= a -> 0 <= j < 12 ->
  tablePos ratio (12 * a + j)
  = (inject_Z a * 7 + nth (Z.to_nat j) (notePos ratio) 0)%Q.
Proof.
  intros Ha Hj. unfold tablePos.
  rewrite quot_octave, rem_octave by assumption. reflexivity.
Qed.

(** Evaluation of the closed table indices of the goal. *)
Ltac table_index :=
  repeat match goal with
         | |- context [Z.to_nat ?j] =>
             let v := eval vm_compute in (Z.to_nat j) in
             progress change (Z.to_nat j) with v
         end;
  cbn [nth notePos].

Lemma tablePos_step (ratio : Q) (n : Z) :
  (0 <= ratio <= 1)%Q -> 0 <= n ->
  (tablePos ratio n <= tablePos ratio (n + 1))%Q.
Proof.
  intros Hr Hn.
  pose proof (Z.quot_rem' n 12) as Hq.
  assert (Ha : 0 <= Z.quot n 12) by (apply Z.quot_pos; lia).
  set (a := Z.quot n 12) in *.
  destruct (rem12_cases n Hn) as
    [E|[E|[E|[E|[E|[E|[E|[E|[E|[E|[E|E]]]]]]]]]]];
    rewrite E in Hq.
  12: { replace n with (12 * a + 11) by lia.
        replace (12 * a + 11 + 1) with (12 * (a + 1) + 0) by lia.
        rewrite !tablePos_octave by lia.
        rewrite inject_Z_plus. table_index.
        change (inject_Z 1) with 1%Q. lra. }
  all: match type of Hq with
       | ?x = 12 * ?q + ?j =>
           replace x with (12 * q + j) by lia;
           replace (12 * q + j + 1) with (12 * q + (j + 1)) by lia;
           rewrite !tablePos_octave by lia;
           table_index; lra
       end.
Qed.

Lemma tablePos_monotone (ratio : Q) (m : Z) (d : nat) :
  (0 <= ratio <= 1)%Q -> 0 <= m ->
  (tablePos ratio m <= tablePos ratio (m + Z.of_nat d))%Q.
Proof.
  intros Hr Hm. induction d as [|d IH].
  - replace (m + Z.of_nat 0) with m by lia. lra.
  - replace (m + Z.of_nat (S d)) with (m + Z.of_nat d + 1) by lia.
    pose proof (tablePos_step ratio (m + Z.of_nat d) Hr ltac:(lia)). lra.
Qed.

(** X5.  The keys run in note order.  When the ratio behind the static
    table lies in 0..1 and the key width is not negative, a higher note
    never starts before a lower one: for notes [0 <= m <= n] the span of
    [n] starts at or after the start of the span of [m], for any target key
    width and, in the widget's coordinates, for getKeyStartPosition. *)
Theorem key_starts_follow_note_order
    (k : Keyboard) (m n : Z) (u : Q)
    (Hr : (0 <= notePosRatio k <= 1)%Q)
    (Hu : (0 <= u)%Q) (Hkw : (0 <= keyWidth k)%Q)
    (Hmn : 0 <= m <= n) :
  (getStart (getKeyPosition k m u) <= getStart (getKeyPosition k n u))%Q
  /\ (getKeyStartPosition k m <= getKeyStartPosition k n)%Q.
Proof.
  assert (M : (tablePos (notePosRatio k) m <= tablePos (notePosRatio k) n)%Q).
  { replace n with (m + Z.of_nat (Z.to_nat (n - m))) by lia.
    apply tablePos_monotone; [exact Hr | lia]. }
  assert (S : forall j w,
            (getStart (getKeyPosition k j w)
             == tablePos (notePosRatio k) j * w)%Q).
  { intros j w. rewrite getKeyPosition_start. unfold tablePos. ring. }
  split.
  - rewrite !S. apply Qmult_le_compat_r; assumption.
  - unfold getKeyStartPosition. rewrite !getKeyPos_start, !S.
    assert (T : (tablePos (notePosRatio k) m * keyWidth k
                 <= tablePos (notePosRatio k) n * keyWidth k)%Q)
      by (apply Qmult_le_compat_r; assumption).
    lra.
Qed.

Lemma key_starts_follow_note_order_witness :
  let k := sizedKeyboard 1300 60 in
  (getKeyStartPosition k 61 <= getKeyStartPosition k 70)%Q.
Proof.
  intro k.
  assert (Hr : (0 <= notePosRatio k <= 1)%Q) by by_evaluation.
  assert (Hu : (0 <= 16)%Q) by by_evaluation.
  assert (Hkw : (0 <= keyWidth k)%Q) by by_evaluation.
  assert (Hmn : 0 <= 61 <= 70) by lia.
  exact (proj2 (key_starts_follow_note_order k 61 70 16 Hr Hu Hkw Hmn)).
Defined.

(** ** Viewport: where relayout leaves the lowest visible key *)

Lemma resized_stages (k : Keyboard) :
  0 < getWidth k -> 0 < getHeight k -> resized k = relayoutStages k.
Proof.
  intros Hw Hh.
  unfold resized, relayoutStages, relayoutScroll, relayoutSnap, availableSize.
  replace ((getWidth k <=? 0) || (getHeight k <=? 0)) with false
    by (symmetry; apply orb_false_iff; lia).
  reflexivity.
Qed.

(** Storing the position of key [j] as the scroll offset moves key [j] to
    the position the old offset stood for. *)
Lemma stored_offset_anchors_key (k : Keyboard) (j : Z) :
  (getStart (getKeyPos (with_xOffset (getStart (getKeyPos k j)) k) j)
   == xOffset k)%Q.
Proof.
  rewrite !getKeyPos_start, !getKeyPosition_start. fields. ring.
Qed.

Lemma relayoutScroll_anchor (w : Z) (k3 : Keyboard) :
  xOffset k3 = 0%Q ->
  (getStart
     (getKeyPos (relayoutScroll w k3)
        (truncToInt (firstKey (relayoutScroll w k3)))) == 0)%Q.
Proof.
  intro X. unfold relayoutScroll. cbv zeta.
  destruct (canScroll k3).
  - match goal with |- context [if ?c then _ else _] => destruct c end.
    + match goal with |- context [with_xOffset _ ?k'] =>
        change (truncToInt (firstKey (with_xOffset _ k')))
          with (truncToInt (firstKey k'));
        rewrite (stored_offset_anchors_key k' (truncToInt (firstKey k')))
      end.
      fields. rewrite X. reflexivity.
    + change (truncToInt (firstKey (with_xOffset _ k3)))
        with (truncToInt (firstKey k3)).
      rewrite stored_offset_anchors_key, X. reflexivity.
  - rewrite !getKeyPos_start, !getKeyPosition_start. fields.
    rewrite truncToInt_inject_Z, X. ring.
Qed.

(** X7.  After relayout of a sized widget the lowest visible key starts at
    pixel 0: the scroll offset relayout stores is the position of that key,
    so getKeyStartPosition of getLowestVisibleKey is 0. *)
Theorem relayout_puts_lowest_visible_key_at_origin
    (k : Keyboard) (Hw : 0 < getWidth k) (Hh : 0 < getHeight k) :
  (getKeyStartPosition (resized k) (getLowestVisibleKey (resized k)) == 0)%Q.
Proof.
  rewrite (resized_stages k Hw Hh).
  unfold relayoutStages. cbv zeta.
  match goal with |- context [relayoutScroll ?w ?k3] =>
    assert (A := relayoutScroll_anchor w k3 eq_refl);
    revert A; generalize (relayoutScroll w k3)
  end.
  intros k4 A.
  unfold getKeyStartPosition, getLowestVisibleKey.
  rewrite getKeyPos_start, getKeyPosition_start in A |- *.
  fields. exact A.
Qed.

Lemma relayout_puts_lowest_visible_key_at_origin_witness :
  let k := with_getHeight 60 (with_getWidth 200
             (construct (7#10) horizontalKeyboard)) in
  (getKeyStartPosition (resized k) (getLowestVisibleKey (resized k)) == 0)%Q.
Proof.
  intro k.
  apply (relayout_puts_lowest_visible_key_at_origin k); reflexivity.
Defined.

Lemma relayoutSnap_canScroll (w : Z) (k : Keyboard) :
  canScroll (relayoutSnap w k) = canScroll k
  /\ rangeStart (relayoutSnap w k) = rangeStart k.
Proof. unfold relayoutSnap. branches; split; reflexivity. Qed.

(** X8.  With scrolling switched off, relayout of a sized widget always
    shows the keyboard from the start of the range: the lowest visible note
    becomes the range start, the scroll offset 0, and both scroll buttons
    are hidden. *)
Theorem relayout_without_scrolling_shows_range_start
    (k : Keyboard) (Hw : 0 < getWidth k) (Hh : 0 < getHeight k)
    (Hc : canScroll k = false) :
  firstKey (resized k) = inject_Z (rangeStart k)
  /\ xOffset (resized k) = 0%Q
  /\ scrollDownVisible (resized k) = false
  /\ scrollUpVisible (resized k) = false.
Proof.
  rewrite (resized_stages k Hw Hh).
  unfold relayoutStages. cbv zeta.
  destruct (relayoutSnap_canScroll (availableSize k) k) as [C R].
  rewrite Hc in C. revert C R.
  generalize (relayoutSnap (availableSize k) k). intros k1 C R.
  unfold relayoutScroll. fields. rewrite C. fields. rewrite C, R.
  repeat split; reflexivity.
Qed.

Lemma relayout_without_scrolling_shows_range_start_witness :
  let k := with_canScroll false (with_getHeight 60 (with_getWidth 200
             (construct (7#10) horizontalKeyboard))) in
  firstKey (resized k) = inject_Z (rangeStart k)
  /\ xOffset (resized k) = 0%Q
  /\ scrollDownVisible (resized k) = false
  /\ scrollUpVisible (resized k) = false.
Proof.
  intro k.
  apply (relayout_without_scrolling_shows_range_start k); reflexivity.
Defined.

(** ** Pointer tracker: hovering, pressing, dragging and releasing *)

Lemma jmaxf_nonneg (b : Q) : (0 <= jmaxf 0 b)%Q.
Proof.
  unfold jmaxf. destruct (Qltb 0 b) eqn:E; [|lra].
  apply Qltb_lt in E. lra.
Qed.

Lemma repaintNote_sent n k :
  exists hov, sent (repaintNote n k) = sent k ++ hov
              /\ Forall isRepaintRequest hov.
Proof.
  unfold repaintNote. branches; fields.
  - exists [repaintKey n]. split; [reflexivity | repeat constructor].
  - exists []. split; [symmetry; apply app_nil_r | constructor].
Qed.

Lemma updateHover_sent it o n s k :
  exists hov, sent (updateHover it o n s k) = sent k ++ hov
              /\ Forall isRepaintRequest hov.
Proof.
  assert (R : exists hov,
             sent (repaintNote n (repaintNote o k)) = sent k ++ hov
             /\ Forall isRepaintRequest hov).
  { destruct (repaintNote_sent o k) as [h1 [E1 F1]].
    destruct (repaintNote_sent n (repaintNote o k)) as [h2 [E2 F2]].
    exists (h1 ++ h2). rewrite E2, E1, app_assoc.
    split; [reflexivity | apply Forall_app; auto]. }
  unfold updateHover.
  destruct (negb (o =? n));
    [|exists []; split; [symmetry; apply app_nil_r | constructor]].
  cbv zeta.
  destruct (n =? -1); [exact R|].
  destruct (o =? -1); [exact R|].
  destruct it; exact R.
Qed.

Lemma find_if_snoc {A : Type} (p : A -> bool) (x : A) : forall l,
  find_if p l = None -> p x = true ->
  find_if p (l ++ [x]) = Some (length l).
Proof.
  induction l as [|y l IH]; cbn [find_if app length]; intros H P.
  - rewrite P. reflexivity.
  - destruct (p y); [discriminate|].
    destruct (find_if p l); [discriminate|].
    rewrite IH by auto. reflexivity.
Qed.

Lemma nth_error_snoc {A : Type} (x : A) (l : list A) :
  nth_error (l ++ [x]) (length l) = Some x.
Proof.
  rewrite nth_error_app2 by lia. rewrite Nat.sub_diag. reflexivity.
Qed.

Lemma eraseAt_snoc {A : Type} (x : A) (l : list A) :
  eraseAt (length l) (l ++ [x]) = l.
Proof.
  unfold eraseAt.
  rewrite firstn_app, Nat.sub_diag, firstn_all, firstn_O, app_nil_r.
  rewrite skipn_all2 by (rewrite length_app; cbn; lia).
  apply app_nil_r.
Qed.

Lemma sameSource_mkInputIndex (s : MouseInputSource) (n : Z) :
  sameSource s (mkInputIndex s n) = true.
Proof.
  apply sameSource_key. reflexivity.
Qed.

Lemma find_if_absent (s : MouseInputSource) (l : list InputIndex) :
  ~ In (sourceId s) (map sourceKey l) -> find_if (sameSource s) l = None.
Proof.
  intro H.
  destruct (find_if (sameSource s) l) as [i|] eqn:F; [|reflexivity].
  destruct (find_if_Some _ _ _ F) as [x [N P]].
  exfalso. apply H. apply sameSource_key in P. rewrite <- P.
  apply in_map. eapply nth_error_In; exact N.
Qed.

(** Once the entry at [i] is erased from a list without repeated notes, no
    entry carries its note. *)
Lemma containsNoteNumber_erase_held (l : list InputIndex) (i : nat)
    (x : InputIndex) :
  distinctNotes l -> nth_error l i = Some x ->
  containsNoteNumber (eraseAt i l) (noteNumber x) = false.
Proof.
  intros D N.
  destruct (containsNoteNumber (eraseAt i l) (noteNumber x)) eqn:E;
    [|reflexivity].
  exfalso. unfold containsNoteNumber in E.
  apply existsb_exists in E. destruct E as [y [Hy E]].
  apply Z.eqb_eq in E.
  apply (eraseAt_removes i (map noteNumber l) (noteNumber x) D).
  - apply map_nth_error. exact N.
  - rewrite <- eraseAt_map, <- E. apply in_map. exact Hy.
Qed.

Lemma containsNoteNumber_erase (it : option nat) (l : list InputIndex)
    (n : Z) :
  containsNoteNumber l n = false -> containsNoteNumber (erase it l) n = false.
Proof.
  intro H. destruct it as [i|]; cbn [erase]; [|exact H].
  destruct (containsNoteNumber (eraseAt i l) n) eqn:E; [|reflexivity].
  unfold containsNoteNumber in E, H.
  apply existsb_exists in E. destruct E as [y [Hy E]].
  assert (T : existsb (fun x => noteNumber x =? n) l = true)
    by (apply existsb_exists; exists y;
        split; [eapply eraseAt_incl; exact Hy | exact E]).
  congruence.
Qed.

(** A held source has an entry, and the note read through the iterator is
    the note of that entry. *)
Lemma held_entry (s : MouseInputSource) (l : list InputIndex) :
  0 <= noteAt l (find_if (sameSource s) l) ->
  exists i x, find_if (sameSource s) l = Some i
              /\ nth_error l i = Some x
              /\ noteAt l (find_if (sameSource s) l) = noteNumber x.
Proof.
  intro H.
  destruct (find_if (sameSource s) l) as [i|] eqn:F;
    [|cbn [noteAt] in H; lia].
  destruct (find_if_Some _ _ _ F) as [x [N _]].
  exists i, x. cbn [noteAt]. rewrite N. auto.
Qed.

Lemma releaseHeld_held (i : nat) (x : InputIndex) (v : Q) (k : Keyboard) :
  distinctNotes (mouseDownNotes k) ->
  nth_error (mouseDownNotes k) i = Some x ->
  releaseHeld (Some i) (noteNumber x) v k
  = send (noteOff (midiChannel k) (noteNumber x) v)
      (with_mouseDownNotes (eraseAt i (mouseDownNotes k)) k).
Proof.
  intros D N. unfold releaseHeld. cbv zeta. fields. cbn [erase].
  rewrite (containsNoteNumber_erase_held _ _ _ D N). reflexivity.
Qed.

Lemma updatePress_release it o n v d s k :
  d = false \/ n < 0 -> 0 <= o ->
  updatePress it o n v d s k = releaseHeld it o v k.
Proof.
  intros H Ho. unfold updatePress.
  destruct d.
  - destruct H as [H|H]; [discriminate|].
    replace (n =? o) with false by (symmetry; apply Z.eqb_neq; lia).
    replace (0 <=? o) with true by (symmetry; apply Z.leb_le; lia).
    replace (0 <=? n) with false by (symmetry; apply Z.leb_gt; lia).
    reflexivity.
  - replace (o <? 0) with false by (symmetry; apply Z.ltb_ge; lia).
    reflexivity.
Qed.

(** What the hover half leaves alone. *)
Lemma updateHover_keeps it o n s k :
  mouseDownNotes (updateHover it o n s k) = mouseDownNotes k
  /\ midiChannel (updateHover it o n s k) = midiChannel k.
Proof.
  split; [apply (updateHover_frame mouseDownNotes)
         | apply (updateHover_frame midiChannel)]; reflexivity.
Qed.

(** X9.  A pointer that is released, or dragged off the keys, while its
    source holds a note: the press entry of the source is erased, no entry
    carries the note any more, and after the repaint requests of the hover
    update exactly one message is sent, the note-off for the held note on
    the widget's channel with the velocity of the event.  For a point
    outside the widget that velocity is built from [unset], the value the
    local the hit test left unassigned holds. *)
Theorem release_sends_note_off_and_forgets_the_source
    (k : Keyboard) (pos : Q * Q) (isDown : bool) (s : MouseInputSource)
    (unset : Q)
    (Hinv : trackerInv k)
    (Hheld : 0 <= heldBy s k)
    (Hup : isDown = false \/ fst (xyToNote k pos) < 0) :
  let k' := updateNoteUnderMouse pos isDown s unset k in
  mouseDownNotes k'
  = erase (find_if (sameSource s) (mouseDownNotes k)) (mouseDownNotes k)
  /\ heldBy s k' = -1
  /\ containsNoteNumber (mouseDownNotes k') (heldBy s k) = false
  /\ exists hov,
       Forall isRepaintRequest hov
       /\ sent k'
          = sent k ++ hov
            ++ [noteOff (midiChannel k) (heldBy s k)
                  (eventVelocityAt k pos unset)].
Proof.
  intro k'.
  destruct Hinv as [_ [_ [_ [UD [_ ND]]]]].
  assert (A := erase_found_absent s (mouseDownNotes k) UD Hheld).
  apply find_if_absent in A.
  unfold heldBy in *.
  destruct (held_entry s (mouseDownNotes k) Hheld) as [i [x [F [N E]]]].
  assert (K : k' = send (noteOff (midiChannel k) (noteNumber x)
                           (eventVelocityAt k pos unset))
                     (with_mouseDownNotes (eraseAt i (mouseDownNotes k))
                        (updateHover
                           (find_if (sameSource s) (mouseOverNotes k))
                           (hoveredBy s k) (fst (xyToNote k pos)) s k))).
  { unfold k', updateNoteUnderMouse. cbv zeta.
    fold (eventVelocityAt k pos unset). fold (hoveredBy s k).
    destruct (updateHover_keeps
                (find_if (sameSource s) (mouseOverNotes k))
                (hoveredBy s k) (fst (xyToNote k pos)) s k) as [D M].
    revert D M. generalize (updateHover
                (find_if (sameSource s) (mouseOverNotes k))
                (hoveredBy s k) (fst (xyToNote k pos)) s k).
    intros h D M.
    rewrite E in Hheld |- *.
    rewrite updatePress_release by assumption.
    rewrite F.
    rewrite releaseHeld_held by (rewrite D; assumption).
    rewrite D, M. reflexivity. }
  destruct (updateHover_sent (find_if (sameSource s) (mouseOverNotes k))
              (hoveredBy s k) (fst (xyToNote k pos)) s k) as [hov [S R]].
  revert K S. generalize (updateHover
                (find_if (sameSource s) (mouseOverNotes k))
                (hoveredBy s k) (fst (xyToNote k pos)) s k).
  intros h K S. rewrite K. fields. rewrite E.
  rewrite F in A |- *. cbn [erase] in A |- *.
  split; [reflexivity|].
  split; [rewrite A; reflexivity|].
  split; [apply containsNoteNumber_erase_held; assumption|].
  exists hov. split; [exact R|]. rewrite S, <- app_assoc. reflexivity.
Qed.

Lemma mouseDown_trackerInv (e : MouseEvent) (k : Keyboard) :
  trackerInv k -> trackerInv (mouseDown e k).
Proof. exact (step_trackerInv (DoMouseDown e) k). Qed.

Lemma setSize_trackerInv (w h : Z) (k : Keyboard) :
  trackerInv k -> trackerInv (setSize w h k).
Proof. exact (step_trackerInv (DoSetSize w h) k). Qed.

Lemma pressLowestKey_trackerInv : trackerInv pressLowestKey.
Proof.
  unfold pressLowestKey, sizedKeyboard.
  apply mouseDown_trackerInv, setSize_trackerInv, construct_trackerInv.
Qed.

Lemma release_sends_note_off_and_forgets_the_source_witness :
  let k := pressLowestKey in
  trackerInv k /\ heldBy firstMouse k = 0
  /\ heldBy firstMouse (updateNoteUnderMouse (5, 5)%Q false firstMouse 0 k)
     = -1.
Proof.
  intro k.
  assert (I : trackerInv k) by exact pressLowestKey_trackerInv.
  assert (H : heldBy firstMouse k = 0) by (vm_compute; reflexivity).
  assert (H0 : 0 <= heldBy firstMouse k) by (rewrite H; lia).
  split; [exact I|]. split; [exact H|].
  destruct (release_sends_note_off_and_forgets_the_source
              k (5, 5)%Q false firstMouse 0 I H0 (or_introl eq_refl))
    as [_ [B _]].
  exact B.
Defined.

(** X10.  A pointer that moves without a button down, from a source that
    holds no note, plays nothing: the press list is unchanged and the only
    requests are repaints of single keys. *)
Theorem hover_sends_no_note_message
    (k : Keyboard) (pos : Q * Q) (s : MouseInputSource) (unset : Q)
    (Hfree : heldBy s k < 0) :
  let k' := updateNoteUnderMouse pos false s unset k in
  mouseDownNotes k' = mouseDownNotes k
  /\ exists hov, Forall isRepaintRequest hov /\ sent k' = sent k ++ hov.
Proof.
  intro k'. unfold heldBy in Hfree.
  assert (K : k' = updateHover
                     (find_if (sameSource s) (mouseOverNotes k))
                     (hoveredBy s k) (fst (xyToNote k pos)) s k).
  { unfold k', updateNoteUnderMouse. cbv zeta. unfold updatePress.
    replace (noteAt (mouseDownNotes k)
               (find_if (sameSource s) (mouseDownNotes k)) <? 0)
      with true by (symmetry; apply Z.ltb_lt; exact Hfree).
    reflexivity. }
  rewrite K.
  destruct (updateHover_keeps (find_if (sameSource s) (mouseOverNotes k))
              (hoveredBy s k) (fst (xyToNote k pos)) s k) as [D _].
  destruct (updateHover_sent (find_if (sameSource s) (mouseOverNotes k))
              (hoveredBy s k) (fst (xyToNote k pos)) s k) as [hov [S R]].
  split; [exact D|]. exists hov. auto.
Qed.

Lemma hover_sends_no_note_message_witness :
  let k := sizedKeyboard 1300 60 in
  heldBy firstMouse k < 0
  /\ mouseDownNotes (updateNoteUnderMouse (5, 5)%Q false firstMouse 0 k)
     = mouseDownNotes k.
Proof.
  intro k.
  assert (H : heldBy firstMouse k < 0) by (vm_compute; reflexivity).
  split; [exact H|].
  destruct (hover_sends_no_note_message k (5, 5)%Q firstMouse 0 H) as [B _].
  exact B.
Defined.

(** ** Pointer tracker: a press, and the release that follows it *)

Lemma find_if_assignNote (s : MouseInputSource) (n : Z) : forall i l,
  find_if (sameSource s) (assignNote i n l) = find_if (sameSource s) l.
Proof.
  induction i as [|i IH]; intros [|x l]; cbn [assignNote find_if];
    try reflexivity.
  rewrite IH. reflexivity.
Qed.

Lemma noteAt_assignNote (n : Z) : forall i l (x : InputIndex),
  nth_error l i = Some x -> noteAt (assignNote i n l) (Some i) = n.
Proof.
  induction i as [|i IH]; intros [|y l] x H; try discriminate.
  - reflexivity.
  - cbn [assignNote noteAt nth_error] in *.
    exact (IH l x H).
Qed.

Section SameHitTest.

Variables k k' : Keyboard.
Hypothesis E : hitTestConfigOf k' = hitTestConfigOf k.

Lemma same_getKeyPos (n : Z) : getKeyPos k' n = getKeyPos k n.
Proof.
  unfold hitTestConfigOf in E. inversion E as [[E1 E2 E3 E4 E5 E6 E7 E8 E9]].
  unfold getKeyPos, getKeyPosition. rewrite E5, E6, E7, E8, E9.
  reflexivity.
Qed.

Lemma same_scanOctave (x : Q) (os : Z) (notes : list Z) :
  scanOctave k' x os notes = scanOctave k x os notes.
Proof.
  unfold hitTestConfigOf in E.
  inversion E as [[E1 E2 E3 E4 E5 E6 E7 E8 E9 E10]].
  induction notes as [|n rest IH]; cbn [scanOctave]; [reflexivity|].
  cbv zeta. rewrite same_getKeyPos, IH, E9, E10. reflexivity.
Qed.

Lemma same_scanOctaves (x : Q) (notes : list Z) (fuel : nat) : forall os,
  scanOctaves fuel k' x notes os = scanOctaves fuel k x notes os.
Proof.
  unfold hitTestConfigOf in E.
  inversion E as [[E1 E2 E3 E4 E5 E6 E7 E8 E9 E10]].
  induction fuel as [|fuel IH]; intro os; cbn [scanOctaves]; [reflexivity|].
  rewrite same_scanOctave, IH, E10. reflexivity.
Qed.

Lemma same_scanKeys (x : Q) (notes : list Z) :
  scanKeys k' x notes = scanKeys k x notes.
Proof.
  assert (F : octaveFuel k' = octaveFuel k /\ rangeStart k' = rangeStart k)
    by (unfold hitTestConfigOf in E;
        inversion E as [[E1 E2 E3 E4 E5 E6 E7 E8 E9 E10]];
        unfold octaveFuel; rewrite E9, E10; split; reflexivity).
  destruct F as [F1 F2].
  unfold scanKeys. rewrite same_scanOctaves, F1, F2. reflexivity.
Qed.

Lemma same_remappedXYToNote (pos : Q * Q) :
  remappedXYToNote k' pos = remappedXYToNote k pos.
Proof.
  unfold remappedXYToNote, getBlackNoteLength. cbv zeta.
  rewrite !same_scanKeys.
  unfold hitTestConfigOf in E. inversion E as [[E1 E2 E3 E4 E5 E6 E7]].
  rewrite E1, E2, E3, E4, E7. reflexivity.
Qed.

Lemma same_xyToNote (pos : Q * Q) : xyToNote k' pos = xyToNote k pos.
Proof.
  unfold xyToNote, reallyContains. cbv zeta.
  rewrite !same_remappedXYToNote.
  unfold hitTestConfigOf in E. inversion E as [[E1 E2 E3 E4 E5 E6 E7]].
  rewrite E1, E2, E3, E7. reflexivity.
Qed.

Lemma same_eventVelocityAt (pos : Q * Q) (u : Q) :
  eventVelocityAt k' pos u = eventVelocityAt k pos u.
Proof.
  unfold eventVelocityAt. rewrite same_xyToNote.
  unfold hitTestConfigOf in E.
  inversion E as [[E1 E2 E3 E4 E5 E6 E7 E8 E9 E10 E11 E12]].
  rewrite E11, E12. reflexivity.
Qed.

End SameHitTest.

(** What the hit test reads is out of reach of the tracker. *)
Lemma updateNoteUnderMouse_hit_test pos d s u k (p : Q * Q) (u' : Q) :
  xyToNote (updateNoteUnderMouse pos d s u k) p = xyToNote k p
  /\ eventVelocityAt (updateNoteUnderMouse pos d s u k) p u'
     = eventVelocityAt k p u'.
Proof.
  assert (E : hitTestConfigOf (updateNoteUnderMouse pos d s u k)
              = hitTestConfigOf k)
    by (apply (updateNoteUnderMouse_frame hitTestConfigOf); reflexivity).
  split; [apply same_xyToNote | apply same_eventVelocityAt]; exact E.
Qed.

(** After the hover half has run for a note of the keyboard, the hover list
    records that note for the source. *)
Lemma updateHover_hovered (s : MouseInputSource) (n : Z) (k : Keyboard) :
  validNotes (mouseOverNotes k) -> 0 <= n ->
  hoveredBy s
    (updateHover (find_if (sameSource s) (mouseOverNotes k))
       (hoveredBy s k) n s k) = n.
Proof.
  intros V Hn. unfold updateHover.
  assert (R : mouseOverNotes (repaintNote n (repaintNote (hoveredBy s k) k))
              = mouseOverNotes k)
    by (rewrite !(repaintNote_frame mouseOverNotes) by reflexivity;
        reflexivity).
  destruct (negb (hoveredBy s k =? n)) eqn:E.
  - cbv zeta.
    replace (n =? -1) with false by (symmetry; apply Z.eqb_neq; lia).
    destruct (hoveredBy s k =? -1) eqn:E2.
    + apply Z.eqb_eq in E2.
      destruct (noteAt_absent s (mouseOverNotes k) V) as [F _];
        [fold (hoveredBy s k); lia|].
      unfold hoveredBy at 1. fields. rewrite R.
      rewrite find_if_snoc by (auto using sameSource_mkInputIndex).
      cbn [noteAt]. rewrite nth_error_snoc. reflexivity.
    + apply Z.eqb_neq in E2. unfold hoveredBy in E2.
      destruct (find_if (sameSource s) (mouseOverNotes k)) as [i|] eqn:F;
        [|cbn [noteAt] in E2; lia].
      destruct (find_if_Some _ _ _ F) as [x [N _]].
      unfold hoveredBy at 1. fields. rewrite R.
      rewrite find_if_assignNote, F.
      apply (noteAt_assignNote n i _ x N).
  - apply negb_false_iff, Z.eqb_eq in E. exact E.
Qed.

Lemma updateNoteUnderMouse_unfold pos d s u k :
  updateNoteUnderMouse pos d s u k
  = updatePress (find_if (sameSource s) (mouseDownNotes k)) (heldBy s k)
      (fst (xyToNote k pos)) (eventVelocityAt k pos u) d s
      (updateHover (find_if (sameSource s) (mouseOverNotes k))
         (hoveredBy s k) (fst (xyToNote k pos)) s k).
Proof. reflexivity. Qed.

Lemma updateHover_same it n s k : updateHover it n n s k = k.
Proof. unfold updateHover. rewrite Z.eqb_refl. reflexivity. Qed.

(** The effect of a button-down event from a source that holds nothing, on
    a key nobody holds. *)
Lemma press_effect (k : Keyboard) (pos : Q * Q) (s : MouseInputSource)
    (u : Q) :
  trackerInv k -> heldBy s k < 0 ->
  0 <= fst (xyToNote k pos) ->
  containsNoteNumber (mouseDownNotes k) (fst (xyToNote k pos)) = false ->
  exists hov h,
    Forall isRepaintRequest hov
    /\ sent h = sent k ++ hov
    /\ mouseDownNotes h = mouseDownNotes k
    /\ midiChannel h = midiChannel k
    /\ hoveredBy s h = fst (xyToNote k pos)
    /\ updateNoteUnderMouse pos true s u k
       = with_mouseDownNotes
           (mouseDownNotes h ++ [mkInputIndex s (fst (xyToNote k pos))])
           (send (noteOn (midiChannel h) (fst (xyToNote k pos))
                    (eventVelocityAt k pos u)) h).
Proof.
  intros [_ [_ [VO _]]] Hfree Hn Hother.
  destruct (updateHover_sent (find_if (sameSource s) (mouseOverNotes k))
              (hoveredBy s k) (fst (xyToNote k pos)) s k) as [hov [S R]].
  destruct (updateHover_keeps (find_if (sameSource s) (mouseOverNotes k))
              (hoveredBy s k) (fst (xyToNote k pos)) s k) as [D M].
  assert (O := updateHover_hovered s (fst (xyToNote k pos)) k VO Hn).
  exists hov,
    (updateHover (find_if (sameSource s) (mouseOverNotes k))
       (hoveredBy s k) (fst (xyToNote k pos)) s k).
  split; [exact R|]. split; [exact S|]. split; [exact D|].
  split; [exact M|]. split; [exact O|].
  unfold updateNoteUnderMouse. cbv zeta.
  fold (eventVelocityAt k pos u). fold (hoveredBy s k). fold (heldBy s k).
  revert D. generalize (updateHover
              (find_if (sameSource s) (mouseOverNotes k))
              (hoveredBy s k) (fst (xyToNote k pos)) s k).
  intros h D. unfold updatePress.
  replace (fst (xyToNote k pos) =? heldBy s k) with false
    by (symmetry; apply Z.eqb_neq; lia).
  replace (0 <=? heldBy s k) with false by (symmetry; apply Z.leb_gt; lia).
  replace (0 <=? fst (xyToNote k pos)) with true
    by (symmetry; apply Z.leb_le; lia).
  cbv zeta. rewrite D, Hother. cbn [andb negb]. fields. rewrite ?D.
  reflexivity.
Qed.

(** X11.  A press and the release that follows it.  A source that holds no
    note presses a key that no other source holds, then lets go at the same
    point: the press list gains the entry of the source and loses it again,
    one note-on is sent and then the note-off for the same note, on the
    same channel and with the same, non-negative, velocity; apart from
    repaint requests before the note-on nothing else is sent. *)
Theorem press_then_release_round_trip
    (k : Keyboard) (e : MouseEvent)
    (Hinv : trackerInv k)
    (Hfree : heldBy (source e) k < 0)
    (Hn : 0 <= getNoteAtPosition k (position e))
    (Hother : containsNoteNumber (mouseDownNotes k)
                (getNoteAtPosition k (position e)) = false) :
  let n := getNoteAtPosition k (position e) in
  let v := eventVelocityAt k (position e) (unsetVelocity e) in
  let k1 := mouseDown e k in
  let k2 := mouseUp e k1 in
  mouseDownNotes k1 = mouseDownNotes k ++ [mkInputIndex (source e) n]
  /\ mouseDownNotes k2 = mouseDownNotes k
  /\ (0 <= v)%Q
  /\ exists hov,
       Forall isRepaintRequest hov
       /\ sent k1 = sent k ++ hov ++ [noteOn (midiChannel k) n v]
       /\ sent k2 = sent k1 ++ [noteOff (midiChannel k) n v].
Proof.
  intros n v k1 k2. unfold getNoteAtPosition in *.
  destruct (press_effect k (position e) (source e) (unsetVelocity e)
              Hinv Hfree Hn Hother)
    as [hov [h [R [S [D [M [O P]]]]]]].
  fold n in P, O, Hn, Hother. fold v in P.
  destruct (updateNoteUnderMouse_hit_test (position e) true (source e)
              (unsetVelocity e) k (position e) (unsetVelocity e)) as [X V].
  fold v in V.
  assert (F : find_if (sameSource (source e)) (mouseDownNotes k) = None)
    by (destruct Hinv as [_ [_ [_ [_ [VD _]]]]];
        apply (noteAt_absent (source e) (mouseDownNotes k) VD Hfree)).
  assert (K1 : k1 = with_shouldCheckMousePos true
                      (updateNoteUnderMouse (position e) true (source e)
                         (unsetVelocity e) k)).
  { unfold k1, mouseDown. cbv zeta. fold n.
    replace (n <? 0) with false by (symmetry; apply Z.ltb_ge; lia).
    reflexivity. }
  assert (X1 : xyToNote k1 (position e) = xyToNote k (position e)).
  { rewrite K1, <- X. apply same_xyToNote. reflexivity. }
  assert (V1 : eventVelocityAt k1 (position e) (unsetVelocity e) = v).
  { rewrite K1, <- V. apply same_eventVelocityAt. reflexivity. }
  assert (O1 : hoveredBy (source e) k1 = n).
  { rewrite K1, P, <- O. reflexivity. }
  assert (D1 : mouseDownNotes k1
               = mouseDownNotes k ++ [mkInputIndex (source e) n]).
  { rewrite K1, P. fields. rewrite D. reflexivity. }
  assert (M1 : midiChannel k1 = midiChannel k).
  { rewrite K1, P. fields. exact M. }
  assert (S1 : sent k1 = sent k ++ hov ++ [noteOn (midiChannel k) n v]).
  { rewrite K1, P. fields. rewrite M, S, <- app_assoc. reflexivity. }
  assert (K2 : k2 = with_shouldCheckMousePos false
                      (send (noteOff (midiChannel k) n v)
                         (with_mouseDownNotes (mouseDownNotes k) k1))).
  { unfold k2. clearbody k1. unfold mouseUp.
    rewrite updateNoteUnderMouse_unfold, X1, V1, O1. fold n.
    rewrite updateHover_same. unfold heldBy. rewrite D1.
    rewrite find_if_snoc by (auto using sameSource_mkInputIndex).
    cbn [noteAt]. rewrite nth_error_snoc.
    change (noteNumber (mkInputIndex (source e) n)) with n.
    rewrite updatePress_release by (auto; lia).
    unfold releaseHeld. cbv zeta. fields. rewrite D1. cbn [erase].
    rewrite eraseAt_snoc, Hother, M1. reflexivity. }
  split; [exact D1|].
  split; [rewrite K2; reflexivity|].
  split; [apply jmaxf_nonneg|].
  exists hov. split; [exact R|]. split; [exact S1|].
  rewrite K2. reflexivity.
Qed.

Lemma press_then_release_round_trip_witness :
  let k := sizedKeyboard 1300 60 in
  let e := onLowestKey firstMouse in
  trackerInv k
  /\ mouseDownNotes (mouseDown e k) = [mkInputIndex firstMouse 0]
  /\ mouseDownNotes (mouseUp e (mouseDown e k)) = [].
Proof.
  intros k e.
  assert (I : trackerInv k)
    by (apply setSize_trackerInv, construct_trackerInv).
  assert (H1 : heldBy (source e) k < 0) by (vm_compute; reflexivity).
  assert (H2 : 0 <= getNoteAtPosition k (position e))
    by (vm_compute; discriminate).
  assert (H3 : containsNoteNumber (mouseDownNotes k)
                 (getNoteAtPosition k (position e)) = false)
    by (vm_compute; reflexivity).
  destruct (press_then_release_round_trip k e I H1 H2 H3) as [A [B _]].
  split; [exact I|]. split; [exact A | exact B].
Defined.

(** X12.  A drag from one key to another.  The source holds note [a]; the
    pointer, button down, arrives over another key [b] that no source
    holds: the entry of the source is replaced by one for [b], and after
    the repaint requests exactly two messages are sent, the note-off for
    [a] and then the note-on for [b], both on the widget's channel with the
    velocity of the event. *)
Theorem drag_moves_the_held_note
    (k : Keyboard) (e : MouseEvent)
    (Hinv : trackerInv k)
    (Hheld : 0 <= heldBy (source e) k)
    (Hn : 0 <= getNoteAtPosition k (position e))
    (Hmoved : getNoteAtPosition k (position e) <> heldBy (source e) k)
    (Hother : containsNoteNumber (mouseDownNotes k)
                (getNoteAtPosition k (position e)) = false) :
  let a := heldBy (source e) k in
  let b := getNoteAtPosition k (position e) in
  let v := eventVelocityAt k (position e) (unsetVelocity e) in
  let k' := mouseDrag e k in
  mouseDownNotes k'
  = erase (find_if (sameSource (source e)) (mouseDownNotes k))
      (mouseDownNotes k) ++ [mkInputIndex (source e) b]
  /\ heldBy (source e) k' = b
  /\ exists hov,
       Forall isRepaintRequest hov
       /\ sent k'
          = sent k ++ hov
            ++ [noteOff (midiChannel k) a v; noteOn (midiChannel k) b v].
Proof.
  intros a b v k'. unfold getNoteAtPosition in *. fold b in Hn, Hmoved, Hother.
  destruct Hinv as [_ [_ [_ [UD [_ ND]]]]].
  assert (A := erase_found_absent (source e) (mouseDownNotes k) UD Hheld).
  apply find_if_absent in A.
  unfold heldBy in Hheld.
  destruct (held_entry (source e) (mouseDownNotes k) Hheld)
    as [i [x [F [N E]]]].
  fold (heldBy (source e) k) in E, Hheld. fold a in E, Hheld, Hmoved.
  destruct (updateHover_sent
              (find_if (sameSource (source e)) (mouseOverNotes k))
              (hoveredBy (source e) k) b (source e) k) as [hov [S R]].
  destruct (updateHover_keeps
              (find_if (sameSource (source e)) (mouseOverNotes k))
              (hoveredBy (source e) k) b (source e) k) as [D M].
  assert (K : k' = with_mouseDownNotes
                     (eraseAt i (mouseDownNotes k)
                      ++ [mkInputIndex (source e) b])
                     (send (noteOn (midiChannel k) b v)
                        (send (noteOff (midiChannel k) a v)
                           (with_mouseDownNotes
                              (eraseAt i (mouseDownNotes k))
                              (updateHover
                                 (find_if (sameSource (source e))
                                    (mouseOverNotes k))
                                 (hoveredBy (source e) k) b (source e) k))))).
  { unfold k', mouseDrag. rewrite updateNoteUnderMouse_unfold.
    fold b. fold v. fold a.
    revert D M. generalize (updateHover
              (find_if (sameSource (source e)) (mouseOverNotes k))
              (hoveredBy (source e) k) b (source e) k).
    intros h D M. unfold updatePress.
    replace (b =? a) with false by (symmetry; apply Z.eqb_neq; lia).
    replace (0 <=? a) with true by (symmetry; apply Z.leb_le; lia).
    replace (0 <=? b) with true by (symmetry; apply Z.leb_le; lia).
    cbv zeta. rewrite F, E.
    rewrite releaseHeld_held by (rewrite D; assumption).
    fields. rewrite D, M.
    assert (C := containsNoteNumber_erase (Some i) (mouseDownNotes k) b
                   Hother).
    cbn [erase] in C. rewrite C. reflexivity. }
  revert K S. generalize (updateHover
              (find_if (sameSource (source e)) (mouseOverNotes k))
              (hoveredBy (source e) k) b (source e) k).
  intros h K S. rewrite K. unfold heldBy. fields.
  rewrite F in A |- *. cbn [erase] in A |- *.
  split; [reflexivity|].
  split.
  - rewrite find_if_snoc by (auto using sameSource_mkInputIndex).
    cbn [noteAt]. rewrite nth_error_snoc. reflexivity.
  - exists hov. split; [exact R|].
    rewrite S, <- !app_assoc. reflexivity.
Qed.

Lemma drag_moves_the_held_note_witness :
  let k := pressLowestKey in
  let e := {| position := (25, 50)%Q; source := firstMouse;
              unsetVelocity := 0 |} in
  trackerInv k /\ heldBy firstMouse k = 0
  /\ getNoteAtPosition k (position e) = 2
  /\ heldBy firstMouse (mouseDrag e k) = 2.
Proof.
  intros k e.
  assert (I : trackerInv k) by exact pressLowestKey_trackerInv.
  assert (H0 : heldBy firstMouse k = 0) by (vm_compute; reflexivity).
  assert (H1 : getNoteAtPosition k (position e) = 2)
    by (vm_compute; reflexivity).
  assert (H2 : 0 <= heldBy (source e) k)
    by (change (source e) with firstMouse; rewrite H0; lia).
  assert (H3 : 0 <= getNoteAtPosition k (position e)) by (rewrite H1; lia).
  assert (H4 : getNoteAtPosition k (position e) <> heldBy (source e) k)
    by (change (source e) with firstMouse; rewrite H0, H1; lia).
  assert (H5 : containsNoteNumber (mouseDownNotes k)
                 (getNoteAtPosition k (position e)) = false)
    by (vm_compute; reflexivity).
  destruct (drag_moves_the_held_note k e I H2 H3 H4 H5) as [_ [B _]].
  split; [exact I|]. split; [exact H0|]. split; [exact H1|].
  change firstMouse with (source e) at 1. rewrite B. exact H1.
Defined.

(** ** Physical-key mapping: the key-state notification *)

Lemma testbit_setBit_same (bits n : Z) (b : bool) :
  0 <= n -> Z.testbit (setBit bits n b) n = b.
Proof.
  intro H. unfold setBit. destruct b.
  - apply Z.setbit_eq. exact H.
  - apply Z.clearbit_eq.
Qed.

Lemma testbit_setBit_neq (bits n m : Z) (b : bool) :
  n <> m -> Z.testbit (setBit bits n b) m = Z.testbit bits m.
Proof.
  intro H. destruct b; [apply testbit_setBit_other; exact H|].
  unfold setBit. apply Z.clearbit_neq. exact H.
Qed.

(** One iteration of the loop of keyStateChanged, for a binding whose note
    is not negative: afterwards the bit of the note tells whether the key is
    down; no other bit and no setting has changed; the flag is raised, and a
    message appended, exactly when the bit had to change. *)
Lemma keyState_iteration (down : KeyPress -> bool) (used : bool)
    (k : Keyboard) (note : Z) (key : KeyPress) :
  exists used' k1,
    (if down key then
       if negb (Z.testbit (keysPressed k) note) then
         (true,
          send (noteOn (midiChannel k) note (velocity k))
            (with_keysPressed (setBit (keysPressed k) note true) k))
       else (used, k)
     else
       if Z.testbit (keysPressed k) note then
         (true,
          send (noteOff (midiChannel k) note 0)
            (with_keysPressed (setBit (keysPressed k) note false) k))
       else (used, k)) = (used', k1)
    /\ keyConfigOf k1 = keyConfigOf k
    /\ (0 <= note -> Z.testbit (keysPressed k1) note = down key)
    /\ (forall m, note <> m ->
          Z.testbit (keysPressed k1) m = Z.testbit (keysPressed k) m)
    /\ ((used' = used /\ k1 = k)
        \/ (used' = true /\ exists r, sent k1 = sent k ++ [r])).
Proof.
  destruct (down key) eqn:D;
    destruct (Z.testbit (keysPressed k) note) eqn:T; cbn [negb];
    eexists; eexists; (split; [reflexivity|]); fields;
    (split; [reflexivity|]);
    (split; [intro H; rewrite ?testbit_setBit_same by exact H; auto|]);
    (split; [intros m H; rewrite ?testbit_setBit_neq by exact H; auto|]);
    first [left; split; reflexivity | right; split; [reflexivity|eauto]].
Qed.

Lemma keyStateLoop_unfold (down : KeyPress -> bool) (i : nat) (used : bool)
    (k : Keyboard) :
  keyStateLoop down (S i) (used, k)
  = keyStateLoop down i
      (if down (nth i (keyPresses k) noKeyPress) then
         if negb (Z.testbit (keysPressed k)
                    (12 * keyMappingOctave k + nth i (keyPressNotes k) 0))
         then
           (true,
            send (noteOn (midiChannel k)
                    (12 * keyMappingOctave k + nth i (keyPressNotes k) 0)
                    (velocity k))
              (with_keysPressed
                 (setBit (keysPressed k)
                    (12 * keyMappingOctave k + nth i (keyPressNotes k) 0)
                    true) k))
         else (used, k)
       else
         if Z.testbit (keysPressed k)
              (12 * keyMappingOctave k + nth i (keyPressNotes k) 0)
         then
           (true,
            send (noteOff (midiChannel k)
                    (12 * keyMappingOctave k + nth i (keyPressNotes k) 0) 0)
              (with_keysPressed
                 (setBit (keysPressed k)
                    (12 * keyMappingOctave k + nth i (keyPressNotes k) 0)
                    false) k))
         else (used, k)).
Proof. reflexivity. Qed.

(** The flag and the state after the loop: either nothing happened, or the
    flag is raised and at least one message was appended. *)
Lemma keyStateLoop_flag (down : KeyPress -> bool) (i : nat) :
  forall (used : bool) (k : Keyboard),
  (keyStateLoop down i (used, k) = (used, k))
  \/ (fst (keyStateLoop down i (used, k)) = true
      /\ exists extra, extra <> []
           /\ sent (snd (keyStateLoop down i (used, k))) = sent k ++ extra).
Proof.
  induction i as [|i IH]; intros used k; [left; reflexivity|].
  rewrite keyStateLoop_unfold.
  destruct (keyState_iteration down used k
              (12 * keyMappingOctave k + nth i (keyPressNotes k) 0)
              (nth i (keyPresses k) noKeyPress))
    as [used' [k1 [E [_ [_ [_ C]]]]]].
  rewrite E.
  destruct C as [[-> ->] | [-> [r S]]]; [apply IH|].
  right. destruct (IH true k1) as [E1 | [F [extra [N S1]]]].
  - rewrite E1. split; [reflexivity|].
    exists [r]. split; [discriminate | exact S].
  - split; [exact F|].
    exists (r :: extra). split; [discriminate|].
    rewrite S1, S, <- app_assoc. reflexivity.
Qed.

(** X13.  The answer of keyStateChanged tells whether it did anything: when
    it answers false the widget is exactly as before, and when it answers
    true at least one message has been sent. *)
Theorem keyStateChanged_reports_whether_it_acted
    (down : KeyPress -> bool) (k : Keyboard) :
  (fst (keyStateChanged down k) = false -> snd (keyStateChanged down k) = k)
  /\ (fst (keyStateChanged down k) = true ->
      exists extra, extra <> []
        /\ sent (snd (keyStateChanged down k)) = sent k ++ extra).
Proof.
  unfold keyStateChanged.
  destruct (keyStateLoop_flag down (length (keyPresses k)) false k)
    as [E | [F X]].
  - rewrite E. cbn [fst snd]. split; [reflexivity | discriminate].
  - rewrite F. split; [discriminate | intros _; exact X].
Qed.

(** After the loop has visited the first [i] bindings, the bit of each of
    their notes tells whether its key is down, and no other bit has
    changed. *)
Lemma keyStateLoop_sync (down : KeyPress -> bool) (i : nat) :
  forall (used : bool) (k : Keyboard),
  NoDup (firstn i (keyPressNotes k)) ->
  (i <= length (keyPressNotes k))%nat ->
  (forall j, (j < i)%nat ->
     0 <= 12 * keyMappingOctave k + nth j (keyPressNotes k) 0) ->
  keyConfigOf (snd (keyStateLoop down i (used, k))) = keyConfigOf k
  /\ (forall j, (j < i)%nat ->
        Z.testbit (keysPressed (snd (keyStateLoop down i (used, k))))
          (12 * keyMappingOctave k + nth j (keyPressNotes k) 0)
        = down (nth j (keyPresses k) noKeyPress))
  /\ (forall m,
        (forall j, (j < i)%nat ->
           12 * keyMappingOctave k + nth j (keyPressNotes k) 0 <> m) ->
        Z.testbit (keysPressed (snd (keyStateLoop down i (used, k)))) m
        = Z.testbit (keysPressed k) m).
Proof.
  induction i as [|i IH]; intros used k N Hi P.
  - cbn [keyStateLoop snd]. split; [reflexivity|].
    split; [intros j Hj; lia | reflexivity].
  - rewrite keyStateLoop_unfold.
    destruct (keyState_iteration down used k
                (12 * keyMappingOctave k + nth i (keyPressNotes k) 0)
                (nth i (keyPresses k) noKeyPress))
      as [used' [k1 [E [C [B [O _]]]]]].
    rewrite E. clear E.
    assert (C' := C). unfold keyConfigOf in C'.
    inversion C' as [[C1 C2 C3 C4 C5]]. clear C'.
    rewrite (firstn_snoc_nth 0 (keyPressNotes k) i) in N by lia.
    apply NoDup_remove in N. rewrite app_nil_r in N. destruct N as [N1 N2].
    destruct (IH used' k1) as [IC [IB IO]].
    + rewrite C2. exact N1.
    + rewrite C2. lia.
    + intros j Hj. rewrite C2, C3. apply P. lia.
    + rewrite C2, C3 in IB, IO. rewrite C1 in IB.
      rewrite ?C1, ?C2, ?C3.
      split; [rewrite IC; exact C|].
      split.
      * intros j Hj. destruct (Nat.eq_dec j i) as [Heq | Hne].
        -- subst j. rewrite IO; [apply B, P; lia|].
           intros j' Hj' Eq. apply N2.
           assert (Ej : nth j' (keyPressNotes k) 0
                        = nth i (keyPressNotes k) 0) by lia.
           rewrite <- Ej.
           rewrite <- (firstn_skipn i (keyPressNotes k)) at 1.
           rewrite app_nth1 by (rewrite length_firstn; lia).
           apply nth_In. rewrite length_firstn. lia.
        -- apply IB. lia.
      * intros m Hm. rewrite IO by (intros j Hj; apply Hm; lia).
        apply O. apply Hm. lia.
Qed.

(** When every visited bit already tells whether its key is down, the loop
    changes nothing. *)
Lemma keyStateLoop_stable (down : KeyPress -> bool) (i : nat) :
  forall (used : bool) (k : Keyboard),
  (forall j, (j < i)%nat ->
     Z.testbit (keysPressed k)
       (12 * keyMappingOctave k + nth j (keyPressNotes k) 0)
     = down (nth j (keyPresses k) noKeyPress)) ->
  keyStateLoop down i (used, k) = (used, k).
Proof.
  induction i as [|i IH]; intros used k H; [reflexivity|].
  rewrite keyStateLoop_unfold, (H i) by lia.
  destruct (down (nth i (keyPresses k) noKeyPress)); cbn [negb];
    apply IH; intros j Hj; apply H; lia.
Qed.

(** X14.  keyStateChanged brings the pressed-key bits in line with the
    keys, and a second notification with the same keys down does nothing.
    The bindings must bind every offset once and lead to notes that are not
    negative.  Then after the call the bit of every bound note is set
    exactly when its key is down, and calling again with the same key state
    answers false and leaves the widget as it is. *)
Theorem keyStateChanged_synchronises_and_is_idempotent
    (down : KeyPress -> bool) (k : Keyboard)
    (Hinv : mappingInv k)
    (Hnotes : forall o, In o (keyPressNotes k) ->
                0 <= 12 * keyMappingOctave k + o) :
  let k' := snd (keyStateChanged down k) in
  (forall key o, In (key, o) (bindings k) ->
     Z.testbit (keysPressed k') (12 * keyMappingOctave k + o) = down key)
  /\ keyStateChanged down k' = (false, k').
Proof.
  intro k'. destruct Hinv as [L N].
  destruct (keyStateLoop_sync down (length (keyPresses k)) false k)
    as [C [B _]].
  - rewrite L, firstn_all. exact N.
  - lia.
  - intros j Hj. apply Hnotes, nth_In. lia.
  - fold (keyStateChanged down k) in C, B. fold k' in C, B.
    unfold keyConfigOf in C. inversion C as [[C1 C2 C3 C4 C5]].
    split.
    + intros key o Hin.
      destruct (In_nth _ _ (noKeyPress, 0) Hin) as [j [Hj Ej]].
      rewrite bindings_length in Hj by exact L.
      rewrite bindings_nth in Ej by exact L. inversion Ej; subst key o.
      rewrite ?C1, ?C2, ?C3. apply B. lia.
    + unfold keyStateChanged. rewrite ?C1.
      apply keyStateLoop_stable.
      intros j Hj. rewrite ?C1, ?C2, ?C3. apply B. exact Hj.
Qed.

Lemma keyStateChanged_synchronises_and_is_idempotent_witness :
  let k := construct (7#10) horizontalKeyboard in
  let down := fun kp => KeyPress_eqb kp keyA in
  keyStateChanged down (snd (keyStateChanged down k))
  = (false, snd (keyStateChanged down k)).
Proof.
  intros k down.
  assert (I : mappingInv k) by apply construct_mappingInv.
  assert (H : forall o, In o (keyPressNotes k) ->
                0 <= 12 * keyMappingOctave k + o).
  { intros o Ho.
    assert (F : Forall (fun o => 0 <= 12 * keyMappingOctave k + o)
                  (keyPressNotes k))
      by (vm_compute; repeat constructor; discriminate).
    rewrite Forall_forall in F. exact (F o Ho). }
  exact (proj2 (keyStateChanged_synchronises_and_is_idempotent down k I H)).
Defined.

(** ** Physical-key mapping: removing and clearing bindings *)

Lemma removeKeyPressLoop_absent (o : Z) (i : nat) : forall k,
  (i <= length (keyPressNotes k))%nat ->
  ~ In o (firstn i (keyPressNotes k)) ->
  removeKeyPressLoop i o k = k.
Proof.
  induction i as [|i IH]; intros k Hi H; cbn [removeKeyPressLoop];
    [reflexivity|].
  cbv zeta.
  rewrite (firstn_snoc_nth 0 (keyPressNotes k) i) in H by lia.
  replace (nth i (keyPressNotes k) 0 =? o) with false.
  - apply IH; [lia|]. intro Hin. apply H, in_or_app. left. exact Hin.
  - symmetry. apply Z.eqb_neq. intro E. apply H, in_or_app. right.
    left. exact E.
Qed.

(** X15.  removeKeyPressForNote removes the bindings of one offset and
    nothing else.  The other bindings stay, in their order; the offset is
    bound to no key afterwards; removing it again, or removing an offset
    that was never bound, leaves the widget exactly as it is. *)
Theorem removeKeyPressForNote_removes_only_that_offset
    (o : Z) (k : Keyboard)
    (Hlen : length (keyPresses k) = length (keyPressNotes k)) :
  let k' := removeKeyPressForNote o k in
  bindings k' = filter (otherOffset o) (bindings k)
  /\ ~ In o (keyPressNotes k')
  /\ removeKeyPressForNote o k' = k'
  /\ (~ In o (keyPressNotes k) -> k' = k).
Proof.
  intro k'.
  destruct (removeKeyPressForNote_bindings o k Hlen) as [B L'].
  fold k' in B, L'.
  assert (A : ~ In o (keyPressNotes k')).
  { rewrite (keyPressNotes_bindings k' L'), B. apply offset_removed. }
  split; [exact B|]. split; [exact A|].
  split.
  - unfold removeKeyPressForNote at 1.
    apply removeKeyPressLoop_absent; [lia|].
    rewrite firstn_all. exact A.
  - intro H. unfold k', removeKeyPressForNote.
    apply removeKeyPressLoop_absent; [lia|].
    rewrite firstn_all. exact H.
Qed.

Lemma removeKeyPressForNote_removes_only_that_offset_witness :
  let k := construct (7#10) horizontalKeyboard in
  ~ In 5 (keyPressNotes (removeKeyPressForNote 5 k))
  /\ removeKeyPressForNote 99 k = k.
Proof.
  intro k.
  assert (L : length (keyPresses k) = length (keyPressNotes k))
    by apply construct_mappingInv.
  split.
  - exact (proj1 (proj2
             (removeKeyPressForNote_removes_only_that_offset 5 k L))).
  - apply (proj2 (proj2 (proj2
             (removeKeyPressForNote_removes_only_that_offset 99 k L)))).
    vm_compute. intro H.
    repeat (destruct H as [H | H]; [discriminate H|]). exact H.
Defined.

(** X17.  After clearKeyMappings no key of the computer keyboard reaches
    the widget: keyPressed answers false for every key, however the
    framework compares key presses, and a key-state notification, whatever
    keys are down, answers false and changes nothing.  No note is left held
    by a key or a pointer. *)
Theorem clearKeyMappings_silences_every_key
    (k : Keyboard) (equals : KeyPress -> KeyPress -> bool) (key : KeyPress)
    (down : KeyPress -> bool) :
  let k' := clearKeyMappings k in
  keyPressed equals key k' = false
  /\ keyStateChanged down k' = (false, k')
  /\ keysPressed k' = 0
  /\ mouseDownNotes k' = [].
Proof.
  intro k'.
  destruct (resetAnyKeysInUse_effect k) as [_ [_ [Z0 [D _]]]].
  split; [reflexivity|]. split; [reflexivity|].
  split; [exact Z0 | exact D].
Qed.

(** ** Losing the focus *)

Lemma resetAnyKeysInUse_nothing_held (k : Keyboard) :
  keysPressed k = 0 -> mouseDownNotes k = [] -> mouseOverNotes k = [] ->
  resetAnyKeysInUse k = k.
Proof.
  intros Z0 D O. unfold resetAnyKeysInUse. cbv zeta.
  rewrite Z0. cbn [Z.eqb negb]. rewrite D. cbn [releaseEntries fold_left].
  destruct k. cbn in D, O. subst. reflexivity.
Qed.

(** X18.  focusLost releases what is held, once.  It sends the note-off
    messages for the pressed-key bits and the press entries and empties the
    pressed-key bits and both tracked lists; a second focusLost finds
    nothing to release and leaves the widget exactly as it is. *)
Theorem focusLost_releases_everything_once (k : Keyboard) :
  let k' := focusLost k in
  sent k'
  = sent k ++ releaseMessages (midiChannel k) (keysPressed k)
                (mouseDownNotes k)
  /\ keysPressed k' = 0 /\ mouseDownNotes k' = [] /\ mouseOverNotes k' = []
  /\ focusLost k' = k'.
Proof.
  intro k'. unfold k', focusLost.
  destruct (resetAnyKeysInUse_effect k) as [S [_ [Z0 [D O]]]].
  split; [exact S|]. split; [exact Z0|]. split; [exact D|].
  split; [exact O|].
  apply resetAnyKeysInUse_nothing_held; assumption.
Qed.

(** ** The timer: drawing follows the shared note state *)

Lemma rescan_unfold on k :
  rescan on k
  = if shouldCheckState k
    then fold_left (rescanNote on) (notesInRange k)
           (with_shouldCheckState false k)
    else k.
Proof. reflexivity. Qed.

Lemma rescanNote_effect on acc i :
  rangeStart acc <= i <= rangeEnd acc -> 0 <= i ->
  rescanConfigOf (rescanNote on acc i) = rescanConfigOf acc
  /\ Z.testbit (keysCurrentlyDrawnDown (rescanNote on acc i)) i
     = on (midiInChannelMask acc) i
  /\ (forall m, i <> m ->
        Z.testbit (keysCurrentlyDrawnDown (rescanNote on acc i)) m
        = Z.testbit (keysCurrentlyDrawnDown acc) m)
  /\ sent (rescanNote on acc i)
     = sent acc ++ (if drawnStale on acc i then [repaintKey i] else []).
Proof.
  intros Hr Hi. unfold rescanNote, drawnStale. cbv zeta.
  destruct (Z.testbit (keysCurrentlyDrawnDown acc) i) eqn:T;
    destruct (on (midiInChannelMask acc) i) eqn:O; cbn [Bool.eqb negb];
    try (rewrite app_nil_r; repeat split; auto; fail);
    unfold repaintNote; fields;
    (replace ((rangeStart acc <=? i) && (i <=? rangeEnd acc)) with true
       by (symmetry; apply andb_true_iff; split; apply Z.leb_le; lia));
    fields;
    (split; [reflexivity|]);
    (split; [apply testbit_setBit_same; exact Hi|]);
    (split; [intros m Hm; apply testbit_setBit_neq; exact Hm | reflexivity]).
Qed.

Lemma rescanLoop_effect on (l : list Z) : forall acc,
  NoDup l ->
  (forall i, In i l -> rangeStart acc <= i <= rangeEnd acc /\ 0 <= i) ->
  rescanConfigOf (fold_left (rescanNote on) l acc) = rescanConfigOf acc
  /\ (forall i, In i l ->
        Z.testbit (keysCurrentlyDrawnDown (fold_left (rescanNote on) l acc)) i
        = on (midiInChannelMask acc) i)
  /\ (forall m, ~ In m l ->
        Z.testbit (keysCurrentlyDrawnDown (fold_left (rescanNote on) l acc)) m
        = Z.testbit (keysCurrentlyDrawnDown acc) m)
  /\ sent (fold_left (rescanNote on) l acc)
     = sent acc ++ map repaintKey (filter (drawnStale on acc) l).
Proof.
  induction l as [|x l IH]; intros acc N H; cbn [fold_left filter map].
  - split; [reflexivity|]. split; [intros i []|].
    split; [reflexivity | symmetry; apply app_nil_r].
  - inversion N as [|? ? Nx Nl]; subst.
    destruct (H x (or_introl eq_refl)) as [Hr Hx].
    destruct (rescanNote_effect on acc x Hr Hx) as [C [B [O S]]].
    assert (C' := C). unfold rescanConfigOf in C'.
    injection C' as C1 C2 C3 C4.
    destruct (IH (rescanNote on acc x) Nl) as [IC [IB [IO IS]]].
    { intros i Hi. rewrite ?C1, ?C2. apply H. right. exact Hi. }
    rewrite ?C3 in IB.
    split; [rewrite IC; exact C|].
    split; [|split].
    + intros i [<- | Hi]; [|rewrite ?C3; apply IB; exact Hi].
      rewrite IO by exact Nx. rewrite ?C3. exact B.
    + intros m Hm. rewrite IO by (intro Hin; apply Hm; right; exact Hin).
      apply O. intro E. apply Hm. left. exact E.
    + rewrite IS, S, <- app_assoc. f_equal.
      assert (F : filter (drawnStale on (rescanNote on acc x)) l
                  = filter (drawnStale on acc) l).
      { apply filter_ext_in. intros i Hi. unfold drawnStale.
        rewrite ?C3, O; [reflexivity|].
        intro E. subst i. exact (Nx Hi). }
      rewrite F. destruct (drawnStale on acc x); reflexivity.
Qed.

Lemma notesInRange_In (k : Keyboard) (i : Z) :
  In i (notesInRange k) <-> rangeStart k <= i <= rangeEnd k.
Proof.
  unfold notesInRange. rewrite in_map_iff. split.
  - intros [j [<- Hj]]. apply in_seq in Hj. lia.
  - intro H. exists (Z.to_nat (i - rangeStart k)).
    split; [lia | apply in_seq; lia].
Qed.

Lemma NoDup_offsets (a : Z) (n : nat) : forall s,
  NoDup (map (fun i => a + Z.of_nat i) (seq s n)).
Proof.
  induction n as [|n IH]; intro s; cbn [seq map]; constructor; [|apply IH].
  intro H. apply in_map_iff in H. destruct H as [j [E Hj]].
  apply in_seq in Hj. lia.
Qed.

Lemma updateNoteUnderMouse_fold_frame {C : Type} (obs : Keyboard -> C)
    (srcs : list PointerSample) :
  (forall l k, obs (with_sent l k) = obs k) ->
  (forall b k, obs (with_shouldCheckState b k) = obs k) ->
  (forall l k, obs (with_mouseOverNotes l k) = obs k) ->
  (forall l k, obs (with_mouseDownNotes l k) = obs k) ->
  (forall b k, obs (with_keysPressed b k) = obs k) ->
  forall k, obs (fold_left followPointer srcs k) = obs k.
Proof.
  intros H1 H2 H3 H4 H5.
  induction srcs as [|ms srcs IH]; intro k; cbn [fold_left]; [reflexivity|].
  rewrite IH. apply updateNoteUnderMouse_frame; assumption.
Qed.

(** X19.  The timer tick that follows a note callback brings the drawing in
    line with the shared note state.  handleNoteOn raises the flag (so does
    handleNoteOff); the next timerCallback makes the drawn-down bit of every
    note of the range equal to the answer of the note state for the channels
    displayed and leaves the bits of all other notes alone.  While no
    pointer is being followed, the tick lowers the flag and its requests
    are the repaints of exactly those keys whose bit changed, in ascending
    order.  (A tick that follows a dragging pointer may send note messages,
    whose callbacks raise the flag again.) *)
Theorem timer_tick_redraws_changed_keys
    (isNoteOnForChannels : Z -> Z -> bool)
    (sources : list PointerSample) (k : Keyboard)
    (Hrange : 0 <= rangeStart k) :
  let k' := timerCallback isNoteOnForChannels sources (handleNoteOn k) in
  handleNoteOff k = handleNoteOn k
  /\ (forall i, rangeStart k <= i <= rangeEnd k ->
        Z.testbit (keysCurrentlyDrawnDown k') i
        = isNoteOnForChannels (midiInChannelMask k) i)
  /\ (forall i, ~ rangeStart k <= i <= rangeEnd k ->
        Z.testbit (keysCurrentlyDrawnDown k') i
        = Z.testbit (keysCurrentlyDrawnDown k) i)
  /\ (shouldCheckMousePos k = false ->
      shouldCheckState k' = false
      /\ sent k'
         = sent k ++ map repaintKey
                       (filter (drawnStale isNoteOnForChannels k)
                          (notesInRange k))).
Proof.
  intro k'.
  destruct (rescanLoop_effect isNoteOnForChannels (notesInRange k)
              (with_shouldCheckState false k)) as [C [B [O S]]].
  { apply NoDup_offsets. }
  { intros i Hi. apply notesInRange_In in Hi. fields. lia. }
  assert (R : rescan isNoteOnForChannels (handleNoteOn k)
              = fold_left (rescanNote isNoteOnForChannels) (notesInRange k)
                  (with_shouldCheckState false k)).
  { rewrite rescan_unfold. unfold handleNoteOn. fields.
    destruct k; reflexivity. }
  assert (M : shouldCheckMousePos
                (fold_left (rescanNote isNoteOnForChannels) (notesInRange k)
                   (with_shouldCheckState false k))
              = shouldCheckMousePos k).
  { rewrite <- R. rewrite (rescan_frame shouldCheckMousePos);
      reflexivity. }
  unfold rescanConfigOf in C. injection C as C1 C2 C3 C4.
  fields_in C4. fields_in B. fields_in O. fields_in S.
  assert (K : keysCurrentlyDrawnDown k'
              = keysCurrentlyDrawnDown
                  (fold_left (rescanNote isNoteOnForChannels)
                     (notesInRange k) (with_shouldCheckState false k))).
  { unfold k'. rewrite timerCallback_unfold, R.
    destruct (negb (shouldCheckMousePos _)); [reflexivity|].
    apply (updateNoteUnderMouse_fold_frame keysCurrentlyDrawnDown);
      reflexivity. }
  split; [reflexivity|].
  split; [|split].
  - intros i Hi. rewrite K. apply B, notesInRange_In. exact Hi.
  - intros i Hi. rewrite K. apply O. rewrite notesInRange_In. exact Hi.
  - intro P. unfold k'. rewrite timerCallback_unfold, R, M, P.
    cbn [negb]. split; [rewrite ?C4; reflexivity | exact S].
Qed.

Lemma timer_tick_redraws_changed_keys_witness :
  let k := sizedKeyboard 1300 60 in
  let on := fun (mask note : Z) => note =? 60 in
  Z.testbit
    (keysCurrentlyDrawnDown (timerCallback on [] (handleNoteOn k))) 60
  = true.
Proof.
  intros k on.
  assert (H : 0 <= rangeStart k) by (vm_compute; discriminate).
  destruct (timer_tick_redraws_changed_keys on [] k H) as [_ [B _]].
  rewrite B; [reflexivity|]. vm_compute. split; discriminate.
Defined.

(** ** The scroll buttons and the wheel *)

(** X20.  A click on a scroll button asks for an octave boundary next to
    the lowest visible key: the up button for the first multiple of 12
    above it, the down button for the last multiple of 12 below it.  At key
    0 the down button asks for 0 again, because the division truncates
    towards zero. *)
Theorem clicked_asks_for_the_adjacent_octave
    (delta : Z) (k : Keyboard) (Hn : 0 <= getLowestVisibleKey k) :
  let note := getLowestVisibleKey k in
  exists octave,
    clicked delta k = setLowestVisibleKey (octave * 12) k
    /\ (if delta <? 0
        then (note = 0 /\ octave = 0)
             \/ (0 < note /\ octave * 12 < note <= octave * 12 + 12)
        else note < octave * 12 <= note + 12).
Proof.
  intro note. unfold clicked. cbv zeta. fold note.
  destruct (delta <? 0).
  - exists (Z.quot (note - 1) 12). split; [reflexivity|].
    destruct (Z.eq_dec note 0) as [E | E].
    + left. rewrite E. split; reflexivity.
    + right. fold note in Hn.
      pose proof (Z.quot_rem' (note - 1) 12).
      pose proof (Z.rem_bound_pos (note - 1) 12). lia.
  - exists (Z.quot note 12 + 1). split; [reflexivity|].
    fold note in Hn.
    pose proof (Z.quot_rem' note 12).
    pose proof (Z.rem_bound_pos note 12). lia.
Qed.

Lemma clicked_asks_for_the_adjacent_octave_witness :
  let k := sizedKeyboard 200 60 in
  exists octave,
    clicked 1 k = setLowestVisibleKey (octave * 12) k
    /\ getLowestVisibleKey k < octave * 12 <= getLowestVisibleKey k + 12.
Proof.
  intro k.
  apply (clicked_asks_for_the_adjacent_octave 1 k).
  vm_compute. discriminate.
Defined.

(** X21.  A wheel event that carries no movement leaves the widget exactly
    as it is, provided the lowest visible note lies in the range. *)
Theorem wheel_without_movement_changes_nothing
    (deltaX deltaY : Q) (k : Keyboard)
    (Hx : (deltaX == 0)%Q) (Hy : (deltaY == 0)%Q)
    (Hin : firstKeyInRange k) :
  mouseWheelMove deltaX deltaY k = k.
Proof.
  destruct Hin as [_ Hf].
  unfold mouseWheelMove. cbv zeta.
  match goal with |- setLowestVisibleKeyFloat (firstKey k - ?a * _)%Q k = k =>
    assert (A : (a == 0)%Q)
  end.
  { destruct (orientation k); try (rewrite Hy; reflexivity).
    destruct (negb (Qeq_bool deltaX 0)); [exact Hx | rewrite Hy; reflexivity]. }
  revert A.
  match goal with |- (?a == 0)%Q -> _ => generalize a end.
  intros a A. unfold setLowestVisibleKeyFloat. cbv zeta.
  assert (V : (firstKey k - a * keyWidth k == firstKey k)%Q)
    by (rewrite A; ring).
  rewrite jlimitf_inside by (rewrite V; exact Hf).
  replace (Qeq_bool (firstKey k - a * keyWidth k) (firstKey k)) with true
    by (symmetry; apply Qeq_bool_iff; exact V).
  reflexivity.
Qed.

Lemma wheel_without_movement_changes_nothing_witness :
  let k := sizedKeyboard 200 60 in
  mouseWheelMove 0 0 k = k.
Proof.
  intro k.
  apply (wheel_without_movement_changes_nothing 0 0 k);
    try reflexivity.
  apply resized_firstKeyInRange.
  vm_compute. split; [discriminate | split; discriminate].
Defined.

(** ** Construction: the default bindings *)

(** X22.  The constructor binds the characters of its literal, in order, to
    the offsets 0, 1, 2, ...; the terminating zero of the literal is
    visited too, so that key code 0 ends up bound to offset 17.  A new
    widget holds nothing, and the only request it has made is a repaint. *)
Theorem construct_binds_the_literal_in_order
    (tableRatio : Q) (o : Orientation) :
  let k := construct tableRatio o in
  bindings k
  = combine
      (map (fun c => {| keyCode := c; mods := 0; textCharacter := 0 |})
         defaultKeys)
      (map Z.of_nat (seq 0 (length defaultKeys)))
  /\ In ({| keyCode := 0; mods := 0; textCharacter := 0 |}, 17) (bindings k)
  /\ keysPressed k = 0 /\ mouseDownNotes k = [] /\ mouseOverNotes k = []
  /\ sent k = [repaint].
Proof.
  intro k.
  assert (B : bindings k
              = combine
                  (map (fun c => {| keyCode := c; mods := 0;
                                    textCharacter := 0 |}) defaultKeys)
                  (map Z.of_nat (seq 0 (length defaultKeys))))
    by (vm_compute; reflexivity).
  split; [exact B|].
  split; [rewrite B; vm_compute; do 17 right; left; reflexivity|].
  repeat split; vm_compute; reflexivity.
Qed.

(** ** Configuration calls never play a note *)

Lemma quietly_refl k : quietly k k.
Proof.
  split; [|reflexivity].
  exists []. split; [symmetry; apply app_nil_r | constructor].
Qed.

Lemma quietly_trans k1 k2 k3 : quietly k1 k2 -> quietly k2 k3 -> quietly k1 k3.
Proof.
  intros [[e1 [S1 F1]] H1] [[e2 [S2 F2]] H2]. split.
  - exists (e1 ++ e2). rewrite S2, S1, app_assoc.
    split; [reflexivity | apply Forall_app; auto].
  - rewrite H2. exact H1.
Qed.

Lemma quietly_send r k : viewRequest r -> quietly k (send r k).
Proof.
  intro H. destruct r; try contradiction;
    (split; [|reflexivity]);
    (eexists; split; [reflexivity | repeat constructor]).
Qed.

(** An update of a member other than the requests and the held notes. *)
Ltac quiet_update :=
  split; [exists []; split; [symmetry; apply app_nil_r | constructor]
         | reflexivity].

(** Peels the member updates and viewport requests off the final state. *)
Ltac quiet_steps :=
  repeat match goal with
         | |- quietly ?k ?k => apply quietly_refl
         | |- quietly ?k (send ?r ?x) =>
             apply (quietly_trans k x); [|apply quietly_send; exact I]
         | |- quietly ?k (?f ?v ?x) =>
             apply (quietly_trans k x); [|quiet_update]
         end.

Lemma relayoutSnap_quietly w k : quietly k (relayoutSnap w k).
Proof. unfold relayoutSnap. branches; quiet_steps. Qed.

Lemma relayoutScroll_quietly w k : quietly k (relayoutScroll w k).
Proof.
  unfold relayoutScroll. cbv zeta.
  destruct (canScroll k); [|quiet_update].
  match goal with |- context [if ?c then _ else _] => destruct c end;
    quiet_steps.
Qed.

Lemma resized_quietly k : quietly k (resized k).
Proof.
  destruct (Z_le_gt_dec (getWidth k) 0) as [W | W];
    [rewrite resized_without_size by auto; apply quietly_refl|].
  destruct (Z_le_gt_dec (getHeight k) 0) as [H | H];
    [rewrite resized_without_size by auto; apply quietly_refl|].
  rewrite resized_stages by lia. unfold relayoutStages. cbv zeta.
  eapply quietly_trans; [|apply quietly_send; exact I].
  eapply quietly_trans; [|quiet_update].
  eapply quietly_trans; [|apply relayoutScroll_quietly].
  eapply quietly_trans; [|quiet_update].
  eapply quietly_trans; [|quiet_update].
  apply relayoutSnap_quietly.
Qed.

Lemma setLowestVisibleKeyFloat_quietly n k :
  quietly k (setLowestVisibleKeyFloat n k).
Proof.
  unfold setLowestVisibleKeyFloat. cbv zeta.
  destruct (negb (Qeq_bool _ _)); [|apply quietly_refl].
  eapply quietly_trans; [|apply resized_quietly].
  destruct (negb (_ =? _)); quiet_steps.
Qed.

Lemma removeKeyPressLoop_quietly o i : forall k,
  quietly k (removeKeyPressLoop i o k).
Proof.
  induction i as [|i IH]; intro k; cbn [removeKeyPressLoop];
    [apply quietly_refl|].
  cbv zeta. eapply quietly_trans; [|apply IH].
  destruct (_ =? _); quiet_steps.
Qed.

(** X23.  Configuring the widget never plays or releases a note.  Whatever
    the state, a call that sets the size, the key width, the orientation,
    the range, the lowest visible key, the scroll buttons, the colours, the
    channels displayed, the velocity, the octave numbering, the black-note
    proportions, the base octave or a binding, and a wheel event, sends
    nothing but change messages and repaints of the whole widget, and
    leaves the pressed-key bits, the press list, the hover list and the
    channel as they are. *)
Theorem configuration_calls_never_play_notes
    (a : Action) (k : Keyboard) (Ha : configurationAction a = true) :
  (exists extra,
     sent (step a k) = sent k ++ extra /\ Forall viewRequest extra)
  /\ heldNotesOf (step a k) = heldNotesOf k.
Proof.
  change (quietly k (step a k)).
  destruct a; try discriminate Ha; cbn [step].
  - unfold setSize.
    eapply quietly_trans; [|apply resized_quietly]. quiet_steps.
  - unfold setKeyWidth. destruct (Qeq_bool _ _); [apply quietly_refl|].
    eapply quietly_trans; [|apply resized_quietly]. quiet_steps.
  - unfold setOrientation.
    destruct (Orientation_eqb _ _); [apply quietly_refl|].
    eapply quietly_trans; [|apply resized_quietly]. quiet_steps.
  - unfold setAvailableRange. cbv zeta.
    destruct (_ || _); [|apply quietly_refl].
    eapply quietly_trans; [|apply resized_quietly]. quiet_steps.
  - apply setLowestVisibleKeyFloat_quietly.
  - apply setLowestVisibleKeyFloat_quietly.
  - apply setLowestVisibleKeyFloat_quietly.
  - unfold setScrollButtonsVisible.
    destruct (negb _); [|apply quietly_refl].
    eapply quietly_trans; [|apply resized_quietly]. quiet_steps.
  - apply quietly_send. exact I.
  - unfold setMidiChannelsToDisplay. quiet_steps.
  - unfold setVelocity. quiet_steps.
  - unfold setOctaveForMiddleC. quiet_steps.
  - unfold setBlackNoteLengthProportion.
    destruct (Qeq_bool _ _); [apply quietly_refl|].
    eapply quietly_trans; [|apply resized_quietly]. quiet_steps.
  - unfold setBlackNoteWidthProportion.
    destruct (Qeq_bool _ _); [apply quietly_refl|].
    eapply quietly_trans; [|apply resized_quietly]. quiet_steps.
  - unfold setKeyPressBaseOctave. quiet_steps.
  - apply setLowestVisibleKeyFloat_quietly.
  - unfold setKeyPressForNote. cbv zeta.
    eapply quietly_trans; [|quiet_update].
    eapply quietly_trans; [|quiet_update].
    apply removeKeyPressLoop_quietly.
  - apply removeKeyPressLoop_quietly.
Qed.

Lemma configuration_calls_never_play_notes_witness :
  heldNotesOf (step (DoSetAvailableRange 60 72) pressLowestKey)
  = heldNotesOf pressLowestKey.
Proof.
  exact (proj2 (configuration_calls_never_play_notes
                  (DoSetAvailableRange 60 72) pressLowestKey eq_refl)).
Defined.

(** ** Painting: which keys are drawn *)

Lemma existsb_eqb_In (n : Z) (l : list Z) :
  existsb (Z.eqb n) l = true <-> In n l.
Proof.
  rewrite existsb_exists. split.
  - intros [x [Hx E]]. apply Z.eqb_eq in E. subst x. exact Hx.
  - intro H. exists n. split; [exact H | apply Z.eqb_refl].
Qed.

Lemma nodupb_NoDup (l : list Z) : nodupb l = true -> NoDup l.
Proof.
  induction l as [|x l IH]; cbn [nodupb]; intro H; constructor;
    apply andb_true_iff in H; destruct H as [H1 H2].
  - intro Hin. apply existsb_eqb_In in Hin. rewrite Hin in H1. discriminate.
  - apply IH. exact H2.
Qed.

Lemma paintCheck_holds : paintCheck = true.
Proof. vm_compute. reflexivity. Qed.

(** Which notes a pass visits. *)
Lemma visited_notes (n : Z) :
  (In n (visited whiteNotes)
   <-> 0 <= n < 132 /\ isMidiNoteBlack n = false)
  /\ (In n (visited blackNotes)
      <-> 0 <= n < 132 /\ isMidiNoteBlack n = true).
Proof.
  pose proof paintCheck_holds as C. unfold paintCheck in C.
  repeat (apply andb_true_iff in C; destruct C as [C ?]).
  match goal with H : forallb _ (_ ++ _) = true |- _ =>
    rewrite forallb_app in H; apply andb_true_iff in H;
    destruct H as [RW RB] end.
  rewrite forallb_forall in RW, RB.
  assert (R : forall m, 0 <= m < 132 -> In m (map Z.of_nat (seq 0 132))).
  { intros m Hm. apply in_map_iff. exists (Z.to_nat m).
    split; [lia | apply in_seq; lia]. }
  match goal with
  | HW : forallb (fun n => Bool.eqb (existsb _ (visited whiteNotes)) _) _
         = true,
    HB : forallb (fun n => Bool.eqb (existsb _ (visited blackNotes)) _) _
         = true |- _ =>
      rewrite forallb_forall in HW, HB;
      assert (W := fun m Hm => HW m (R m Hm));
      assert (B := fun m Hm => HB m (R m Hm))
  end.
  cbv beta in W, B.
  split; split.
  - intro Hin. assert (Hn : 0 <= n < 132) by (specialize (RW n Hin); lia).
    split; [exact Hn|].
    specialize (W n Hn). apply existsb_eqb_In in Hin. rewrite Hin in W.
    destruct (isMidiNoteBlack n); [discriminate W | reflexivity].
  - intros [Hn E]. specialize (W n Hn). rewrite E in W.
    apply existsb_eqb_In.
    destruct (existsb (Z.eqb n) (visited whiteNotes));
      [reflexivity | discriminate W].
  - intro Hin. assert (Hn : 0 <= n < 132) by (specialize (RB n Hin); lia).
    split; [exact Hn|].
    specialize (B n Hn). apply existsb_eqb_In in Hin. rewrite Hin in B.
    destruct (isMidiNoteBlack n); [reflexivity | discriminate B].
  - intros [Hn E]. specialize (B n Hn). rewrite E in B.
    apply existsb_eqb_In.
    destruct (existsb (Z.eqb n) (visited blackNotes));
      [reflexivity | discriminate B].
Qed.

Lemma visited_NoDup :
  NoDup (visited whiteNotes) /\ NoDup (visited blackNotes).
Proof.
  pose proof paintCheck_holds as C. unfold paintCheck in C.
  repeat (apply andb_true_iff in C; destruct C as [C ?]).
  split; apply nodupb_NoDup; assumption.
Qed.

Lemma notesToPaint_In (k : Keyboard) (notes : list Z) (n : Z) :
  In n (notesToPaint k notes)
  <-> In n (visited notes) /\ rangeStart k <= n <= rangeEnd k.
Proof.
  unfold notesToPaint. fold (visited notes).
  rewrite filter_In, andb_true_iff, !Z.leb_le. reflexivity.
Qed.

Lemma paint_notes on k :
  map drawnNote (paint on k)
  = notesToPaint k whiteNotes ++ notesToPaint k blackNotes.
Proof.
  unfold paint. rewrite map_app, !map_map. cbn [drawnNote].
  rewrite !map_id. reflexivity.
Qed.

(** X24.  paint draws every key of the range exactly once, the white keys
    before the black keys that lie over them.  The notes drawn are the
    notes of the range among 0..131, each once; a white call is made only
    for a note that is not black and a black call only for a black note;
    each call carries the rectangle of its key, the answer of the note
    state for the channels displayed, and the hover flag, which is set
    exactly when some pointer source hovers over the note. *)
Theorem paint_draws_each_key_of_the_range_once
    (isNoteOnForChannels : Z -> Z -> bool) (k : Keyboard) :
  let calls := paint isNoteOnForChannels k in
  NoDup (map drawnNote calls)
  /\ (forall n, In n (map drawnNote calls)
                <-> 0 <= n < 132 /\ rangeStart k <= n <= rangeEnd k)
  /\ (forall c, In c calls ->
        drawsBlack c = isMidiNoteBlack (drawnNote c)
        /\ exists isOver,
             c = (if drawsBlack c then drawBlackNote else drawWhiteNote)
                   (drawnNote c) (getRectangleForKey k (drawnNote c))
                   (isNoteOnForChannels (midiInChannelMask k) (drawnNote c))
                   isOver
             /\ (isOver = true <->
                 exists x, In x (mouseOverNotes k)
                           /\ noteNumber x = drawnNote c))
  /\ exists whites blacks,
       calls = whites ++ blacks
       /\ Forall (fun c => drawsBlack c = false) whites
       /\ Forall (fun c => drawsBlack c = true) blacks.
Proof.
  intro calls. unfold calls.
  destruct visited_NoDup as [NW NB].
  assert (O : forall n, containsNoteNumber (mouseOverNotes k) n = true
                        <-> exists x, In x (mouseOverNotes k)
                                      /\ noteNumber x = n).
  { intro n. unfold containsNoteNumber. rewrite existsb_exists.
    split; intros [x [Hx E]]; exists x; split; auto;
      [apply Z.eqb_eq | apply Z.eqb_eq]; exact E. }
  split; [|split; [|split]].
  - rewrite paint_notes. unfold notesToPaint.
    fold (visited whiteNotes). fold (visited blackNotes).
    apply NoDup_app; [apply NoDup_filter; exact NW
                     | apply NoDup_filter; exact NB |].
    intros n Hw Hb. apply filter_In in Hw, Hb.
    destruct Hw as [Hw _], Hb as [Hb _].
    apply (proj1 (visited_notes n)) in Hw.
    apply (proj2 (visited_notes n)) in Hb.
    destruct Hw as [_ Hw], Hb as [_ Hb]. congruence.
  - intro n. rewrite paint_notes, in_app_iff, !notesToPaint_In.
    rewrite (proj1 (visited_notes n)), (proj2 (visited_notes n)).
    destruct (isMidiNoteBlack n); intuition congruence.
  - intros c Hc. unfold paint in Hc. apply in_app_or in Hc.
    destruct Hc as [Hc | Hc]; apply in_map_iff in Hc;
      destruct Hc as [n [<- Hn]]; cbn [drawsBlack drawnNote];
      apply notesToPaint_In in Hn; destruct Hn as [Hn _].
    + apply (proj1 (visited_notes n)) in Hn. destruct Hn as [_ Hn].
      split; [symmetry; exact Hn|].
      eexists. split; [reflexivity | apply O].
    + apply (proj2 (visited_notes n)) in Hn. destruct Hn as [_ Hn].
      split; [symmetry; exact Hn|].
      eexists. split; [reflexivity | apply O].
  - unfold paint. eexists. eexists. split; [reflexivity|].
    split; apply Forall_forall; intros c Hc; apply in_map_iff in Hc;
      destruct Hc as [n [<- _]]; reflexivity.
Qed.

(** ** Viewport: relayout settles in one pass *)

Lemma relayoutKey_idempotent (w : Z) (k : Keyboard) (f : Q) :
  relayoutKey w k (relayoutKey w k f) = relayoutKey w k f.
Proof.
  unfold relayoutKey. cbv zeta.
  destruct (canScroll k); [|reflexivity].
  generalize (lastStartKey w (with_xOffset 0 k)) as l.
  generalize (spanFits w k) as fits.
  generalize (rangeStart k) as rs. generalize (rangeEnd k) as re.
  intros re rs fits l.
  assert (J : forall v, truncToInt (inject_Z v) = v)
    by apply truncToInt_inject_Z.
  assert (Jl : (0 <=? l) && (l <? rs) = true -> jlimit rs re l = rs).
  { intro E. apply andb_true_iff in E. destruct E as [_ E].
    apply Z.ltb_lt in E. unfold jlimit.
    replace (l <? rs) with true by (symmetry; apply Z.ltb_lt; lia).
    reflexivity. }
  destruct (truncToInt f =? rs) eqn:T; cbn [negb andb].
  - (* the note found truncates to the range start *)
    apply Z.eqb_eq in T. rewrite T.
    destruct ((0 <=? l) && (l <? rs)) eqn:E.
    + rewrite (Jl eq_refl), J, Z.eqb_refl. cbn [negb andb].
      rewrite J, E. reflexivity.
    + rewrite T, Z.eqb_refl. cbn [negb andb]. rewrite T, E. reflexivity.
  - destruct fits; cbn [andb].
    + (* snapped back to the range start *)
      rewrite J.
      destruct ((0 <=? l) && (l <? rs)) eqn:E.
      * rewrite (Jl eq_refl), J, Z.eqb_refl. cbn [negb andb].
        rewrite J, E. reflexivity.
      * rewrite J, Z.eqb_refl. cbn [negb andb]. rewrite J, E. reflexivity.
    + (* the keys do not fit: only the scroll stage acts *)
      rewrite !andb_false_r.
      destruct ((0 <=? l) && (l <? truncToInt f)) eqn:E;
        [|rewrite E; reflexivity].
      rewrite J.
      destruct ((0 <=? l) && (l <? jlimit rs re l)) eqn:E2; reflexivity.
Qed.

(** Relayout cannot be snapped back a second time. *)
Lemma relayoutKey_stays (w : Z) (k : Keyboard) (f : Q) :
  (if negb (truncToInt (relayoutKey w k f) =? rangeStart k) && spanFits w k
   then inject_Z (rangeStart k) else relayoutKey w k f)
  = relayoutKey w k f.
Proof.
  unfold relayoutKey. cbv zeta.
  assert (J : forall v, truncToInt (inject_Z v) = v)
    by apply truncToInt_inject_Z.
  destruct (canScroll k);
    [|rewrite J, Z.eqb_refl; reflexivity].
  generalize (lastStartKey w (with_xOffset 0 k)) as l.
  generalize (spanFits w k) as fits.
  generalize (rangeStart k) as rs. generalize (rangeEnd k) as re.
  intros re rs fits l.
  assert (Jl : (0 <=? l) && (l <? rs) = true -> jlimit rs re l = rs).
  { intro E. apply andb_true_iff in E. destruct E as [_ E].
    apply Z.ltb_lt in E. unfold jlimit.
    replace (l <? rs) with true by (symmetry; apply Z.ltb_lt; lia).
    reflexivity. }
  destruct fits; [|rewrite !andb_false_r; reflexivity].
  rewrite !andb_true_r.
  destruct (truncToInt f =? rs) eqn:T; cbn [negb].
  - apply Z.eqb_eq in T. rewrite T.
    destruct ((0 <=? l) && (l <? rs)) eqn:E.
    + rewrite (Jl eq_refl), J, Z.eqb_refl. reflexivity.
    + rewrite T, Z.eqb_refl. reflexivity.
  - rewrite J.
    destruct ((0 <=? l) && (l <? rs)) eqn:E.
    + rewrite (Jl eq_refl), J, Z.eqb_refl. reflexivity.
    + rewrite J, Z.eqb_refl. reflexivity.
Qed.

Lemma Qle_bool_compat (x x' y : Q) :
  (x == x')%Q -> Qle_bool x y = Qle_bool x' y.
Proof.
  intro E. apply bool_eq_of_iff. rewrite !Qle_bool_iff, E. reflexivity.
Qed.

Lemma spanFits_xOffset (w : Z) (x : Q) (k : Keyboard) :
  spanFits w (with_xOffset x k) = spanFits w k.
Proof.
  unfold spanFits. apply Qle_bool_compat.
  rewrite !getKeyPos_end, !getKeyPos_start. fields.
  change (getKeyPosition (with_xOffset x k)) with (getKeyPosition k).
  ring.
Qed.

Lemma hitTestConfig_members (k k' : Keyboard) :
  hitTestConfigOf k' = hitTestConfigOf k ->
  rangeStart k' = rangeStart k /\ rangeEnd k' = rangeEnd k
  /\ xOffset k' = xOffset k.
Proof.
  unfold hitTestConfigOf. intro E.
  injection E as E1 E2 E3 E4 E5 E6 E7 E8 E9 E10 E11 E12. auto.
Qed.

Lemma hitTestConfig_xOffset (k k' : Keyboard) (x : Q) :
  hitTestConfigOf (with_xOffset 0 k') = hitTestConfigOf (with_xOffset 0 k) ->
  hitTestConfigOf (with_xOffset x k') = hitTestConfigOf (with_xOffset x k).
Proof.
  unfold hitTestConfigOf. fields. intro E.
  injection E as E1 E2 E3 E4 E5 E6 E7 E8 E9 E10 E11.
  rewrite E1, E2, E3, E4, E5, E6, E7, E8, E9, E10, E11. reflexivity.
Qed.

Lemma spanFits_config (w : Z) (k k' : Keyboard) :
  hitTestConfigOf k' = hitTestConfigOf k -> spanFits w k' = spanFits w k.
Proof.
  intro E. destruct (hitTestConfig_members k k' E) as [R1 [R2 _]].
  unfold spanFits. rewrite !(same_getKeyPos k k' E), R1, R2. reflexivity.
Qed.

Lemma lastStartKey_config (w : Z) (k k' : Keyboard) :
  hitTestConfigOf k' = hitTestConfigOf k ->
  lastStartKey w k' = lastStartKey w k.
Proof.
  intro E. destruct (hitTestConfig_members k k' E) as [_ [R2 _]].
  unfold lastStartKey.
  rewrite (same_remappedXYToNote k k' E), (same_getKeyPos k k' E), R2.
  reflexivity.
Qed.

Lemma relayoutKey_config (w : Z) (k k' : Keyboard) (f : Q) :
  hitTestConfigOf (with_xOffset 0 k') = hitTestConfigOf (with_xOffset 0 k) ->
  canScroll k' = canScroll k ->
  relayoutKey w k' f = relayoutKey w k f.
Proof.
  intros E C. destruct (hitTestConfig_members _ _ E) as [R1 [R2 _]].
  fields_in R1. fields_in R2.
  unfold relayoutKey.
  rewrite C, R1, R2, (lastStartKey_config w _ _ E).
  rewrite <- (spanFits_xOffset w 0 k'), (spanFits_config w _ _ E),
    spanFits_xOffset.
  reflexivity.
Qed.

Lemma relayoutSnap_firstKey (w : Z) (k : Keyboard) :
  firstKey (relayoutSnap w k)
  = if negb (truncToInt (firstKey k) =? rangeStart k) && spanFits w k
    then inject_Z (rangeStart k) else firstKey k.
Proof.
  unfold relayoutSnap, spanFits.
  destruct (negb (truncToInt (firstKey k) =? rangeStart k)); [|reflexivity].
  cbn [andb]. destruct (Qle_bool _ _); reflexivity.
Qed.

Lemma relayoutSnap_config (w : Z) (x : Q) (k : Keyboard) :
  hitTestConfigOf (with_xOffset x (relayoutSnap w k))
  = hitTestConfigOf (with_xOffset x k).
Proof. unfold relayoutSnap. branches; reflexivity. Qed.

Lemma relayoutScroll_firstKey (w : Z) (k3 : Keyboard) :
  firstKey (relayoutScroll w k3)
  = if canScroll k3 then
      if (0 <=? lastStartKey w k3)
         && (lastStartKey w k3 <? truncToInt (firstKey k3))
      then inject_Z (jlimit (rangeStart k3) (rangeEnd k3)
                       (lastStartKey w k3))
      else firstKey k3
    else inject_Z (rangeStart k3).
Proof.
  unfold relayoutScroll, lastStartKey. cbv zeta.
  destruct (canScroll k3); [|reflexivity].
  match goal with |- context [if ?c then _ else _] => destruct c end;
    reflexivity.
Qed.

Lemma relayoutScroll_config (w : Z) (x : Q) (k3 : Keyboard) :
  hitTestConfigOf (with_xOffset x (relayoutScroll w k3))
  = hitTestConfigOf (with_xOffset x k3)
  /\ canScroll (relayoutScroll w k3) = canScroll k3.
Proof.
  unfold relayoutScroll. cbv zeta.
  destruct (canScroll k3) eqn:C; [|split; [reflexivity | exact C]].
  match goal with |- context [if ?c then _ else _] => destruct c end;
    (split; [reflexivity | exact C]).
Qed.

Lemma relayoutScroll_xOffset (w : Z) (k3 : Keyboard) :
  xOffset (relayoutScroll w k3)
  = if canScroll k3
    then getStart
           (getKeyPos k3 (truncToInt (firstKey (relayoutScroll w k3))))
    else xOffset k3.
Proof.
  unfold relayoutScroll. cbv zeta.
  destruct (canScroll k3); [|reflexivity].
  match goal with |- context [if ?c then _ else _] => destruct c end;
    reflexivity.
Qed.

(** The viewport relayout arrives at, for a sized widget. *)
Lemma relayoutStages_viewport (k : Keyboard) :
  firstKey (relayoutStages k)
  = relayoutKey (availableSize k) k (firstKey k)
  /\ xOffset (relayoutStages k)
     = (if canScroll k
        then getStart
               (getKeyPos (with_xOffset 0 k)
                  (truncToInt (firstKey (relayoutStages k))))
        else 0%Q)
  /\ scrollUpVisible (relayoutStages k)
     = canScroll k
       && Qltb (inject_Z (availableSize k))
            (getStart
               (getKeyPos (with_xOffset (xOffset (relayoutStages k)) k)
                  (rangeEnd k)))
  /\ scrollDownVisible (relayoutStages k)
     = canScroll k
       && Qltb (inject_Z (rangeStart k))
            (firstKey (relayoutSnap (availableSize k) k)).
Proof.
  unfold relayoutStages. cbv zeta.
  generalize (availableSize k) as w. intro w.
  assert (F1 := relayoutSnap_firstKey w k).
  assert (G1 := relayoutSnap_config w 0 k).
  destruct (relayoutSnap_canScroll w k) as [C1 R1].
  revert F1 G1 C1 R1. generalize (relayoutSnap w k) as k1.
  intros k1 F1 G1 C1 R1.
  set (k3 := with_xOffset 0
               (with_scrollDownVisible
                  (canScroll k1 && Qltb (inject_Z (rangeStart k1))
                                     (firstKey k1)) k1)).
  assert (G3 : hitTestConfigOf k3 = hitTestConfigOf (with_xOffset 0 k))
    by (rewrite <- G1; reflexivity).
  assert (C3 : canScroll k3 = canScroll k) by exact C1.
  assert (F3 : firstKey k3 = firstKey k1) by reflexivity.
  assert (D3 : scrollDownVisible k3
               = canScroll k && Qltb (inject_Z (rangeStart k)) (firstKey k1))
    by (unfold k3; fields; rewrite C1, R1; reflexivity).
  assert (F4 := relayoutScroll_firstKey w k3).
  assert (X4 := relayoutScroll_xOffset w k3).
  assert (G4 := fun x => proj1 (relayoutScroll_config w x k3)).
  assert (C4 := proj2 (relayoutScroll_config w 0 k3)).
  assert (D4 : scrollDownVisible (relayoutScroll w k3) = scrollDownVisible k3).
  { unfold relayoutScroll. cbv zeta. destruct (canScroll k3); [|reflexivity].
    match goal with |- context [if ?c then _ else _] => destruct c end;
      reflexivity. }
  destruct (hitTestConfig_members _ _ G3) as [R3 [E3 _]].
  fields_in R3. fields_in E3.
  rewrite (lastStartKey_config w _ _ G3), C3, F3, R3, E3 in F4.
  rewrite C3, (same_getKeyPos _ _ G3) in X4.
  change (xOffset k3) with 0%Q in X4.
  assert (G3' : hitTestConfigOf (with_xOffset 0 k3)
                = hitTestConfigOf (with_xOffset 0 k)) by exact G3.
  clearbody k3. revert F4 X4 G4 C4 D4.
  generalize (relayoutScroll w k3) as k4. intros k4 F4 X4 G4 C4 D4.
  fields.
  split; [|split; [|split]].
  - rewrite F4. unfold relayoutKey. cbv zeta. rewrite F1. reflexivity.
  - exact X4.
  - rewrite C4, C3.
    assert (G : hitTestConfigOf k4
                = hitTestConfigOf (with_xOffset (xOffset k4) k)).
    { transitivity (hitTestConfigOf (with_xOffset (xOffset k4) k4));
        [destruct k4; reflexivity|].
      rewrite (G4 (xOffset k4)).
      apply hitTestConfig_xOffset. exact G3'. }
    destruct (hitTestConfig_members _ _ G) as [_ [E4 _]]. fields_in E4.
    rewrite (same_getKeyPos _ _ G), E4. reflexivity.
  - rewrite D4. exact D3.
Qed.

(** X25.  Relayout settles in one pass.  On a sized widget a second
    relayout moves nothing: the lowest visible note, the scroll offset and
    the visibility of the upper scroll button are those of the first pass.
    The lower scroll button, whose visibility the first pass decides before
    its scroll stage may move the lowest visible note, is shown after the
    second pass exactly when scrolling is on and the lowest visible note
    lies above the range start. *)
Theorem relayout_settles_in_one_pass
    (k : Keyboard) (Hw : 0 < getWidth k) (Hh : 0 < getHeight k) :
  let k1 := resized k in
  let k2 := resized k1 in
  firstKey k2 = firstKey k1
  /\ xOffset k2 = xOffset k1
  /\ scrollUpVisible k2 = scrollUpVisible k1
  /\ scrollDownVisible k2
     = canScroll k && Qltb (inject_Z (rangeStart k)) (firstKey k1).
Proof.
  intros k1 k2.
  assert (W1 : getWidth k1 = getWidth k)
    by (apply (resized_frame getWidth); reflexivity).
  assert (H1 : getHeight k1 = getHeight k)
    by (apply (resized_frame getHeight); reflexivity).
  assert (G : hitTestConfigOf (with_xOffset 0 k1)
              = hitTestConfigOf (with_xOffset 0 k))
    by (apply (resized_frame (fun k => hitTestConfigOf (with_xOffset 0 k)));
        reflexivity).
  assert (C : canScroll k1 = canScroll k)
    by (apply (resized_frame canScroll); reflexivity).
  assert (A : availableSize k1 = availableSize k)
    by (apply (resized_frame availableSize); reflexivity).
  destruct (resized_range k) as [R1 R2]. fold k1 in R1, R2.
  assert (V1 := relayoutStages_viewport k).
  rewrite <- (resized_stages k Hw Hh) in V1. fold k1 in V1.
  assert (V2 := relayoutStages_viewport k1).
  rewrite <- (resized_stages k1) in V2 by lia. fold k2 in V2.
  clearbody k2. clearbody k1.
  destruct V1 as [F1 [X1 [U1 _]]]. destruct V2 as [F2 [X2 [U2 D2]]].
  rewrite A in F2, U2, D2. rewrite C in X2, U2, D2. rewrite R1 in D2.
  rewrite R2 in U2.
  rewrite (relayoutKey_config _ _ _ _ G C) in F2.
  assert (F : firstKey k2 = firstKey k1)
    by (rewrite F2, F1; apply relayoutKey_idempotent).
  assert (X : xOffset k2 = xOffset k1)
    by (rewrite X2, X1, F, (same_getKeyPos _ _ G); reflexivity).
  split; [exact F|]. split; [exact X|]. split.
  - rewrite U2, U1, X.
    rewrite (same_getKeyPos _ _ (hitTestConfig_xOffset _ _ (xOffset k1) G)).
    reflexivity.
  - rewrite D2, relayoutSnap_firstKey, R1.
    rewrite <- (spanFits_xOffset _ 0 k1), (spanFits_config _ _ _ G),
      spanFits_xOffset.
    rewrite F1. rewrite relayoutKey_stays. reflexivity.
Qed.

Lemma relayout_settles_in_one_pass_witness :
  let k := with_getHeight 60 (with_getWidth 200
             (construct (7#10) horizontalKeyboard)) in
  firstKey (resized (resized k)) = firstKey (resized k)
  /\ xOffset (resized (resized k)) = xOffset (resized k).
Proof.
  intro k.
  destruct (relayout_settles_in_one_pass k eq_refl eq_refl)
    as [F [X _]].
  split; [exact F | exact X].
Defined.

(** ** Geometry: the white keys tile the keyboard *)

Lemma isMidiNoteBlack_octave (a j : Z) :
  0 <= a -> 0 <= j < 12 -> isMidiNoteBlack (12 * a + j) = isMidiNoteBlack j.
Proof.
  intros Ha Hj. rewrite <- isMidiNoteBlack_rem, rem_octave by assumption.
  reflexivity.
Qed.

Lemma tablePos_next_white (ratio : Q) (n : Z) :
  0 <= n -> isMidiNoteBlack n = false ->
  isMidiNoteBlack (nextWhiteNote n) = false
  /\ (tablePos ratio (nextWhiteNote n) == tablePos ratio n + 1)%Q.
Proof.
  intros Hn Hw.
  pose proof (Z.quot_rem' n 12) as Hq.
  assert (Ha : 0 <= Z.quot n 12) by (apply Z.quot_pos; lia).
  set (a := Z.quot n 12) in *.
  rewrite <- isMidiNoteBlack_rem in Hw.
  unfold nextWhiteNote.
  destruct (rem12_cases n Hn) as
    [E|[E|[E|[E|[E|[E|[E|[E|[E|[E|[E|E]]]]]]]]]]];
    rewrite E in Hq, Hw; try discriminate Hw; clear Hw E.
  7: { replace n with (12 * a + 11) by lia.
       replace (12 * a + 11 + 1) with (12 * (a + 1) + 0) by lia.
       rewrite !isMidiNoteBlack_octave by lia.
       change (isMidiNoteBlack 0) with false. cbv iota.
       rewrite !isMidiNoteBlack_octave by lia.
       split; [reflexivity|].
       rewrite !tablePos_octave by lia.
       rewrite inject_Z_plus. table_index.
       change (inject_Z 1) with 1%Q. ring. }
  all: match type of Hq with
       | ?x = 12 * ?q + ?j =>
           replace x with (12 * q + j) by lia;
           replace (12 * q + j + 1) with (12 * q + (j + 1)) by lia;
           replace (12 * q + j + 2) with (12 * q + (j + 2)) by lia;
           rewrite !isMidiNoteBlack_octave by lia;
           let b := eval vm_compute in (isMidiNoteBlack (j + 1)) in
           change (isMidiNoteBlack (j + 1)) with b; cbv iota;
           rewrite !isMidiNoteBlack_octave by lia;
           (split; [vm_compute; reflexivity|]);
           rewrite !tablePos_octave by lia;
           table_index; ring
       end.
Qed.

Lemma getKeyPosition_tablePos (k : Keyboard) (n : Z) (u : Q) :
  (getStart (getKeyPosition k n u) == tablePos (notePosRatio k) n * u)%Q.
Proof. rewrite getKeyPosition_start. unfold tablePos. ring. Qed.

(** X26.  The white keys tile the keyboard.  For a key width that is not
    negative, every white key is one key width long, and it ends exactly
    where the next white key starts: there is neither a gap nor an overlap
    between neighbouring white keys, whatever lies between them. *)
Theorem white_keys_tile_the_keyboard
    (k : Keyboard) (n : Z)
    (Hn : 0 <= n) (Hwhite : isMidiNoteBlack n = false)
    (Hkw : (0 <= keyWidth k)%Q) :
  isMidiNoteBlack (nextWhiteNote n) = false
  /\ n < nextWhiteNote n <= n + 2
  /\ (getLength (getKeyPos k n) == keyWidth k)%Q
  /\ (getEnd (getKeyPos k n) == getStart (getKeyPos k (nextWhiteNote n)))%Q.
Proof.
  destruct (tablePos_next_white (notePosRatio k) n Hn Hwhite) as [C T].
  assert (L := getKeyPosition_white_length k n (keyWidth k) Hkw Hwhite).
  split; [exact C|].
  split; [unfold nextWhiteNote; destruct (isMidiNoteBlack (n + 1)); lia|].
  split; [rewrite getKeyPos_length; exact L|].
  unfold getLength in L.
  rewrite getKeyPos_end, getKeyPos_start.
  rewrite (getKeyPosition_tablePos k (nextWhiteNote n)), T.
  rewrite (getKeyPosition_tablePos k n) in L.
  rewrite (getKeyPosition_tablePos k (rangeStart k)).
  lra.
Qed.

Lemma white_keys_tile_the_keyboard_witness :
  let k := octaveKeyboard in
  (getEnd (getKeyPos k 64) == getStart (getKeyPos k 65))%Q.
Proof.
  intro k.
  assert (Hkw : (0 <= keyWidth k)%Q) by (vm_compute; discriminate).
  exact (proj2 (proj2 (proj2
           (white_keys_tile_the_keyboard k 64 ltac:(lia) eq_refl Hkw)))).
Defined.

(** ** Pointer tracker: the lists as maps from sources to notes *)

Lemma noteAt_lookup (s : MouseInputSource) (l : list InputIndex) :
  noteAt l (find_if (sameSource s) l) = lookupNote s l.
Proof.
  induction l as [|x l IH]; cbn [find_if lookupNote]; [reflexivity|].
  destruct (sameSource s x); [reflexivity|].
  destruct (find_if (sameSource s) l) as [i|]; exact IH.
Qed.

Lemma sameSource_other (s s' : MouseInputSource) (x : InputIndex) :
  sourceId s' <> sourceId s -> sameSource s x = true ->
  sameSource s' x = false.
Proof.
  intros H E. apply sameSource_key in E.
  destruct (sameSource s' x) eqn:E'; [|reflexivity].
  apply sameSource_key in E'. congruence.
Qed.

Section OtherSource.

Variables s s' : MouseInputSource.
Hypothesis Hs : sourceId s' <> sourceId s.

Lemma lookup_snoc_other (n : Z) (l : list InputIndex) :
  lookupNote s' (l ++ [mkInputIndex s n]) = lookupNote s' l.
Proof.
  induction l as [|x l IH]; cbn [app lookupNote].
  - rewrite (sameSource_other s s' _ Hs (sameSource_mkInputIndex s n)).
    reflexivity.
  - rewrite IH. reflexivity.
Qed.

Lemma lookup_erase_other (l : list InputIndex) :
  lookupNote s' (erase (find_if (sameSource s) l) l) = lookupNote s' l.
Proof.
  induction l as [|x l IH]; cbn [find_if]; [reflexivity|].
  destruct (sameSource s x) eqn:E.
  - cbn [erase lookupNote]. unfold eraseAt. cbn [firstn skipn app].
    rewrite (sameSource_other s s' x Hs E). reflexivity.
  - destruct (find_if (sameSource s) l) as [i|]; cbn [erase] in *;
      [|reflexivity].
    rewrite eraseAt_cons. cbn [lookupNote]. rewrite IH. reflexivity.
Qed.

Lemma lookup_assign_other (n : Z) : forall (l : list InputIndex) (i : nat),
  find_if (sameSource s) l = Some i ->
  lookupNote s' (assignNote i n l) = lookupNote s' l.
Proof.
  induction l as [|x l IH]; intros i F; cbn [find_if] in F; [discriminate|].
  destruct (sameSource s x) eqn:E.
  - inversion F; subst i. cbn [assignNote lookupNote].
    assert (E' : sameSource s
                   {| type := type x; index := index x; noteNumber := n |}
                 = true) by exact E.
    rewrite (sameSource_other s s' _ Hs E'),
      (sameSource_other s s' x Hs E). reflexivity.
  - destruct (find_if (sameSource s) l) as [j|]; [|discriminate].
    inversion F; subst i. cbn [assignNote lookupNote].
    rewrite (IH j eq_refl). reflexivity.
Qed.

End OtherSource.

(** What the two halves of updateNoteUnderMouse can do to their list. *)
Lemma updateHover_list (s : MouseInputSource) (o n : Z) (k : Keyboard) :
  let l := mouseOverNotes k in
  let it := find_if (sameSource s) l in
  let l' := mouseOverNotes (updateHover it o n s k) in
  l' = l \/ l' = erase it l \/ l' = l ++ [mkInputIndex s n]
  \/ exists i, it = Some i /\ l' = assignNote i n l.
Proof.
  intros l it l'. unfold l', updateHover.
  assert (R : mouseOverNotes (repaintNote n (repaintNote o k)) = l)
    by (rewrite !(repaintNote_frame mouseOverNotes) by reflexivity;
        reflexivity).
  destruct (negb (o =? n)); [|left; reflexivity].
  cbv zeta.
  destruct (n =? -1); [right; left; fields; rewrite R; reflexivity|].
  destruct (o =? -1);
    [right; right; left; fields; rewrite R; reflexivity|].
  destruct it as [i|] eqn:I.
  - right. right. right. exists i. fields. rewrite R. auto.
  - left. exact R.
Qed.

Lemma updatePress_list (s : MouseInputSource) (o n : Z) (v : Q) (d : bool)
    (k : Keyboard) :
  let l := mouseDownNotes k in
  let it := find_if (sameSource s) l in
  let l' := mouseDownNotes (updatePress it o n v d s k) in
  l' = l \/ l' = erase it l \/ l' = l ++ [mkInputIndex s n]
  \/ l' = erase it l ++ [mkInputIndex s n].
Proof.
  intros l it l'. unfold l', updatePress.
  destruct d.
  - destruct (n =? o); [left; reflexivity|]. cbv zeta.
    destruct (0 <=? o).
    + match goal with |- context [if ?c then _ else _] => destruct c end;
        fields; rewrite ?releaseHeld_down; auto.
    + match goal with |- context [if ?c then _ else _] => destruct c end;
        fields; auto.
  - destruct (o <? 0); [left; reflexivity|].
    rewrite releaseHeld_down. auto.
Qed.

(** X27.  A pointer event concerns its own source only: what any other
    source hovers over, and what any other source holds, is the same
    before and after the event. *)
Theorem pointer_event_leaves_other_sources_alone
    (k : Keyboard) (pos : Q * Q) (isDown : bool)
    (s other : MouseInputSource) (unset : Q)
    (Hother : sourceId other <> sourceId s) :
  let k' := updateNoteUnderMouse pos isDown s unset k in
  hoveredBy other k' = hoveredBy other k
  /\ heldBy other k' = heldBy other k.
Proof.
  intro k'. unfold hoveredBy, heldBy. rewrite !noteAt_lookup.
  unfold k'. rewrite updateNoteUnderMouse_unfold.
  split.
  - rewrite (updatePress_frame mouseOverNotes) by reflexivity.
    destruct (updateHover_list s (hoveredBy s k) (fst (xyToNote k pos)) k)
      as [E | [E | [E | [i [I E]]]]]; rewrite E.
    + reflexivity.
    + apply lookup_erase_other. exact Hother.
    + apply lookup_snoc_other. exact Hother.
    + apply lookup_assign_other with (s := s); assumption.
  - destruct (updateHover_keeps (find_if (sameSource s) (mouseOverNotes k))
                (hoveredBy s k) (fst (xyToNote k pos)) s k) as [D _].
    revert D. generalize (updateHover
                (find_if (sameSource s) (mouseOverNotes k))
                (hoveredBy s k) (fst (xyToNote k pos)) s k).
    intros h D. rewrite <- D.
    destruct (updatePress_list s (heldBy s k) (fst (xyToNote k pos))
                (eventVelocityAt k pos unset) isDown h)
      as [E | [E | [E | E]]]; rewrite E.
    + reflexivity.
    + apply lookup_erase_other. exact Hother.
    + apply lookup_snoc_other. exact Hother.
    + rewrite lookup_snoc_other by exact Hother.
      apply lookup_erase_other. exact Hother.
Qed.

Lemma pointer_event_leaves_other_sources_alone_witness :
  let k := pressLowestKey in
  heldBy firstMouse
    (updateNoteUnderMouse (25, 50)%Q true firstTouch 0 k) = 0.
Proof.
  intro k.
  assert (H : sourceId firstMouse <> sourceId firstTouch) by discriminate.
  rewrite (proj2 (pointer_event_leaves_other_sources_alone
                    k (25, 50)%Q true firstTouch firstMouse 0 H)).
  vm_compute. reflexivity.
Defined.

(** X28.  The hover list follows the pointer.  In a state where no source
    has two hover entries and every entry carries a note, after an event
    of source [s] the hover list records for [s] the note under the
    pointer, and records nothing for [s] when the pointer is over no
    key. *)
Theorem hover_entry_follows_the_pointer
    (k : Keyboard) (pos : Q * Q) (isDown : bool) (s : MouseInputSource)
    (unset : Q) (Hinv : trackerInv k) :
  hoveredBy s (updateNoteUnderMouse pos isDown s unset k)
  = getNoteAtPosition k pos.
Proof.
  destruct Hinv as [R [UO [VO _]]].
  unfold getNoteAtPosition. rewrite updateNoteUnderMouse_unfold.
  unfold hoveredBy at 1.
  rewrite (updatePress_frame mouseOverNotes) by reflexivity.
  fold (hoveredBy s (updateHover
          (find_if (sameSource s) (mouseOverNotes k))
          (hoveredBy s k) (fst (xyToNote k pos)) s k)).
  destruct (xyToNote_range k pos) as [E | E];
    [|apply updateHover_hovered; [exact VO | lia]].
  rewrite E. unfold updateHover.
  destruct (negb (hoveredBy s k =? -1)) eqn:N;
    [|apply negb_false_iff, Z.eqb_eq in N; exact N].
  apply negb_true_iff, Z.eqb_neq in N.
  cbv zeta. rewrite Z.eqb_refl.
  unfold hoveredBy at 1. fields.
  rewrite !(repaintNote_frame mouseOverNotes) by reflexivity.
  assert (H0 : 0 <= hoveredBy s k).
  { unfold hoveredBy in N |- *.
    destruct (find_if (sameSource s) (mouseOverNotes k)) as [i|] eqn:F;
      [|cbn [noteAt] in N; lia].
    destruct (find_if_Some _ _ _ F) as [x [Nx _]].
    cbn [noteAt]. rewrite Nx. exact (validNotes_nth _ _ _ VO Nx). }
  assert (A := erase_found_absent s (mouseOverNotes k) UO H0).
  apply find_if_absent in A. rewrite A. reflexivity.
Qed.

Lemma hover_entry_follows_the_pointer_witness :
  let k := sizedKeyboard 1300 60 in
  hoveredBy firstMouse (updateNoteUnderMouse (25, 50)%Q false firstMouse 0 k)
  = 2.
Proof.
  intro k.
  assert (I : trackerInv k)
    by (apply setSize_trackerInv, construct_trackerInv).
  rewrite (hover_entry_follows_the_pointer k (25, 50)%Q false firstMouse 0 I).
  vm_compute. reflexivity.
Defined.
